(** * SiteLenz 3D reconstruction: orchestration and point-cloud post-processing

    A shallow embedding of
      - [reconstruction_3d/colmap/colmap_wrapper.py]   (module [Colmap]),
      - [reconstruction_3d/processing/model_processor.py] (module [Processor]),
      - [reconstruction_3d/api/routes.py]              (module [Routes]),
      - [reconstruction_3d/config.py]                  (module [Config]),
    together with the properties of the design document that were checked
    against them.

    Conventions.
    - The file system is a finite map from path strings to nodes.
    - The external engine (the [colmap] executable run by
      [subprocess.run]) is a parameter: a function from the command line and
      the file system to an exit status and a new file system.
    - Python objects that are shared by reference (session dicts, status
      dicts) live in a heap and are named by their location.
    - numpy values are rationals extended with the IEEE special values
      [inf], [-inf] and [nan]; arithmetic on finite values is exact, and
      its results are kept in lowest terms. *)

From Stdlib Require Import ZArith QArith Qround String Ascii List.
From Stdlib Require Import Decimal DecimalNat DecimalString Sorted.
From stdpp Require Import gmap strings list.

Local Open Scope string_scope.
Local Open Scope list_scope.

(** ** Python helpers *)

Module Py.

(** [str(n)] for an [int]. *)
Definition str_of_Z (z : Z) : string := NilZero.string_of_int (Z.to_int z).

Definition str_of_nat (n : nat) : string := str_of_Z (Z.of_nat n).

Definition dquote : string := String (ascii_of_nat 34) EmptyString.
Definition squote : string := "'".
Definition backslash : string := String (ascii_of_nat 92) EmptyString.

Fixpoint contains_char (c : ascii) (s : string) : bool :=
  match s with
  | EmptyString => false
  | String d s' => if Ascii.eqb c d then true else contains_char c s'
  end.

Fixpoint escape_for_squote (s : string) : string :=
  match s with
  | EmptyString => EmptyString
  | String c s' =>
      if Ascii.eqb c (ascii_of_nat 39) then backslash +:+ String c (escape_for_squote s')
      else if Ascii.eqb c (ascii_of_nat 92) then backslash +:+ String c (escape_for_squote s')
      else String c (escape_for_squote s')
  end.

(** [repr(s)] for a [str] of printable ASCII characters: single quotes,
    unless the text has a single quote and no double quote. *)
Definition repr_str (s : string) : string :=
  if contains_char (ascii_of_nat 39) s && negb (contains_char (ascii_of_nat 34) s)
  then dquote +:+ s +:+ dquote
  else squote +:+ escape_for_squote s +:+ squote.

Fixpoint join (sep : string) (l : list string) : string :=
  match l with
  | [] => ""
  | [x] => x
  | x :: l' => x +:+ sep +:+ join sep l'
  end.

(** [str(l)] for a list of [str]. *)
Definition str_of_list (l : list string) : string :=
  "[" +:+ join ", " (map repr_str l) +:+ "]".

Definition string_drop (n : nat) (s : string) : string :=
  String.substring n (String.length s - n) s.

Fixpoint replace_fuel (fuel : nat) (old new s : string) : string :=
  match fuel with
  | O => s
  | S fuel' =>
      match s with
      | EmptyString => EmptyString
      | String c s' =>
          if String.prefix old s
          then new +:+ replace_fuel fuel' old new (string_drop (String.length old) s)
          else String c (replace_fuel fuel' old new s')
      end
  end.

(** [s.replace(old, new)] for a non-empty [old]. *)
Definition replace (old new s : string) : string :=
  replace_fuel (String.length s) old new s.

(** [f"{n:04d}"] for a non-negative [n]. *)
Definition pad4 (n : nat) : string :=
  let s := NilEmpty.string_of_uint (Nat.to_uint n) in
  match String.length s with
  | 1 => "000" +:+ s
  | 2 => "00" +:+ s
  | 3 => "0" +:+ s
  | _ => s
  end%nat.

(** [int(x)] for a float: truncation toward zero. *)
Definition int_of_float (x : Q) : Z := Z.quot (Qnum x) (Z.pos (Qden x)).

End Py.

(** ** The file system *)

Definition point : Type := Q * Q * Q.
Definition rgb : Type := Z * Z * Z.

(** A point cloud as [ModelProcessor.point_cloud] holds it: the rows of
    ['points'] and, when the file has colour channels, the rows of
    ['colors'] (one per point). *)
Record cloud := {
  points : list point;
  colors : option (list rgb)
}.

Record mesh := {
  vertices : list point;
  faces : list (nat * nat * nat)
}.

(** A [trimesh.primitives.Sphere] with its face colour. *)
Record marker := {
  center : point;
  radius : Q;
  face_colors : list Z
}.

Inductive node :=
| Dir
| PlyFile (c : option cloud)  (* a .ply file; [Some] when it has a vertex element *)
| MeshFile (m : mesh) (ms : list marker) (file_type : string)
                              (* a mesh exported together with its markers *)
| JsonFile (fields : list (string * string))
                              (* a JSON document: keys and rendered scalars *)
| Blob (data : string).       (* any other regular file *)

Definition path_join (a b : string) : string := a +:+ "/" +:+ b.

Definition exists_ (fs : gmap string node) (p : string) : bool :=
  bool_decide (is_Some (fs !! p)).

(** [Path.mkdir(parents=True, exist_ok=True)]: [None] stands for the
    [FileExistsError] raised when the path is a regular file. *)
Definition mkdir (fs : gmap string node) (p : string) : option (gmap string node) :=
  match fs !! p with
  | None | Some Dir => Some (<[p := Dir]> fs)
  | Some _ => None
  end.

(** ** config.py *)

Module Config.

Inductive cfgval :=
| VInt (z : Z)
| VFloat (q : Q)
| VStr (s : string).

(** A dict of option groups, in insertion order. *)
Definition group : Type := list (string * cfgval).
Definition colmap_config : Type := list (string * group).

Fixpoint assoc {A} (k : string) (l : list (string * A)) : option A :=
  match l with
  | [] => None
  | (k', v) :: l' => if String.eqb k k' then Some v else assoc k l'
  end.

(** [d[k] = v] on a dict: replace in place, or append a new key. *)
Fixpoint assoc_set {A} (k : string) (v : A) (l : list (string * A)) : list (string * A) :=
  match l with
  | [] => [(k, v)]
  | (k', v') :: l' => if String.eqb k k' then (k, v) :: l' else (k', v') :: assoc_set k v l'
  end.

Definition COLMAP_CONFIG : colmap_config :=
  [ ("feature_extractor",
      [ ("SiftExtraction.max_image_size", VInt 3200);
        ("SiftExtraction.max_num_features", VInt 8192);
        ("SiftExtraction.first_octave", VInt (-1));
        ("SiftExtraction.num_threads", VInt (-1));
        ("SiftExtraction.use_gpu", VInt 1);
        ("SiftExtraction.gpu_index", VStr "0") ]);
    ("feature_matcher",
      [ ("SiftMatching.max_ratio", VFloat (8 # 10));
        ("SiftMatching.max_distance", VFloat (7 # 10));
        ("SiftMatching.cross_check", VInt 1);
        ("SiftMatching.max_error", VFloat 4);
        ("SiftMatching.max_num_matches", VInt 32768);
        ("SiftMatching.confidence", VFloat (999 # 1000));
        ("SiftMatching.min_inlier_ratio", VFloat (25 # 100));
        ("SiftMatching.use_gpu", VInt 1);
        ("SiftMatching.gpu_index", VStr "0") ]);
    ("mapper",
      [ ("Mapper.ba_refine_focal_length", VInt 1);
        ("Mapper.ba_refine_principal_point", VInt 0);
        ("Mapper.ba_refine_extra_params", VInt 1);
        ("Mapper.min_num_matches", VInt 15);
        ("Mapper.init_min_num_inliers", VInt 100);
        ("Mapper.abs_pose_min_num_inliers", VInt 30);
        ("Mapper.abs_pose_min_inlier_ratio", VFloat (25 # 100));
        ("Mapper.ba_local_num_images", VInt 6);
        ("Mapper.ba_global_max_num_iterations", VInt 50);
        ("Mapper.ba_local_max_num_iterations", VInt 25);
        ("Mapper.ba_global_max_refinements", VInt 5);
        ("Mapper.ba_local_max_refinements", VInt 3);
        ("Mapper.snapshot_images_freq", VInt 0) ]);
    ("dense",
      [ ("max_image_size", VInt 2000);
        ("window_radius", VInt 5);
        ("window_step", VInt 1);
        ("num_samples", VInt 15);
        ("num_iterations", VInt 5);
        ("geom_consistency", VInt 1);
        ("filter_min_ncc", VFloat (1 # 10));
        ("filter_min_triangulation_angle", VFloat 3);
        ("filter_min_num_consistent", VInt 3);
        ("filter_geom_consistency_max_cost", VFloat 1);
        ("cuda_index", VStr "0");
        ("num_threads", VInt (-1)) ]) ].

(** [API_CONFIG] *)
Definition max_images_per_session : nat := 200.
Definition min_images_for_reconstruction : nat := 10.

(** [CRACK_OVERLAY_CONFIG] *)
Definition marker_size : Q := 5 # 100.
Definition marker_colors : list (string * list Z) :=
  [ ("Algae", [0; 255; 0]);
    ("Major Crack", [255; 0; 0]);
    ("Minor Crack", [255; 165; 0]);
    ("Peeling", [128; 0; 128]);
    ("Plain", [0; 0; 255]);
    ("Spalling", [139; 69; 19]);
    ("Stain", [255; 255; 0]) ]%Z.

End Config.

(** ** colmap/colmap_wrapper.py *)

Module Colmap.
Import Config.

Record wrapper := {
  workspace : string;
  colmap_exe : string
}.

Definition images_path (w : wrapper) : string := path_join (workspace w) "images".
Definition database_path (w : wrapper) : string := path_join (workspace w) "database.db".
Definition sparse_path (w : wrapper) : string := path_join (workspace w) "sparse".
Definition dense_path (w : wrapper) : string := path_join (workspace w) "dense".

(** [results] of [full_reconstruction]. *)
Record results := {
  success : bool;
  steps_completed : list string;
  errors : list string;
  output_files : list (string * string)
}.

Section Engine.

(** [str(x)] for a float; ints and strs are rendered here. *)
Variable float_str : Q -> string.

(** [run_command]: the external process. It returns [true] exactly when the
    process could be run and exited with status 0; every exception is caught
    in [run_command] and gives [false]. *)
Variable run_command : list string -> gmap string node -> bool * gmap string node.

Definition py_str (v : cfgval) : string :=
  match v with
  | VInt z => Py.str_of_Z z
  | VFloat q => float_str q
  | VStr s => s
  end.

(** [Path(...).mkdir] three times, as [__init__] does. *)
Definition init (workspace_path exe : string) (fs : gmap string node)
  : option (wrapper * gmap string node) :=
  let w := {| workspace := workspace_path; colmap_exe := exe |} in
  fs1 ← mkdir fs (images_path w);
  fs2 ← mkdir fs1 (sparse_path w);
  fs3 ← mkdir fs2 (dense_path w);
  Some (w, fs3).

(** [if config: for key, value in config.get(section, {}).items(): ...] *)
Definition group_of (config : option colmap_config) (section : string) : group :=
  match config with
  | Some (_ :: _ as c) => default [] (assoc section c)
  | _ => []
  end.

Definition option_args (prefix : string) (g : group) : list string :=
  flat_map (fun kv => ["--" +:+ prefix +:+ fst kv; py_str (snd kv)]) g.

Definition feature_extraction (w : wrapper) (config : option colmap_config)
    (fs : gmap string node) : bool * gmap string node :=
  run_command
    ([colmap_exe w; "feature_extractor";
      "--database_path"; database_path w;
      "--image_path"; images_path w]
     ++ option_args "" (group_of config "feature_extractor")) fs.

Definition feature_matching (w : wrapper) (config : option colmap_config)
    (fs : gmap string node) : bool * gmap string node :=
  run_command
    ([colmap_exe w; "exhaustive_matcher";
      "--database_path"; database_path w]
     ++ option_args "" (group_of config "feature_matcher")) fs.

Definition sparse_reconstruction (w : wrapper) (config : option colmap_config)
    (fs : gmap string node) : bool * gmap string node :=
  run_command
    ([colmap_exe w; "mapper";
      "--database_path"; database_path w;
      "--image_path"; images_path w;
      "--output_path"; sparse_path w]
     ++ option_args "" (group_of config "mapper")) fs.

Definition image_undistortion (w : wrapper) (fs : gmap string node)
  : bool * gmap string node :=
  let model_path := path_join (sparse_path w) "0" in
  if negb (exists_ fs model_path) then (false, fs)
  else
    run_command
      [colmap_exe w; "image_undistorter";
       "--image_path"; images_path w;
       "--input_path"; model_path;
       "--output_path"; dense_path w;
       "--output_type"; "COLMAP"] fs.

Definition is_filter (kv : string * cfgval) : bool := String.prefix "filter_" (fst kv).

Definition dense_reconstruction (w : wrapper) (config : option colmap_config)
    (fs : gmap string node) : bool * gmap string node :=
  let dense := group_of config "dense" in
  let cmd_stereo :=
    [colmap_exe w; "patch_match_stereo"; "--workspace_path"; dense_path w]
    ++ option_args "PatchMatchStereo." (filter (fun kv => negb (is_filter kv)) dense) in
  let '(ok, fs1) := run_command cmd_stereo fs in
  if negb ok then (false, fs1)
  else
    let cmd_fusion :=
      [colmap_exe w; "stereo_fusion"; "--workspace_path"; dense_path w;
       "--output_path"; path_join (dense_path w) "fused.ply"]
      ++ option_args "StereoFusion."
           (map (fun kv => (Py.replace "filter_" "" (fst kv), snd kv))
                (filter is_filter dense)) in
    run_command cmd_fusion fs1.

(** [output_format.lower()] is only used at the default ["PLY"]. *)
Definition export_model (w : wrapper) (fs : gmap string node)
  : option string * gmap string node :=
  let dense_model := path_join (dense_path w) "fused.ply" in
  if exists_ fs dense_model then (Some dense_model, fs)
  else
    let sparse_model := path_join (sparse_path w) "0" in
    if negb (exists_ fs sparse_model) then (None, fs)
    else
      let output_file := path_join (workspace w) "model.ply" in
      let '(ok, fs1) :=
        run_command [colmap_exe w; "model_converter";
                     "--input_path"; sparse_model;
                     "--output_path"; output_file;
                     "--output_type"; "PLY"] fs in
      if ok then (Some output_file, fs1) else (None, fs1).

Definition empty_results : results :=
  {| success := false; steps_completed := []; errors := []; output_files := [] |}.

Definition add_step (r : results) (s : string) : results :=
  {| success := success r; steps_completed := steps_completed r ++ [s];
     errors := errors r; output_files := output_files r |}.

Definition add_error (r : results) (e : string) : results :=
  {| success := success r; steps_completed := steps_completed r;
     errors := errors r ++ [e]; output_files := output_files r |}.

Definition set_model (r : results) (p : string) : results :=
  {| success := true; steps_completed := steps_completed r;
     errors := errors r; output_files := assoc_set "model" p (output_files r) |}.

Definition full_reconstruction (w : wrapper) (config : option colmap_config)
    (fs : gmap string node) : results * gmap string node :=
  let r0 := empty_results in
  let '(ok1, fs1) := feature_extraction w config fs in
  if negb ok1 then (add_error r0 "Feature extraction failed", fs1) else
  let r1 := add_step r0 "feature_extraction" in
  let '(ok2, fs2) := feature_matching w config fs1 in
  if negb ok2 then (add_error r1 "Feature matching failed", fs2) else
  let r2 := add_step r1 "feature_matching" in
  let '(ok3, fs3) := sparse_reconstruction w config fs2 in
  if negb ok3 then (add_error r2 "Sparse reconstruction failed", fs3) else
  let r3 := add_step r2 "sparse_reconstruction" in
  let '(ok4, fs4) := image_undistortion w fs3 in
  if negb ok4 then (add_error r3 "Image undistortion failed", fs4) else
  let r4 := add_step r3 "image_undistortion" in
  let '(ok5, fs5) := dense_reconstruction w config fs4 in
  let r5 := if ok5 then add_step r4 "dense_reconstruction"
            else add_error r4 "Dense reconstruction failed" in
  let '(model_path, fs6) := export_model w fs5 in
  match model_path with
  | Some p => (set_model r5 p, fs6)
  | None => (r5, fs6)
  end.

End Engine.
End Colmap.

(** ** numpy scalars *)

Module Np.

Inductive float :=
| Fin (q : Q)
| PInf
| NInf
| NaN.

Definition add (a b : float) : float :=
  match a, b with
  | NaN, _ | _, NaN => NaN
  | PInf, NInf | NInf, PInf => NaN
  | PInf, _ | _, PInf => PInf
  | NInf, _ | _, NInf => NInf
  | Fin x, Fin y => Fin (Qred (x + y))
  end.

Definition neg (a : float) : float :=
  match a with
  | Fin x => Fin (- x)
  | PInf => NInf
  | NInf => PInf
  | NaN => NaN
  end.

Definition sub (a b : float) : float := add a (neg b).

(** The sign of a rational as a comparison with 0. *)
Definition sgn (x : Q) : comparison := (0 ?= x)%Q.

Definition mul (a b : float) : float :=
  match a, b with
  | NaN, _ | _, NaN => NaN
  | Fin x, Fin y => Fin (Qred (x * y))
  | Fin x, PInf | PInf, Fin x =>
      match sgn x with Lt => PInf | Eq => NaN | Gt => NInf end
  | Fin x, NInf | NInf, Fin x =>
      match sgn x with Lt => NInf | Eq => NaN | Gt => PInf end
  | PInf, PInf | NInf, NInf => PInf
  | PInf, NInf | NInf, PInf => NInf
  end.

(** Division by the length of an array; [0/0] is [nan]. *)
Definition div_count (a : float) (n : nat) : float :=
  match n with
  | O => NaN
  | S _ =>
      match a with
      | Fin x => Fin (Qred (x / inject_Z (Z.of_nat n)))
      | _ => a
      end
  end.

(** [a < b]; every comparison with [nan] is false. *)
Definition lt (a b : float) : bool :=
  match a, b with
  | NaN, _ | _, NaN => false
  | _, NInf => false
  | PInf, _ => false
  | NInf, _ => true
  | Fin _, PInf => true
  | Fin x, Fin y => match (x ?= y)%Q with Lt => true | _ => false end
  end.

Definition sum (l : list float) : float := fold_left add l (Fin 0).

(** [np.mean] of a one-dimensional array. *)
Definition mean (l : list float) : float := div_count (sum l) (length l).

Section Sqrt.
(** The square root of a non-negative finite value. *)
Variable fsqrt : Q -> Q.

Definition sqrt (a : float) : float :=
  match a with
  | Fin x => match sgn x with Gt => NaN | _ => Fin (fsqrt x) end
  | PInf => PInf
  | NInf => NaN
  | NaN => NaN
  end.

(** [np.std]: [sqrt(mean(abs(x - x.mean())**2))]. *)
Definition std (l : list float) : float :=
  let m := mean l in
  sqrt (mean (map (fun x => let d := sub x m in mul d d) l)).

End Sqrt.

(** [a[idx]] for a list of integer indices: [None] is the [IndexError]. *)
Definition take_indices {A} (l : list A) (idx : list nat) : option (list A) :=
  mapM (fun i => l !! i) idx.

(** [a[mask]] for a boolean mask: [None] is the [IndexError] raised when
    the lengths differ. *)
Definition take_mask {A} (l : list A) (mask : list bool) : option (list A) :=
  if decide (length l = length mask)
  then Some (map fst (filter (fun xb => snd xb = true) (zip l mask)))
  else None.

(** Rows of an integer array, compared lexicographically. *)
Definition row : Type := Z * Z * Z.

Definition row_compare (a b : row) : comparison :=
  let '(a1, a2, a3) := a in
  let '(b1, b2, b3) := b in
  match (a1 ?= b1)%Z with
  | Eq => match (a2 ?= b2)%Z with
          | Eq => (a3 ?= b3)%Z
          | c => c
          end
  | c => c
  end.

(** Insert a row with its payload into a list sorted by row; a row that is
    already present keeps the payload it has. *)
Fixpoint ins {A} (k : row) (a : A) (l : list (row * A)) : list (row * A) :=
  match l with
  | [] => [(k, a)]
  | (k', a') :: l' =>
      match row_compare k k' with
      | Lt => (k, a) :: l
      | Eq => l
      | Gt => (k', a') :: ins k a l'
      end
  end.

Definition first_occurrences {A} (l : list (row * A)) : list (row * A) :=
  fold_left (fun acc ka => ins (fst ka) (snd ka) acc) l [].

(** The indices returned by [np.unique(a, axis=0, return_index=True)]: for
    each distinct row, in sorted order, the index of its first occurrence. *)
Definition unique_index (a : list row) : list nat :=
  map snd (first_occurrences (zip a (seq 0 (length a)))).

End Np.

(** ** processing/model_processor.py *)

Module Processor.

(** An entry of [session['annotations']]. *)
Record annotation := {
  position : list Q;
  classification : string;
  transcript : string;
  image_index : nat
}.

(** The calls into [trimesh] and [scipy.spatial.Delaunay]; [None] is a
    raised exception. [load] is given the contents of the file. *)
Record trimesh_api := {
  load : node -> option mesh;
  delaunay_mesh : list point -> option mesh;
  convex_hull : list point -> option mesh;
  simplify_quadric_decimation : mesh -> Z -> option mesh;
  filter_laplacian : mesh -> Z -> option mesh;
  is_watertight : mesh -> bool
}.

Record processor := {
  model_path : string;
  point_cloud : option cloud;
  mesh_ : option mesh;
  markers : list marker
}.

Definition init (path : string) : processor :=
  {| model_path := path; point_cloud := None; mesh_ := None; markers := [] |}.

Definition set_cloud (p : processor) (c : cloud) : processor :=
  {| model_path := model_path p; point_cloud := Some c;
     mesh_ := mesh_ p; markers := markers p |}.

Definition set_mesh (p : processor) (m : mesh) : processor :=
  {| model_path := model_path p; point_cloud := point_cloud p;
     mesh_ := Some m; markers := markers p |}.

Definition set_markers (p : processor) (ms : list marker) : processor :=
  {| model_path := model_path p; point_cloud := point_cloud p;
     mesh_ := mesh_ p; markers := ms |}.

Definition set_points (c : cloud) (ps : list point) : cloud :=
  {| points := ps; colors := colors c |}.

Definition set_colors (c : cloud) (cs : list rgb) : cloud :=
  {| points := points c; colors := Some cs |}.

(** [PlyData.read] raises when there is no such file, when the file is not a
    PLY file, or when it has no ['vertex'] element. *)
Definition load_point_cloud (fs : gmap string node) (p : processor) : bool * processor :=
  match fs !! model_path p with
  | Some (PlyFile (Some c)) => (bool_decide (0 < length (points c))%nat, set_cloud p c)
  | _ => (false, p)
  end.

Section Library.
Variable T : trimesh_api.
Variable fsqrt : Q -> Q.

(** [trimesh.load] raises when there is no such file. *)
Definition load_mesh (fs : gmap string node) (p : processor) : bool * processor :=
  match fs !! model_path p ≫= load T with
  | Some m => (bool_decide (0 < length (vertices m))%nat, set_mesh p m)
  | None => (false, p)
  end.

(** *** Voxel downsampling *)

Definition voxel_index (voxel_size : Q) (p : point) : Np.row :=
  let '(x, y, z) := p in
  (Qfloor (x / voxel_size), Qfloor (y / voxel_size), Qfloor (z / voxel_size)).

Definition downsample_point_cloud (voxel_size : Q) (p : processor) : bool * processor :=
  match point_cloud p with
  | None => (false, p)
  | Some c =>
      let original_size := length (points c) in
      let voxel_indices := map (voxel_index voxel_size) (points c) in
      let unique_indices := Np.unique_index voxel_indices in
      match Np.take_indices (points c) unique_indices with
      | None => (false, p)
      | Some ps =>
          let c1 := set_points c ps in
          match colors c with
          | None =>
              (* [new_size / original_size] *)
              (negb (original_size =? 0)%nat, set_cloud p c1)
          | Some cs =>
              match Np.take_indices cs unique_indices with
              | None => (false, set_cloud p c1)
              | Some cs' => (negb (original_size =? 0)%nat, set_cloud p (set_colors c1 cs'))
              end
          end
      end
  end.

(** *** Outlier removal *)

Definition sq (x : Q) : Q := x * x.

Definition dist (a b : point) : Q :=
  let '(x1, y1, z1) := a in
  let '(x2, y2, z2) := b in
  fsqrt (sq (x1 - x2) + sq (y1 - y2) + sq (z1 - z2)).

Fixpoint insert_sorted (x : Q) (l : list Q) : list Q :=
  match l with
  | [] => [x]
  | y :: l' => if Qle_bool x y then x :: l else y :: insert_sorted x l'
  end.

Definition sort (l : list Q) : list Q := fold_right insert_sorted [] l.

(** One row of [cKDTree(points).query(points, k)]: the [k] smallest
    distances from [p] to the points of the tree (the point itself is among
    them), ascending; missing neighbours have distance [inf]. *)
Definition query_row (pts : list point) (k : nat) (p : point) : list Np.float :=
  let ds := sort (map (dist p) pts) in
  map Np.Fin (take k ds) ++ replicate (k - length ds) Np.PInf.

(** [len(tree.query_ball_point(p, r))] *)
Definition ball_count (pts : list point) (r : Q) (p : point) : Z :=
  Z.of_nat (length (filter (fun q => Qle_bool (dist p q) r = true) pts)).

Inductive method := Statistical | Radius | Other (name : string).

Definition method_of (name : string) : method :=
  if String.eqb name "statistical" then Statistical
  else if String.eqb name "radius" then Radius
  else Other name.

(** The keyword arguments; [None] is an absent key. *)
Record kwargs := {
  nb_neighbors : option nat;
  std_ratio : option Q;
  nb_points : option Z;
  radius_ : option Q
}.

Definition no_kwargs : kwargs :=
  {| nb_neighbors := None; std_ratio := None; nb_points := None; radius_ := None |}.

Definition avg_distances (pts : list point) (k : nat) : list Np.float :=
  map (fun p => Np.mean (tail (query_row pts (k + 1) p))) pts.

Definition threshold (avg : list Np.float) (ratio : Q) : Np.float :=
  Np.add (Np.mean avg) (Np.mul (Np.Fin ratio) (Np.std fsqrt avg)).

Definition statistical_mask (pts : list point) (k : nat) (ratio : Q) : list bool :=
  let avg := avg_distances pts k in
  map (fun a => Np.lt a (threshold avg ratio)) avg.

Definition radius_mask (pts : list point) (n : Z) (r : Q) : list bool :=
  map (fun p => (n <=? ball_count pts r p)%Z) pts.

(** The mask, or [None] for the [IndexError] of [distances[:, 1:]] on the
    one-dimensional result of a query with [k = 1]. *)
Definition outlier_mask (m : method) (kw : kwargs) (pts : list point) : option (list bool) :=
  match m with
  | Statistical =>
      let k := default 20%nat (nb_neighbors kw) in
      let ratio := default 2%Q (std_ratio kw) in
      if (k =? 0)%nat then None else Some (statistical_mask pts k ratio)
  | Radius =>
      let n := default 16%Z (nb_points kw) in
      let r := default (5 # 100)%Q (radius_ kw) in
      Some (radius_mask pts n r)
  | Other _ => None
  end.

Definition remove_outliers (m : method) (kw : kwargs) (p : processor) : bool * processor :=
  match point_cloud p with
  | None => (false, p)
  | Some c =>
      let original_size := length (points c) in
      match outlier_mask m kw (points c) with
      | None => (false, p)
      | Some mask =>
          match Np.take_mask (points c) mask with
          | None => (false, p)
          | Some ps =>
              let c1 := set_points c ps in
              match colors c with
              | None =>
                  (* [removed/original_size*100] *)
                  (negb (original_size =? 0)%nat, set_cloud p c1)
              | Some cs =>
                  match Np.take_mask cs mask with
                  | None => (false, set_cloud p c1)
                  | Some cs' =>
                      (negb (original_size =? 0)%nat, set_cloud p (set_colors c1 cs'))
                  end
              end
          end
      end
  end.


(** *** Meshing, simplification, smoothing *)

Definition point_cloud_to_mesh (name : string) (p : processor) : bool * processor :=
  match point_cloud p with
  | None => (false, p)
  | Some c =>
      if String.eqb name "alpha_shape" then
        match delaunay_mesh T (points c) with
        | Some m => (true, set_mesh p m)
        | None => (false, p)
        end
      else if String.eqb name "convex_hull" then
        match convex_hull T (points c) with
        | Some m => (true, set_mesh p m)
        | None => (false, p)
        end
      else (false, p)
  end.

Definition simplify_mesh (target_reduction : Q) (p : processor) : bool * processor :=
  match mesh_ p with
  | None => (false, p)
  | Some m =>
      let original_faces := length (faces m) in
      let target_faces :=
        Py.int_of_float (inject_Z (Z.of_nat original_faces) * target_reduction)%Q in
      match simplify_quadric_decimation T m target_faces with
      | Some m' => (true, set_mesh p m')
      | None => (false, p)
      end
  end.

Definition smooth_mesh (iterations : Z) (p : processor) : bool * processor :=
  match mesh_ p with
  | None => (false, p)
  | Some m =>
      match filter_laplacian T m iterations with
      | Some m' => (true, set_mesh p m')
      | None => (false, p)
      end
  end.

(** *** Markers *)

Definition marker_color (cls : string) : list Z :=
  default [128; 128; 128]%Z (Config.assoc cls Config.marker_colors) ++ [255%Z].

(** [translate[:3, 3] = center] in the constructor of the sphere: numpy
    takes three numbers as they are, broadcasts one number to the three
    coordinates, and raises on any other length. (A position that is a bare
    number broadcasts as the list of that one number does.) *)
Definition sphere_center (position : list Q) : option point :=
  match position with
  | [x] => Some (x, x, x)
  | [x; y; z] => Some (x, y, z)
  | _ => None
  end.

(** The loop of [add_crack_markers]: a position that cannot be placed makes
    the sphere constructor raise, and the markers built so far stay. *)
Fixpoint build_markers (anns : list annotation) (acc : list marker) : bool * list marker :=
  match anns with
  | [] => (true, acc)
  | a :: rest =>
      match sphere_center (position a) with
      | Some c =>
          build_markers rest
            (acc ++ [{| center := c; radius := Config.marker_size;
                        face_colors := marker_color (classification a) |}])
      | None => (false, acc)
      end
  end.

(** [overlay_import] tells whether [from ..config import CRACK_OVERLAY_CONFIG]
    resolves in the package the module was loaded under; when it does not,
    the [ImportError] is caught before [self.markers] is reset. *)
Definition add_crack_markers (overlay_import : bool) (anns : list annotation)
    (p : processor) : bool * processor :=
  if negb overlay_import then (false, p)
  else
    let '(ok, ms) := build_markers anns [] in
    (ok, set_markers p ms).

(** *** Saving *)

Definition save_mesh (output_path file_type : string) (p : processor)
    (fs : gmap string node) : bool * gmap string node :=
  match mesh_ p with
  | None => (false, fs)
  | Some m => (true, <[output_path := MeshFile m (markers p) file_type]> fs)
  end.

(** *** Model information *)

Record cloud_info := {
  num_points : nat;
  has_colors : bool;
  bbox_min : point;
  bbox_max : point
}.

Record mesh_info := {
  num_vertices : nat;
  num_faces : nat;
  watertight : bool
}.

Record model_info := {
  info_point_cloud : option cloud_info;
  info_mesh : option mesh_info;
  info_markers : option nat
}.

Definition no_info : model_info :=
  {| info_point_cloud := None; info_mesh := None; info_markers := None |}.

Definition qmin (a b : Q) : Q := if Qle_bool a b then a else b.
Definition qmax (a b : Q) : Q := if Qle_bool a b then b else a.

Definition pmin (a b : point) : point :=
  let '(x1, y1, z1) := a in let '(x2, y2, z2) := b in (qmin x1 x2, qmin y1 y2, qmin z1 z2).
Definition pmax (a b : point) : point :=
  let '(x1, y1, z1) := a in let '(x2, y2, z2) := b in (qmax x1 x2, qmax y1 y2, qmax z1 z2).

(** [points.min(axis=0)] and [points.max(axis=0)]: [None] is the
    [ValueError] raised on a zero-size array. *)
Definition bounding_box (pts : list point) : option (point * point) :=
  match pts with
  | [] => None
  | p :: rest => Some (fold_left pmin rest p, fold_left pmax rest p)
  end.

Definition get_model_info (p : processor) : option model_info :=
  pc ← match point_cloud p with
       | None => Some None
       | Some c =>
           bb ← bounding_box (points c);
           Some (Some {| num_points := length (points c);
                         has_colors := bool_decide (is_Some (colors c));
                         bbox_min := fst bb; bbox_max := snd bb |})
       end;
  Some {| info_point_cloud := pc;
          info_mesh :=
            (fun m => {| num_vertices := length (vertices m);
                         num_faces := length (faces m);
                         watertight := is_watertight T m |}) <$> mesh_ p;
          info_markers :=
            match markers p with [] => None | ms => Some (length ms) end |}.

(** *** The full pipeline *)

(** [MODEL_CONFIG]; [None] is an absent key, [Some] of a group a non-empty
    dict. *)
Record point_cloud_config := {
  voxel_size : option Q;
  outlier_removal : bool;
  statistical_outlier : option kwargs
}.

Record mesh_config := {
  reconstruction_method : option string;
  simplification_factor : option Q;
  smooth : bool;
  smooth_iterations : option Z
}.

Record model_config := {
  cfg_point_cloud : option point_cloud_config;
  cfg_mesh : option mesh_config
}.

Definition MODEL_CONFIG : model_config :=
  {| cfg_point_cloud :=
       Some {| voxel_size := Some (2 # 100)%Q;
               outlier_removal := true;
               statistical_outlier :=
                 Some {| nb_neighbors := Some 20%nat; std_ratio := Some 2%Q;
                         nb_points := None; radius_ := None |} |};
     cfg_mesh :=
       Some {| reconstruction_method := Some "poisson";
               simplification_factor := Some (95 # 100)%Q;
               smooth := false;
               smooth_iterations := None |} |}.

Record results := {
  success : bool;
  steps_completed : list string;
  errors : list string;
  info : model_info
}.

(** A step that is run only for its effect on [steps_completed]. *)
Definition record_step (name : string) (r : bool * processor) (steps : list string)
  : list string * processor :=
  (if fst r then steps ++ [name] else steps, snd r).

(** Truthiness of a float option: present and non-zero. *)
Definition truthy (q : option Q) : option Q :=
  match q with
  | Some v => if Qeq_bool v 0 then None else Some v
  | None => None
  end.

Definition process_point_cloud (config : option model_config) (steps : list string)
    (p : processor) : list string * processor :=
  let pc := config ≫= cfg_point_cloud in
  let '(steps1, p1) :=
    match truthy (pc ≫= voxel_size) with
    | Some v => record_step "downsample" (downsample_point_cloud v p) steps
    | None => (steps, p)
    end in
  let '(steps2, p2) :=
    match pc with
    | Some c =>
        if outlier_removal c
        then record_step "outlier_removal"
               (remove_outliers Statistical (default no_kwargs (statistical_outlier c)) p1)
               steps1
        else (steps1, p1)
    | None => (steps1, p1)
    end in
  match config ≫= cfg_mesh with
  | Some m =>
      record_step "mesh_creation"
        (point_cloud_to_mesh (default "alpha_shape" (reconstruction_method m)) p2) steps2
  | None => (steps2, p2)
  end.

Definition process_mesh (config : option model_config) (steps : list string)
    (p : processor) : list string * processor :=
  let m := config ≫= cfg_mesh in
  let '(steps1, p1) :=
    match mesh_ p, truthy (m ≫= simplification_factor) with
    | Some _, Some factor => record_step "simplification" (simplify_mesh factor p) steps
    | _, _ => (steps, p)
    end in
  match mesh_ p1, m with
  | Some _, Some mc =>
      if smooth mc
      then record_step "smoothing" (smooth_mesh (default 5%Z (smooth_iterations mc)) p1) steps1
      else (steps1, p1)
  | _, _ => (steps1, p1)
  end.

(** [str(e)] of the [ValueError] of [get_model_info]. *)
Definition zero_size_text : string :=
  "zero-size array to reduction operation minimum which has no identity".

Definition failed_to_load : results :=
  {| success := false; steps_completed := [];
     errors := ["Failed to load model"]; info := no_info |}.

(** The part of the pipeline after a successful load. *)
Definition finish_pipeline (config : option model_config)
    (loaded : list string * processor) : results * processor :=
  let '(steps, p) := process_mesh config (fst loaded) (snd loaded) in
  match get_model_info p with
  | Some i => ({| success := true; steps_completed := steps; errors := []; info := i |}, p)
  | None =>
      ({| success := false; steps_completed := steps;
          errors := [zero_size_text]; info := no_info |}, p)
  end.

Definition process_full_pipeline (config : option model_config)
    (fs : gmap string node) (p : processor) : results * processor :=
  let '(ok_pc, p1) := load_point_cloud fs p in
  if ok_pc
  then finish_pipeline config (process_point_cloud config ["load_point_cloud"] p1)
  else
    let '(ok_mesh, p2) := load_mesh fs p1 in
    if ok_mesh then finish_pipeline config (["load_mesh"], p2)
    else (failed_to_load, p2).

End Library.
End Processor.

(** ** api/routes.py *)

Module Routes.
Import Config.

(** *** Records kept in the registries *)

Record pose := {
  pose_position : option (list Q);
  pose_rotation : option (list Q)
}.

Definition no_pose : pose := {| pose_position := None; pose_rotation := None |}.

(** A value of a request where the handler goes on as if it were a dict
    ([camera_pose]) or a string ([classification]): a value of that type, or
    one of another JSON type (null, a number, a list, ...), of which the
    handler sees the truth value and, when a method is missing, the name of
    the type. *)
Inductive json (A : Type) :=
| Has (a : A)
| Mistyped (truthy : bool) (type_name : string).
Arguments Has {A} a.
Arguments Mistyped {A} truthy type_name.

Record image_info := {
  filename : string;
  path : string;
  camera_pose : json pose;
  img_transcript : string;
  img_classification : json string;
  confidence : Q;
  timestamp : Q
}.

(** The dict built by [start_session]; these seven keys are all it has. *)
Record session := {
  project_name : string;
  room_type : string;
  folder : string;
  images : list image_info;
  annotations : list Processor.annotation;
  created_at : Q;
  status : string
}.

(** The dict built by [start_reconstruction]; ['output_files'] and
    ['completed_at'] are absent until the job completes. *)
Record job_status := {
  js_session_id : string;
  js_status : string;
  progress : Z;
  message : string;
  started_at : Q;
  current_step : option string;
  js_errors : list string;
  output_files : option (list (string * string));
  completed_at : option Q
}.

(** *** Requests and responses *)

Record start_request := {
  sr_project_name : option string;
  sr_room_type : option string
}.

Record upload_request := {
  ur_session_id : option string;
  ur_image : option string;
  ur_camera_pose : option (json pose);
  ur_transcript : option string;
  ur_classification : option (json string);
  ur_confidence : option Q
}.

Record recon_request := {
  rr_session_id : option string;
  rr_quality : option string
}.

Inductive response :=
| SessionStarted (session_id : string)
| ImageUploaded (image_count annotation_count : nat) (msg : string)
| ReconstructionStarted (reconstruction_id : string) (estimated_time_minutes : Z)
| Error (http_status : nat) (error : string).

(** *** Background threads *)

Inductive phase :=
| Starting        (* lines 274-285 *)
| RunColmap       (* lines 287-303 *)
| RunProcessing   (* lines 305-318 *)
| AddMarkers      (* lines 320-325 *)
| SaveModel       (* lines 327-338 *)
| SaveMetadata    (* lines 340-367 *)
| Finished.

(** The local variables of one call of [run_reconstruction]. [session_ref]
    is the dict object handed to the thread, [status_ref] the dict object
    bound by [status = reconstruction_status[recon_id]]. *)
Record job := {
  recon_id : string;
  session_ref : nat;
  status_ref : option nat;
  at_phase : phase;
  processor_ : option Processor.processor;
  model_info_ : Processor.model_info
}.

(** *** The state of the server *)

Record world := {
  fs : gmap string node;
  session_heap : list session;              (* the session dict objects *)
  active_sessions : gmap string nat;        (* session id -> object *)
  status_heap : list job_status;            (* the status dict objects *)
  reconstruction_status : gmap string nat;  (* reconstruction id -> object *)
  colmap_groups : Config.colmap_config;     (* the option groups of COLMAP_CONFIG *)
  threads : list job                        (* the threads started so far *)
}.

Definition initial_world : world :=
  {| fs := ∅; session_heap := []; active_sessions := ∅;
     status_heap := []; reconstruction_status := ∅;
     colmap_groups := COLMAP_CONFIG; threads := [] |}.

Definition set_fs (w : world) (f : gmap string node) : world :=
  {| fs := f; session_heap := session_heap w; active_sessions := active_sessions w;
     status_heap := status_heap w; reconstruction_status := reconstruction_status w;
     colmap_groups := colmap_groups w; threads := threads w |}.

Definition set_session_heap (w : world) (h : list session) : world :=
  {| fs := fs w; session_heap := h; active_sessions := active_sessions w;
     status_heap := status_heap w; reconstruction_status := reconstruction_status w;
     colmap_groups := colmap_groups w; threads := threads w |}.

Definition set_active_sessions (w : world) (a : gmap string nat) : world :=
  {| fs := fs w; session_heap := session_heap w; active_sessions := a;
     status_heap := status_heap w; reconstruction_status := reconstruction_status w;
     colmap_groups := colmap_groups w; threads := threads w |}.

Definition set_status_heap (w : world) (h : list job_status) : world :=
  {| fs := fs w; session_heap := session_heap w; active_sessions := active_sessions w;
     status_heap := h; reconstruction_status := reconstruction_status w;
     colmap_groups := colmap_groups w; threads := threads w |}.

Definition set_reconstruction_status (w : world) (r : gmap string nat) : world :=
  {| fs := fs w; session_heap := session_heap w; active_sessions := active_sessions w;
     status_heap := status_heap w; reconstruction_status := r;
     colmap_groups := colmap_groups w; threads := threads w |}.

Definition set_colmap_config (w : world) (c : Config.colmap_config) : world :=
  {| fs := fs w; session_heap := session_heap w; active_sessions := active_sessions w;
     status_heap := status_heap w; reconstruction_status := reconstruction_status w;
     colmap_groups := c; threads := threads w |}.

Definition set_threads (w : world) (t : list job) : world :=
  {| fs := fs w; session_heap := session_heap w; active_sessions := active_sessions w;
     status_heap := status_heap w; reconstruction_status := reconstruction_status w;
     colmap_groups := colmap_groups w; threads := t |}.

(** [active_sessions[session_id]]: the dict object and its contents. *)
Definition lookup_session (w : world) (sid : string) : option (nat * session) :=
  r ← active_sessions w !! sid;
  s ← session_heap w !! r;
  Some (r, s).

(** [reconstruction_status[recon_id]] *)
Definition lookup_status (w : world) (rid : string) : option job_status :=
  r ← reconstruction_status w !! rid;
  status_heap w !! r.

(** *** What the server is deployed with *)

Record externals := {
  SESSIONS_DIR : string;
  OUTPUT_DIR : string;
  float_str : Q -> string;
  run_command : list string -> gmap string node -> bool * gmap string node;
  trimesh : Processor.trimesh_api;
  fsqrt : Q -> Q;
  (** [base64.b64decode]; [None] is [binascii.Error]. *)
  b64decode : string -> option string;
  (** [str(e)] of the [FileExistsError] of [mkdir] on this path. *)
  file_exists_text : string -> string;
  (** [str(e)] of the [binascii.Error] for this text. *)
  b64_error_text : string -> string
}.

Section Server.
Variable E : externals.

(** *** start_session *)

(** The three readings of [time.time()] in [start_session]. *)
Record start_clock := {
  t_project : Q;
  t_session : Q;
  t_created : Q
}.

Definition start_session (req : start_request) (clk : start_clock) (w : world)
  : response * world :=
  let project_name :=
    default ("project_" +:+ Py.str_of_Z (Py.int_of_float (t_project clk)))
            (sr_project_name req) in
  let session_id := "session_" +:+ Py.str_of_Z (Py.int_of_float (t_session clk)) in
  let session_folder := path_join (SESSIONS_DIR E) session_id in
  match mkdir (fs w) session_folder with
  | None => (Error 500 (file_exists_text E session_folder), w)
  | Some fs1 =>
      let s := {| project_name := project_name;
                  room_type := default "unknown" (sr_room_type req);
                  folder := session_folder;
                  images := [];
                  annotations := [];
                  created_at := t_created clk;
                  status := "active" |} in
      let r := length (session_heap w) in
      (SessionStarted session_id,
       set_active_sessions
         (set_session_heap (set_fs w fs1) (session_heap w ++ [s]))
         (<[session_id := r]> (active_sessions w)))
  end.

(** *** upload_image *)

Definition lower_ascii (c : ascii) : ascii :=
  let n := nat_of_ascii c in
  if (65 <=? n)%nat && (n <=? 90)%nat then ascii_of_nat (n + 32) else c.

Fixpoint lower (s : string) : string :=
  match s with
  | EmptyString => EmptyString
  | String c s' => String (lower_ascii c) (lower s')
  end.

Definition benign (cls : string) : bool :=
  bool_decide (lower cls ∈ ["plain"; "normal"; "unknown"]).

(** [if not x] for an optional string: absent or empty. *)
Definition nonempty (x : option string) : option string :=
  match x with
  | Some "" | None => None
  | Some _ => x
  end.

(** The local variables of [upload_image] once the file is written
    (line 138). *)
Record pending_upload := {
  up_session : nat;
  up_session_id : string;
  up_img_num : nat;
  up_filename : string;
  up_path : string;
  up_request : upload_request
}.

(** [f"img_{img_num:04d}.jpg"] *)
Definition img_name (img_num : nat) : string := "img_" +:+ Py.pad4 img_num +:+ ".jpg".

(** Lines 112-138: validation, the choice of the file name from the current
    image count, and the write of the file. *)
Definition upload_begin (req : upload_request) (w : world)
  : (response + pending_upload) * world :=
  match nonempty (ur_session_id req) ≫= (fun sid => pair sid <$> lookup_session w sid) with
  | None => (inl (Error 400 "Invalid session ID"), w)
  | Some (sid, (r, s)) =>
      if (max_images_per_session <=? length (images s))%nat
      then (inl (Error 400 ("Maximum " +:+ Py.str_of_nat max_images_per_session
                            +:+ " images per session")), w)
      else
        match nonempty (ur_image req) with
        | None => (inl (Error 400 "No image data provided"), w)
        | Some img_base64 =>
            match b64decode E img_base64 with
            | None => (inl (Error 500 (b64_error_text E img_base64)), w)
            | Some img_bytes =>
                let img_num := length (images s) in
                let img_filename := img_name img_num in
                let img_path := path_join (folder s) img_filename in
                (inr {| up_session := r; up_session_id := sid; up_img_num := img_num;
                        up_filename := img_filename; up_path := img_path;
                        up_request := req |},
                 set_fs w (<[img_path := Blob img_bytes]> (fs w)))
            end
        end
  end.

Definition add_image (s : session) (i : image_info) : session :=
  {| project_name := project_name s; room_type := room_type s; folder := folder s;
     images := images s ++ [i]; annotations := annotations s;
     created_at := created_at s; status := status s |}.

Definition add_annotation (s : session) (a : Processor.annotation) : session :=
  {| project_name := project_name s; room_type := room_type s; folder := folder s;
     images := images s; annotations := annotations s ++ [a];
     created_at := created_at s; status := status s |}.

(** The [image_info] dict of lines 141-149. *)
Definition image_info_of (u : pending_upload) (now : Q) : image_info :=
  let req := up_request u in
  {| filename := up_filename u;
     path := up_path u;
     camera_pose := default (Has no_pose) (ur_camera_pose req);
     img_transcript := default "" (ur_transcript req);
     img_classification := default (Has "Unknown") (ur_classification req);
     confidence := default 0%Q (ur_confidence req);
     timestamp := now |}.

(** [str(e)] of the [AttributeError] raised by [x.attr] on a value of a type
    without that attribute. *)
Definition attribute_error_text (type_name attr : string) : string :=
  "'" +:+ type_name +:+ "' object has no attribute '" +:+ attr +:+ "'".

(** What lines 154-162 come to, once the record is appended: an annotation
    to add, nothing, or the exception raised on the way. *)
Inductive flagging :=
| Annotate (a : Processor.annotation)
| Skip
| Raise (e : string).

(** Lines 154-162. [classification.lower()] raises on a true value that is
    not a string; [data.get('camera_pose', {}).get(...)] raises on a pose
    that is not a dict, when the classification has led there. *)
Definition flag_upload (u : pending_upload) (now : Q) : flagging :=
  let image_info := image_info_of u now in
  match img_classification image_info with
  | Mistyped false _ => Skip
  | Mistyped true type_name => Raise (attribute_error_text type_name "lower")
  | Has classification =>
      if negb (String.eqb classification "") && negb (benign classification)
      then
        match default (Has no_pose) (ur_camera_pose (up_request u)) with
        | Mistyped _ type_name => Raise (attribute_error_text type_name "get")
        | Has camera_pose =>
            Annotate
              {| Processor.position := default [0; 0; 0]%Q (pose_position camera_pose);
                 Processor.classification := classification;
                 Processor.transcript := img_transcript image_info;
                 Processor.image_index := up_img_num u |}
        end
      else Skip
  end.

(** Lines 151-162 on the session object: the record is appended, with an
    annotation when the classification is not benign. An exception leaves
    the record appended. *)
Definition record_upload (u : pending_upload) (now : Q) (s : session) : session :=
  let s1 := add_image s (image_info_of u now) in
  match flag_upload u now with
  | Annotate a => add_annotation s1 a
  | Skip | Raise _ => s1
  end.

(** Lines 141-175. An exception of lines 154-162 is answered with 500 by the
    [except] block, after the file is written and the record appended. *)
Definition upload_finish (u : pending_upload) (now : Q) (w : world) : response * world :=
  let heap := alter (record_upload u now) (up_session u) (session_heap w) in
  match heap !! up_session u with
  | Some s =>
      (match flag_upload u now with
       | Raise e => Error 500 e
       | Annotate _ | Skip =>
           ImageUploaded (length (images s)) (length (annotations s))
             ("Image " +:+ Py.str_of_nat (up_img_num u) +:+ " uploaded successfully")
       end,
       set_session_heap w heap)
  | None => (Error 500 "", w)
  end.

(** The handler run without interruption. *)
Definition upload_image (req : upload_request) (now : Q) (w : world) : response * world :=
  match upload_begin req w with
  | (inl resp, w1) => (resp, w1)
  | (inr u, w1) => upload_finish u now w1
  end.


(** Two requests served at once. Each handler thread does [upload_begin],
    then [upload_finish]; a schedule says which thread moves next ([true]
    for the first). *)
Inductive handler :=
| Ready (req : upload_request)
| Writing (u : pending_upload)
| Replied (r : response).

Definition handler_step (now : Q) (h : handler) (w : world) : handler * world :=
  match h with
  | Ready req =>
      match upload_begin req w with
      | (inl r, w') => (Replied r, w')
      | (inr u, w') => (Writing u, w')
      end
  | Writing u => let '(r, w') := upload_finish u now w in (Replied r, w')
  | Replied _ => (h, w)
  end.

Fixpoint run_schedule (sched : list bool) (now_a now_b : Q) (a b : handler) (w : world)
  : handler * handler * world :=
  match sched with
  | [] => (a, b, w)
  | true :: rest =>
      let '(a', w') := handler_step now_a a w in run_schedule rest now_a now_b a' b w'
  | false :: rest =>
      let '(b', w') := handler_step now_b b w in run_schedule rest now_a now_b a b' w'
  end.

(** *** start_reconstruction *)

(** [config[section][key] = VInt n] on the shared option groups. *)
Definition set_option (section key : string) (n : Z) (c : colmap_config) : colmap_config :=
  match assoc section c with
  | Some g => assoc_set section (assoc_set key (VInt n) g) c
  | None => c
  end.

(** [config = COLMAP_CONFIG.copy()] copies the outer dict only: the option
    groups written here are the ones every other job reads. *)
Definition adjust_quality (quality : string) (c : colmap_config) : colmap_config :=
  if String.eqb quality "high" then
    set_option "dense" "max_image_size" 3200
      (set_option "feature_extractor" "SiftExtraction.max_num_features" 16384 c)
  else if String.eqb quality "low" then
    set_option "dense" "max_image_size" 1600
      (set_option "feature_extractor" "SiftExtraction.max_num_features" 4096 c)
  else c.

Definition quality_multiplier (quality : string) : Q :=
  if String.eqb quality "high" then 2
  else if String.eqb quality "medium" then 1
  else if String.eqb quality "low" then 1 # 2
  else 1.

Definition need_images_text : string :=
  "Need at least " +:+ Py.str_of_nat min_images_for_reconstruction +:+ " images".

(** The two readings of [time.time()] in [start_reconstruction]. *)
Record recon_clock := {
  t_recon : Q;
  t_started : Q
}.

Definition new_job (rid : string) (sref : nat) : job :=
  {| recon_id := rid; session_ref := sref; status_ref := None; at_phase := Starting;
     processor_ := None; model_info_ := Processor.no_info |}.

Definition start_reconstruction (req : recon_request) (clk : recon_clock) (w : world)
  : response * world :=
  match nonempty (rr_session_id req) ≫= (fun sid => pair sid <$> lookup_session w sid) with
  | None => (Error 400 "Invalid session ID", w)
  | Some (sid, (r, s)) =>
      if (length (images s) <? min_images_for_reconstruction)%nat
      then (Error 400 need_images_text, w)
      else
        let recon_id := "recon_" +:+ Py.str_of_Z (Py.int_of_float (t_recon clk)) in
        let quality := default "medium" (rr_quality req) in
        let w1 := set_colmap_config w (adjust_quality quality (colmap_groups w)) in
        let st := {| js_session_id := sid;
                     js_status := "queued";
                     progress := 0;
                     message := "Initializing reconstruction...";
                     started_at := t_started clk;
                     current_step := None;
                     js_errors := [];
                     output_files := None;
                     completed_at := None |} in
        let sr := length (status_heap w1) in
        let w2 := set_reconstruction_status
                    (set_status_heap w1 (status_heap w1 ++ [st]))
                    (<[recon_id := sr]> (reconstruction_status w1)) in
        let w3 := set_threads w2 (threads w2 ++ [new_job recon_id r]) in
        let base_time := (inject_Z (Z.of_nat (length (images s))) * (1 # 2))%Q in
        let estimated_time := (base_time * quality_multiplier quality)%Q in
        (ReconstructionStarted recon_id (Py.int_of_float (estimated_time / 60)%Q), w3)
  end.

(** *** run_reconstruction *)

Definition upd_status (st : job_status) (status' : string) : job_status :=
  {| js_session_id := js_session_id st; js_status := status'; progress := progress st;
     message := message st; started_at := started_at st; current_step := current_step st;
     js_errors := js_errors st; output_files := output_files st;
     completed_at := completed_at st |}.

Definition upd_progress (st : job_status) (n : Z) : job_status :=
  {| js_session_id := js_session_id st; js_status := js_status st; progress := n;
     message := message st; started_at := started_at st; current_step := current_step st;
     js_errors := js_errors st; output_files := output_files st;
     completed_at := completed_at st |}.

Definition upd_message (st : job_status) (m : string) : job_status :=
  {| js_session_id := js_session_id st; js_status := js_status st; progress := progress st;
     message := m; started_at := started_at st; current_step := current_step st;
     js_errors := js_errors st; output_files := output_files st;
     completed_at := completed_at st |}.

Definition upd_step (st : job_status) (s : string) : job_status :=
  {| js_session_id := js_session_id st; js_status := js_status st; progress := progress st;
     message := message st; started_at := started_at st; current_step := Some s;
     js_errors := js_errors st; output_files := output_files st;
     completed_at := completed_at st |}.

Definition upd_error (st : job_status) (e : string) : job_status :=
  {| js_session_id := js_session_id st; js_status := js_status st; progress := progress st;
     message := message st; started_at := started_at st; current_step := current_step st;
     js_errors := js_errors st ++ [e]; output_files := output_files st;
     completed_at := completed_at st |}.

Definition upd_completed (st : job_status) (files : list (string * string)) (now : Q)
  : job_status :=
  {| js_session_id := js_session_id st; js_status := js_status st; progress := progress st;
     message := message st; started_at := started_at st; current_step := current_step st;
     js_errors := js_errors st; output_files := Some files;
     completed_at := Some now |}.

(** A write to the job's status dict. *)
Definition write_status (j : job) (f : job_status -> job_status) (w : world) : world :=
  match status_ref j with
  | Some r => set_status_heap w (alter f r (status_heap w))
  | None => w
  end.

Definition at_ (j : job) (ph : phase) : job :=
  {| recon_id := recon_id j; session_ref := session_ref j; status_ref := status_ref j;
     at_phase := ph; processor_ := processor_ j; model_info_ := model_info_ j |}.

Definition with_processor (j : job) (p : Processor.processor) : job :=
  {| recon_id := recon_id j; session_ref := session_ref j; status_ref := status_ref j;
     at_phase := at_phase j; processor_ := Some p; model_info_ := model_info_ j |}.

Definition with_info (j : job) (i : Processor.model_info) : job :=
  {| recon_id := recon_id j; session_ref := session_ref j; status_ref := status_ref j;
     at_phase := at_phase j; processor_ := processor_ j; model_info_ := i |}.

Definition bind_status (j : job) (r : option nat) : job :=
  {| recon_id := recon_id j; session_ref := session_ref j; status_ref := r;
     at_phase := at_phase j; processor_ := processor_ j; model_info_ := model_info_ j |}.

(** The [except Exception as e] block, lines 371-373, as it leaves the
    status once its three writes are made. *)
Definition fail (j : job) (e : string) (w : world) : job * world :=
  (at_ j Finished,
   write_status j
     (fun st => upd_error (upd_message (upd_status st "failed")
                             ("Reconstruction failed: " +:+ e)) e) w).

Definition output_folder (j : job) : string := path_join (OUTPUT_DIR E) (recon_id j).

(** How [add_crack_markers] fares in this module. Lines 17-21 put the
    package directory on [sys.path] and load the processor as
    [processing.model_processor]: there [from ..config import
    CRACK_OVERLAY_CONFIG] reaches beyond the top-level package, and the
    [ImportError] is raised on every call. *)
Definition overlay_import : bool := false.

(** The string keys of a session dict. *)
Definition session_str (s : session) (key : string) : option string :=
  if String.eqb key "project_name" then Some (project_name s)
  else if String.eqb key "room_type" then Some (room_type s)
  else if String.eqb key "folder" then Some (folder s)
  else if String.eqb key "status" then Some (status s)
  else None.

(** [str(e)] of a [KeyError]. *)
Definition key_error_text (key : string) : string := Py.repr_str key.

(** One phase of [run_reconstruction]. [now] is the reading of
    [time.time()] that the phase makes, if it makes one. *)
Definition job_step (now : Q) (j : job) (w : world) : job * world :=
  match session_heap w !! session_ref j with
  | None => (at_ j Finished, w)
  | Some session =>
      match at_phase j with
      | Starting =>
          let j := bind_status j (reconstruction_status w !! recon_id j) in
          match mkdir (fs w) (output_folder j) with
          | None => fail j (file_exists_text E (output_folder j)) w
          | Some fs1 =>
              (at_ j RunColmap,
               write_status j
                 (fun st => upd_progress
                              (upd_message (upd_step (upd_status st "running") "colmap")
                                 "Running COLMAP reconstruction...") 10)
                 (set_fs w fs1))
          end
      | RunColmap =>
          match Colmap.init (folder session) "colmap" (fs w) with
          | None => fail j (file_exists_text E (folder session)) w
          | Some (colmap, fs1) =>
              let '(colmap_result, fs2) :=
                Colmap.full_reconstruction (float_str E) (run_command E) colmap
                  (Some (colmap_groups w)) fs1 in
              let w1 := set_fs w fs2 in
              if negb (Colmap.success colmap_result)
              then fail j ("COLMAP failed: " +:+ Py.str_of_list (Colmap.errors colmap_result)) w1
              else
                (at_ j RunProcessing,
                 write_status j
                   (fun st => upd_progress
                                (upd_message (upd_step st "processing")
                                   "Processing 3D model...") 70) w1)
          end
      | RunProcessing =>
          (* [sparse_model] is assigned when [dense_model] does not exist, and
             is not used afterwards: the processor is built on [dense_model]
             in both cases. *)
          let dense_model := path_join (path_join (folder session) "dense") "fused.ply" in
          let '(process_result, p) :=
            Processor.process_full_pipeline (trimesh E) (fsqrt E)
              (Some Processor.MODEL_CONFIG) (fs w) (Processor.init dense_model) in
          let j := with_processor j p in
          if negb (Processor.success process_result)
          then fail j ("Processing failed: "
                       +:+ Py.str_of_list (Processor.errors process_result)) w
          else
            (at_ (with_info j (Processor.info process_result)) AddMarkers,
             write_status j (fun st => upd_progress st 85) w)
      | AddMarkers =>
          match processor_ j with
          | None => (at_ j Finished, w)
          | Some p =>
              match annotations session with
              | [] => (at_ j SaveModel, write_status j (fun st => upd_progress st 90) w)
              | anns =>
                  let '(_, p') := Processor.add_crack_markers overlay_import anns p in
                  (at_ (with_processor j p') SaveModel,
                   write_status j
                     (fun st => upd_progress (upd_message st "Adding crack markers...") 90) w)
              end
          end
      | SaveModel =>
          match processor_ j with
          | None => (at_ j Finished, w)
          | Some p =>
              let '(_, fs1) :=
                Processor.save_mesh (path_join (output_folder j) "model.ply") "ply" p (fs w) in
              let '(_, fs2) :=
                Processor.save_mesh (path_join (output_folder j) "model.obj") "obj" p fs1 in
              let '(_, fs3) :=
                Processor.save_mesh (path_join (output_folder j) "model.glb") "glb" p fs2 in
              (at_ j SaveMetadata,
               write_status j
                 (fun st => upd_progress (upd_message st "Saving final model...") 95)
                 (set_fs w fs3))
          end
      | SaveMetadata =>
          match session_str session "session_id" with
          | None => fail j (key_error_text "session_id") w
          | Some sid =>
              let metadata :=
                [ ("reconstruction_id", recon_id j);
                  ("session_id", sid);
                  ("project_name", project_name session);
                  ("num_images", Py.str_of_nat (length (images session)));
                  ("num_annotations", Py.str_of_nat (length (annotations session))) ] in
              let meta_path := path_join (output_folder j) "metadata.json" in
              (at_ j Finished,
               write_status j
                 (fun st =>
                    upd_completed
                      (upd_message (upd_progress (upd_status st "completed") 100)
                         "3D reconstruction completed successfully!")
                      [ ("ply", path_join (output_folder j) "model.ply");
                        ("obj", path_join (output_folder j) "model.obj");
                        ("glb", path_join (output_folder j) "model.glb");
                        ("metadata", meta_path) ] now)
                 (set_fs w (<[meta_path := JsonFile metadata]> (fs w))))
          end
      | Finished => (j, w)
      end
  end.

(** [run_reconstruction] without anything else running in between. *)
Fixpoint run_steps (n : nat) (now : Q) (j : job) (w : world) : job * world :=
  match n with
  | O => (j, w)
  | S n' => let '(j', w') := job_step now j w in run_steps n' now j' w'
  end.

Definition run_reconstruction (now : Q) (j : job) (w : world) : job * world :=
  run_steps 6 now j w.

End Server.
End Routes.

(** ** api/routes.py: the remaining handlers *)

Module Handlers.
Import Routes.

(** The answer of [download_model]. *)
Inductive download :=
| Served (file_path : string)
| Refused (http_status : nat) (error : string).

(** [download_model]. A status without the key ['output_files'] makes
    [status['output_files']] raise outside any handler: a 500. *)
Definition download_model (recon_id file_type : string) (w : world) : download :=
  match lookup_status w recon_id with
  | None => Refused 404 "Invalid reconstruction ID"
  | Some status =>
      if negb (String.eqb (js_status status) "completed")
      then Refused 400 "Reconstruction not completed"
      else if negb (bool_decide (file_type ∈ ["ply"; "obj"; "glb"]))
      then Refused 400 "Invalid file type"
      else
        match output_files status with
        | None => Refused 500 "Internal Server Error"
        | Some files =>
            match nonempty (Config.assoc file_type files) with
            | Some file_path =>
                if exists_ (fs w) file_path then Served file_path
                else Refused 404 "File not found"
            | None => Refused 404 "File not found"
            end
        end
  end.

(** [get_status]: the status dict itself, or 404. *)
Definition get_status (recon_id : string) (w : world) : option job_status :=
  lookup_status w recon_id.

(** The answer of [delete_session]. *)
Inductive deletion :=
| Deleted
| NotDeleted (http_status : nat) (error : string).

(** A path is the folder or lies below it. *)
Definition under (folder path : string) : bool :=
  String.eqb path folder || String.prefix (folder +:+ "/") path.

(** [shutil.rmtree(folder, ignore_errors=True)] *)
Definition rmtree (fs : gmap string node) (folder : string) : gmap string node :=
  filter (λ kv, under folder (fst kv) = false) fs.

Definition delete_session (session_id : string) (w : world) : deletion * world :=
  match lookup_session w session_id with
  | None => (NotDeleted 404 "Invalid session ID", w)
  | Some (_, session) =>
      (Deleted,
       set_active_sessions (set_fs w (rmtree (fs w) (folder session)))
         (delete session_id (active_sessions w)))
  end.

(** One assignment to a status dict, of those [run_reconstruction] makes on
    its way to line 343, where the metadata is built, and in its [except]
    block: the status (lines 282 and 371), the step (283, 301), the message
    (284, 298, 302, 322, 328, 372), the progress (285, 297, 303, 318, 325,
    338) and the appended error (373). *)
Inductive status_write : (job_status → job_status) → Prop :=
| write_running : status_write (λ st, upd_status st "running")
| write_failed : status_write (λ st, upd_status st "failed")
| write_step step : status_write (λ st, upd_step st step)
| write_message m : status_write (λ st, upd_message st m)
| write_progress n :
    n ∈ [10; 60; 70; 85; 90; 95]%Z → status_write (λ st, upd_progress st n)
| write_error e : status_write (λ st, upd_error st e).

(** The states the server can come to from [w0]. A handler that has
    written its file and a job thread may be in any local state when they
    take a step; a thread may also be seen between two of its writes to a
    status, having made any one of them. *)
Inductive reachable_from (E : externals) (w0 : world) : world → Prop :=
| reach_here : reachable_from E w0 w0
| reach_start_session req clk w :
    reachable_from E w0 w → reachable_from E w0 (snd (start_session E req clk w))
| reach_upload_begin req w :
    reachable_from E w0 w → reachable_from E w0 (snd (upload_begin E req w))
| reach_upload_finish u now w :
    reachable_from E w0 w → reachable_from E w0 (snd (upload_finish u now w))
| reach_start_reconstruction req clk w :
    reachable_from E w0 w → reachable_from E w0 (snd (start_reconstruction req clk w))
| reach_delete_session sid w :
    reachable_from E w0 w → reachable_from E w0 (snd (delete_session sid w))
| reach_job_step now j w :
    reachable_from E w0 w → reachable_from E w0 (snd (job_step E now j w))
| reach_status_write j f w :
    status_write f →
    reachable_from E w0 w → reachable_from E w0 (write_status j f w).

(** The states of a server since its start. *)
Definition reachable (E : externals) : world → Prop := reachable_from E initial_world.

(** The states reached when every upload is served without interruption. *)
Inductive served (E : externals) : world → Prop :=
| served_initial : served E initial_world
| served_start_session req clk w :
    served E w → served E (snd (start_session E req clk w))
| served_upload_image req now w :
    served E w → served E (snd (upload_image E req now w))
| served_start_reconstruction req clk w :
    served E w → served E (snd (start_reconstruction req clk w))
| served_delete_session sid w :
    served E w → served E (snd (delete_session sid w))
| served_job_step now j w :
    served E w → served E (snd (job_step E now j w)).

End Handlers.

(** ** Concrete deployments used in the examples *)

Module Scenario.

(** The argument that follows [key] on a command line. *)
Fixpoint arg_after (key : string) (cmd : list string) : option string :=
  match cmd with
  | k :: ((v :: _) as rest) => if String.eqb k key then Some v else arg_after key rest
  | _ => None
  end.

(** An engine whose sparse stages always succeed. The mapper writes the
    model directory [0]; stereo matching succeeds when [dense_ok]; fusion
    writes the fused cloud; the converter succeeds when [convert_ok] and
    writes the sparse cloud. *)
Definition engine (dense_ok convert_ok : bool) (fused sparse : cloud)
    (cmd : list string) (fs : gmap string node) : bool * gmap string node :=
  match cmd with
  | _ :: sub :: _ =>
      if String.eqb sub "mapper" then
        match arg_after "--output_path" cmd with
        | Some out => (true, <[path_join out "0" := Dir]> fs)
        | None => (false, fs)
        end
      else if String.eqb sub "patch_match_stereo" then (dense_ok, fs)
      else if String.eqb sub "stereo_fusion" then
        match arg_after "--output_path" cmd with
        | Some out => (true, <[out := PlyFile (Some fused)]> fs)
        | None => (false, fs)
        end
      else if String.eqb sub "model_converter" then
        match arg_after "--output_path" cmd with
        | Some out =>
            if convert_ok then (true, <[out := PlyFile (Some sparse)]> fs) else (false, fs)
        | None => (false, fs)
        end
      else (true, fs)
  | _ => (false, fs)
  end.

Definition no_cloud : cloud := {| points := []; colors := None |}.

Definition wrapper0 : Colmap.wrapper :=
  {| Colmap.workspace := "sessions/session_1700000000"; Colmap.colmap_exe := "colmap" |}.

(** A workspace in which [__init__] has made the three directories. *)
Definition workspace0 : gmap string node :=
  <[Colmap.dense_path wrapper0 := Dir]>
    (<[Colmap.sparse_path wrapper0 := Dir]>
       (<[Colmap.images_path wrapper0 := Dir]> ∅)).

Definition render_float (q : Q) : string :=
  Py.str_of_Z (Qnum q) +:+ "/" +:+ Py.str_of_Z (Z.pos (Qden q)).

(** A square root on the rationals, exact on squares and otherwise rounded
    down to six decimals. *)
Definition sqrt_approx (q : Q) : Q :=
  Qred (Z.sqrt (Qnum q * Z.pos (Qden q) * 10 ^ 12) # (Qden q * 10 ^ 6)).

(** No mesh library call succeeds. *)
Definition no_trimesh : Processor.trimesh_api :=
  {| Processor.load := λ _, None;
     Processor.delaunay_mesh := λ _, None;
     Processor.convex_hull := λ _, None;
     Processor.simplify_quadric_decimation := λ _ _, None;
     Processor.filter_laplacian := λ _ _, None;
     Processor.is_watertight := λ _, false |}.

Definition deployment (dense_ok convert_ok : bool) (fused sparse : cloud)
  : Routes.externals :=
  {| Routes.SESSIONS_DIR := "sessions";
     Routes.OUTPUT_DIR := "output";
     Routes.float_str := render_float;
     Routes.run_command := engine dense_ok convert_ok fused sparse;
     Routes.trimesh := no_trimesh;
     Routes.fsqrt := sqrt_approx;
     Routes.b64decode := λ s, Some s;
     Routes.file_exists_text := λ p, "[Errno 17] File exists: " +:+ Py.repr_str p;
     Routes.b64_error_text := λ _, "Incorrect padding" |}.

(** Twenty-five points on a line, one unit apart. *)
Definition line25 : cloud :=
  {| points := map (λ i, (inject_Z (Z.of_nat i), 0, 0)%Q) (seq 0 25); colors := None |}.

Definition site : Routes.externals := deployment true true line25 line25.

(** An upload of a plain wall, and one of a crack. *)
Definition upload (sid cls : string) : Routes.upload_request :=
  {| Routes.ur_session_id := Some sid;
     Routes.ur_image := Some "/9j/4AAQSkZJRg==";
     Routes.ur_camera_pose :=
       Some (Routes.Has
               {| Routes.pose_position := Some [1; 2; 3]%Q; Routes.pose_rotation := None |});
     Routes.ur_transcript := None;
     Routes.ur_classification := Some (Routes.Has cls);
     Routes.ur_confidence := Some (9 # 10)%Q |}.

Definition at_second (t : Q) : Routes.start_clock :=
  {| Routes.t_project := t; Routes.t_session := t; Routes.t_created := t |}.

Definition new_session : Routes.start_request :=
  {| Routes.sr_project_name := Some "room_scan_1"; Routes.sr_room_type := None |}.

Definition uploads (E : Routes.externals) (n : nat) (sid cls : string) (now : Q)
    (w : Routes.world) : Routes.world :=
  Nat.iter n (λ w, snd (Routes.upload_image E (upload sid cls) now w)) w.

(** A session started at second 1700000000 with [n] plain images. *)
Definition world_with (E : Routes.externals) (n : nat) : Routes.world :=
  uploads E n "session_1700000000" "Plain" 1700000001
    (snd (Routes.start_session E new_session (at_second 1700000000) Routes.initial_world)).

Definition reconstruct (sid : string) (quality : option string) : Routes.recon_request :=
  {| Routes.rr_session_id := Some sid; Routes.rr_quality := quality |}.

Definition recon_at (t : Q) : Routes.recon_clock :=
  {| Routes.t_recon := t; Routes.t_started := t |}.

End Scenario.

(** * Properties *)

Local Open Scope nat_scope.

(** ** The adapter: which stage failures abort the pipeline *)

Section ColmapProperties.
Variable float_str : Q -> string.
Variable run_command : list string -> gmap string node -> bool * gmap string node.

Let feature_extraction := Colmap.feature_extraction float_str run_command.
Let feature_matching := Colmap.feature_matching float_str run_command.
Let sparse_reconstruction := Colmap.sparse_reconstruction float_str run_command.
Let image_undistortion := Colmap.image_undistortion run_command.
Let dense_reconstruction := Colmap.dense_reconstruction float_str run_command.
Let export_model := Colmap.export_model run_command.
Let full_reconstruction := Colmap.full_reconstruction float_str run_command.

Definition aborted (steps : list string) (e : string) : Colmap.results :=
  {| Colmap.success := false; Colmap.steps_completed := steps;
     Colmap.errors := [e]; Colmap.output_files := [] |}.

(** C4 (amended). The first of feature extraction, feature matching, sparse
    reconstruction and image undistortion that fails ends the pipeline at
    once: no later stage is run, [success] is false and [errors] holds that
    stage's message alone. A failure of dense reconstruction is recorded in
    [errors] and the pipeline goes on to the export; [success] is then true
    exactly when [export_model] returns a path, that is when the fused
    cloud exists or the sparse model exists and its conversion succeeds. *)
Theorem full_reconstruction_failure_policy w config fs :
  let s1 := feature_extraction w config fs in
  let s2 := feature_matching w config (snd s1) in
  let s3 := sparse_reconstruction w config (snd s2) in
  let s4 := image_undistortion w (snd s3) in
  let s5 := dense_reconstruction w config (snd s4) in
  let ex := export_model w (snd s5) in
  let r := full_reconstruction w config fs in
  (fst s1 = false →
     r = (aborted [] "Feature extraction failed", snd s1)) ∧
  (fst s1 = true → fst s2 = false →
     r = (aborted ["feature_extraction"] "Feature matching failed", snd s2)) ∧
  (fst s1 = true → fst s2 = true → fst s3 = false →
     r = (aborted ["feature_extraction"; "feature_matching"]
            "Sparse reconstruction failed", snd s3)) ∧
  (fst s1 = true → fst s2 = true → fst s3 = true → fst s4 = false →
     r = (aborted ["feature_extraction"; "feature_matching"; "sparse_reconstruction"]
            "Image undistortion failed", snd s4)) ∧
  (fst s1 = true → fst s2 = true → fst s3 = true → fst s4 = true → fst s5 = false →
     Colmap.errors (fst r) = ["Dense reconstruction failed"] ∧
     Colmap.steps_completed (fst r)
       = ["feature_extraction"; "feature_matching"; "sparse_reconstruction";
          "image_undistortion"] ∧
     Colmap.success (fst r) = bool_decide (is_Some (fst ex)) ∧
     snd r = snd ex).
Proof.
  cbv zeta.
  unfold full_reconstruction, Colmap.full_reconstruction.
  fold feature_extraction feature_matching sparse_reconstruction
       image_undistortion dense_reconstruction export_model.
  destruct (feature_extraction w config fs) as [ok1 fs1]; simpl.
  destruct (feature_matching w config fs1) as [ok2 fs2]; simpl.
  destruct (sparse_reconstruction w config fs2) as [ok3 fs3]; simpl.
  destruct (image_undistortion w fs3) as [ok4 fs4]; simpl.
  destruct (dense_reconstruction w config fs4) as [ok5 fs5]; simpl.
  destruct (export_model w fs5) as [[p|] fs6]; simpl;
    destruct ok1, ok2, ok3, ok4, ok5; simpl; repeat split; intros; try discriminate;
    reflexivity.
Qed.

End ColmapProperties.

(** The statement of C4 as it is written: after a failed dense stage the
    result is successful whenever the sparse model exists at export time. *)
Definition dense_failure_always_recovers : Prop :=
  ∀ float_str run_command w config fs,
    let s1 := Colmap.feature_extraction float_str run_command w config fs in
    let s2 := Colmap.feature_matching float_str run_command w config (snd s1) in
    let s3 := Colmap.sparse_reconstruction float_str run_command w config (snd s2) in
    let s4 := Colmap.image_undistortion run_command w (snd s3) in
    let s5 := Colmap.dense_reconstruction float_str run_command w config (snd s4) in
    let r := Colmap.full_reconstruction float_str run_command w config fs in
    fst s1 = true → fst s2 = true → fst s3 = true → fst s4 = true → fst s5 = false →
    exists_ (snd s5) (path_join (Colmap.sparse_path w) "0") = true →
    Colmap.success (fst r) = true.

(** C4 (counterexample). Stereo matching fails, there is no fused cloud,
    the sparse model directory exists, and the [model_converter] process
    fails: [export_model] returns [None] and [success] stays false. *)
Lemma dense_failure_without_export_fails : ¬ dense_failure_always_recovers.
Proof.
  intros H.
  specialize (H Scenario.render_float
                (Scenario.engine false false Scenario.no_cloud Scenario.no_cloud)
                Scenario.wrapper0 (Some Config.COLMAP_CONFIG) Scenario.workspace0).
  cbv zeta in H.
  assert (Hfalse : false = true); [| discriminate Hfalse].
  apply H; vm_compute; reflexivity.
Qed.

(** The amended statement at that same run: the dense error is recorded,
    four steps are completed, and [success] is false because the export
    gave no path. *)
Lemma full_reconstruction_failure_policy_witness :
  let run := Scenario.engine false false Scenario.no_cloud Scenario.no_cloud in
  let r := Colmap.full_reconstruction Scenario.render_float run Scenario.wrapper0
             (Some Config.COLMAP_CONFIG) Scenario.workspace0 in
  Colmap.errors (fst r) = ["Dense reconstruction failed"] ∧
  Colmap.success (fst r) = false.
Proof.
  cbv zeta.
  pose proof (full_reconstruction_failure_policy Scenario.render_float
                (Scenario.engine false false Scenario.no_cloud Scenario.no_cloud)
                Scenario.wrapper0 (Some Config.COLMAP_CONFIG) Scenario.workspace0) as H.
  cbv zeta in H.
  destruct H as (_ & _ & _ & _ & H).
  destruct H as (He & _ & Hs & _); [vm_compute; reflexivity ..|].
  split; [exact He|].
  rewrite Hs. vm_compute. reflexivity.
Defined.

(** ** Voxel downsampling *)

Section UniqueRows.

Definition rlt (a b : Np.row) : Prop := Np.row_compare a b = Lt.

Lemma row_compare_antisym a b : Np.row_compare a b = CompOpp (Np.row_compare b a).
Proof.
  destruct a as [[a1 a2] a3], b as [[b1 b2] b3]; simpl.
  rewrite (Z.compare_antisym b1 a1), (Z.compare_antisym b2 a2), (Z.compare_antisym b3 a3).
  destruct (b1 ?= a1)%Z, (b2 ?= a2)%Z, (b3 ?= a3)%Z; reflexivity.
Qed.

Lemma row_compare_eq a b : Np.row_compare a b = Eq → a = b.
Proof.
  destruct a as [[a1 a2] a3], b as [[b1 b2] b3]; simpl.
  destruct (Z.compare_spec a1 b1); try discriminate.
  destruct (Z.compare_spec a2 b2); try discriminate.
  destruct (Z.compare_spec a3 b3); try discriminate.
  intros _. congruence.
Qed.

Lemma rlt_trans a b c : rlt a b → rlt b c → rlt a c.
Proof.
  unfold rlt.
  destruct a as [[a1 a2] a3], b as [[b1 b2] b3], c as [[c1 c2] c3]; simpl.
  destruct (Z.compare_spec a1 b1), (Z.compare_spec b1 c1); try discriminate;
  destruct (Z.compare_spec a2 b2), (Z.compare_spec b2 c2); try discriminate;
  destruct (Z.compare_spec a3 b3), (Z.compare_spec b3 c3); try discriminate;
  intros _ _; subst;
  repeat match goal with
         | |- context [(?x ?= ?y)%Z] => destruct (Z.compare_spec x y)
         end; try reflexivity; lia.
Qed.

Lemma rlt_irrefl a : ¬ rlt a a.
Proof.
  unfold rlt. destruct a as [[a1 a2] a3]; simpl.
  rewrite !Z.compare_refl. discriminate.
Qed.

Context {A : Type}.
Implicit Types (l acc : list (Np.row * A)) (k : Np.row) (a : A).

(** Sorted strictly by row. *)
Definition row_sorted l : Prop := StronglySorted rlt (map fst l).

Definition step acc (ka : Np.row * A) := Np.ins (fst ka) (snd ka) acc.

Lemma ins_elem k a l x : In x (Np.ins k a l) → x = (k, a) ∨ In x l.
Proof.
  induction l as [|[k' a'] l IH]; simpl.
  - intros [<-|[]]. by left.
  - destruct (Np.row_compare k k'); simpl.
    + tauto.
    + intros [<-|H]; tauto.
    + intros [<-|H]; [tauto|]. destruct (IH H); tauto.
Qed.

Lemma ins_keeps k a l x : In x l → In x (Np.ins k a l).
Proof.
  induction l as [|[k' a'] l IH]; simpl; [tauto|].
  destruct (Np.row_compare k k'); simpl; tauto.
Qed.

Lemma ins_has_key k a l : In k (map fst (Np.ins k a l)).
Proof.
  induction l as [|[k' a'] l IH]; simpl; [tauto|].
  destruct (Np.row_compare k k') eqn:Hc; simpl.
  - apply row_compare_eq in Hc as ->. tauto.
  - tauto.
  - tauto.
Qed.

Lemma ins_length k a l : length (Np.ins k a l) ≤ S (length l).
Proof.
  induction l as [|[k' a'] l IH]; simpl; [lia|].
  destruct (Np.row_compare k k'); simpl; lia.
Qed.

Lemma ins_sorted k a l : row_sorted l → row_sorted (Np.ins k a l).
Proof.
  unfold row_sorted.
  induction l as [|[k' a'] l IH]; simpl; intros Hs.
  - repeat constructor.
  - apply StronglySorted_inv in Hs as [Hs Hall].
    destruct (Np.row_compare k k') eqn:Hc; simpl.
    + by constructor.
    + constructor; [by constructor|].
      constructor; [exact Hc|].
      eapply Forall_impl; [exact Hall|]. intros y Hy. by eapply rlt_trans.
    + constructor; [auto|].
      apply List.Forall_forall. intros y Hy.
      apply in_map_iff in Hy as [[k2 a2] [<- Hin]].
      apply ins_elem in Hin as [[= -> ->]|Hin]; simpl.
      * unfold rlt. rewrite row_compare_antisym, Hc. reflexivity.
      * rewrite List.Forall_forall in Hall. apply Hall.
        apply in_map_iff. by exists (k2, a2).
Qed.

Lemma ins_at_end k a l :
  Forall (λ x, rlt (fst x) k) l → Np.ins k a l = l ++ [(k, a)].
Proof.
  induction 1 as [|[k' a'] l Hlt _ IH]; simpl; [done|].
  simpl in Hlt. unfold rlt in Hlt.
  rewrite row_compare_antisym, Hlt. simpl. by rewrite IH.
Qed.

Lemma fold_elem l acc x : In x (fold_left step l acc) → In x acc ∨ In x l.
Proof.
  revert acc. induction l as [|[k a] l IH]; simpl; intros acc H; [by left|].
  destruct (IH _ H) as [Hin|Hin]; [|tauto].
  apply ins_elem in Hin as [->|?]; tauto.
Qed.

Lemma fold_has_keys l acc k :
  In k (map fst acc) ∨ In k (map fst l) → In k (map fst (fold_left step l acc)).
Proof.
  revert acc. induction l as [|[k' a'] l IH]; simpl; intros acc H.
  - tauto.
  - apply IH. destruct H as [H|[<-|H]].
    + left. apply in_map_iff in H as [x [<- Hx]].
      apply in_map_iff. exists x. split; [done|]. by apply ins_keeps.
    + left. apply ins_has_key.
    + by right.
Qed.

Lemma fold_length l acc : length (fold_left step l acc) ≤ length acc + length l.
Proof.
  revert acc. induction l as [|[k a] l IH]; simpl; intros acc; [lia|].
  specialize (IH (Np.ins k a acc)). pose proof (ins_length k a acc).
  unfold step at 2. simpl. lia.
Qed.

Lemma fold_sorted l acc : row_sorted acc → row_sorted (fold_left step l acc).
Proof.
  revert acc. induction l as [|[k a] l IH]; simpl; intros acc H; [done|].
  apply IH. by apply ins_sorted.
Qed.

Lemma sorted_app_l (l1 l2 : list Np.row) :
  StronglySorted rlt (l1 ++ l2) → StronglySorted rlt l1.
Proof.
  induction l1 as [|y l1 IH]; simpl; intros Hs; [constructor|].
  apply StronglySorted_inv in Hs as [Hs Hall]. constructor; [auto|].
  apply Forall_app in Hall. tauto.
Qed.

Lemma sorted_before_last (l1 : list Np.row) k :
  StronglySorted rlt (l1 ++ [k]) → Forall (λ y, rlt y k) l1.
Proof.
  induction l1 as [|y l1 IH]; simpl; intros Hs; [constructor|].
  apply StronglySorted_inv in Hs as [Hs Hall]. constructor; [|auto].
  apply Forall_app in Hall as [_ Hall]. by apply Forall_inv in Hall.
Qed.

Lemma fold_of_sorted l acc :
  row_sorted (acc ++ l) → fold_left step l acc = acc ++ l.
Proof.
  revert acc. induction l as [|[k a] l IH]; simpl; intros acc Hs.
  - by rewrite app_nil_r.
  - unfold step at 2. simpl. rewrite ins_at_end.
    + rewrite IH; rewrite <- app_assoc; [done|]. exact Hs.
    + unfold row_sorted in Hs. rewrite map_app in Hs. simpl in Hs.
      change (map fst acc ++ k :: map fst l)
        with (map fst acc ++ [k] ++ map fst l) in Hs.
      rewrite app_assoc in Hs.
      apply sorted_app_l, sorted_before_last in Hs.
      rewrite List.Forall_forall in Hs. apply List.Forall_forall. intros x Hx.
      apply Hs, in_map_iff. by exists x.
Qed.

Lemma first_occurrences_elem l x : In x (Np.first_occurrences l) → In x l.
Proof.
  intros H. apply fold_elem in H as [[]|H]. done.
Qed.

Lemma first_occurrences_keys l k :
  In k (map fst l) → In k (map fst (Np.first_occurrences l)).
Proof. intros H. apply fold_has_keys. by right. Qed.

Lemma first_occurrences_length l : length (Np.first_occurrences l) ≤ length l.
Proof. apply (fold_length l []). Qed.

Lemma first_occurrences_sorted l : row_sorted (Np.first_occurrences l).
Proof. apply fold_sorted. constructor. Qed.

Lemma first_occurrences_of_sorted l : row_sorted l → Np.first_occurrences l = l.
Proof. intros H. by apply (fold_of_sorted l []). Qed.

End UniqueRows.

Section Downsample.
Import Processor.

Lemma sorted_NoDup (l : list Np.row) : StronglySorted rlt l → NoDup l.
Proof.
  induction 1 as [|k l _ IH Hall]; constructor; [|done].
  intros Hin%list_elem_of_In. rewrite List.Forall_forall in Hall.
  by apply (rlt_irrefl k), Hall.
Qed.

Lemma first_occurrences_natural {A B} (f : A → B) (l : list (Np.row * A)) :
  Np.first_occurrences (map (λ x, (fst x, f (snd x))) l)
  = map (λ x, (fst x, f (snd x))) (Np.first_occurrences l).
Proof.
  unfold Np.first_occurrences.
  change (@nil (Np.row * B)) with (map (λ x : Np.row * A, (fst x, f (snd x))) []).
  generalize (@nil (Np.row * A)) as acc.
  induction l as [|[k a] l IH]; simpl; intros acc; [done|].
  rewrite <- IH. f_equal.
  induction acc as [|[k' a'] acc IHacc]; simpl; [done|].
  destruct (Np.row_compare k k'); simpl; [done | done | by rewrite IHacc].
Qed.

Lemma take_indices_nth {A} (l : list A) (idx : list nat) (d : A) :
  Forall (λ i, i < length l) idx →
  Np.take_indices l idx = Some (map (λ i, nth i l d) idx).
Proof.
  unfold Np.take_indices.
  induction 1 as [|i idx Hi _ IH]; simpl; [done|].
  rewrite IH. simpl.
  destruct (l !! i) eqn:Hl.
  - simpl. do 2 f_equal. symmetry. by apply nth_lookup_Some with (d := d) in Hl.
  - apply lookup_ge_None in Hl. lia.
Qed.

Lemma take_indices_seq {A} (l1 l2 : list A) :
  Np.take_indices (l1 ++ l2) (seq (length l1) (length l2)) = Some l2.
Proof.
  unfold Np.take_indices.
  revert l1. induction l2 as [|x l2 IH]; simpl; intros l1; [done|].
  rewrite lookup_app_r, Nat.sub_diag by lia. simpl.
  specialize (IH (l1 ++ [x])). rewrite <- app_assoc, length_app in IH. simpl in IH.
  rewrite Nat.add_1_r in IH. rewrite IH. done.
Qed.

Lemma take_indices_all {A} (l : list A) :
  Np.take_indices l (seq 0 (length l)) = Some l.
Proof. apply (take_indices_seq [] l). Qed.

Lemma take_indices_length {A} (l l' : list A) idx :
  Np.take_indices l idx = Some l' → length l' = length idx.
Proof. intros H. symmetry. by eapply length_mapM. Qed.

Lemma zip_as_indexed {A B} (keys : list A) (l1 l2 : list B) (d : B) :
  zip keys l2
  = map (λ x, (fst x, nth (snd x) (l1 ++ l2) d)) (zip keys (seq (length l1) (length l2))).
Proof.
  revert keys l1. induction l2 as [|b l2 IH]; intros keys l1.
  - destruct keys; done.
  - destruct keys as [|k keys]; [done|]. simpl.
    rewrite app_nth2, Nat.sub_diag by lia. simpl. f_equal.
    specialize (IH keys (l1 ++ [b])).
    rewrite <- app_assoc, length_app in IH. simpl in IH.
    by rewrite Nat.add_1_r in IH.
Qed.

Lemma zip_seq_bound {A} (keys : list A) n m x :
  In x (zip keys (seq n m)) → snd x < n + m.
Proof.
  revert keys n. induction m as [|m IH]; intros keys n; simpl.
  - destruct keys; simpl; tauto.
  - destruct keys as [|k keys]; simpl; [tauto|].
    intros [<-|H]; simpl; [lia|]. apply IH in H. lia.
Qed.

Lemma map_fst_zip {A B} (l1 : list A) (l2 : list B) :
  length l1 = length l2 → map fst (zip l1 l2) = l1.
Proof.
  revert l2. induction l1 as [|a l1 IH]; intros [|b l2]; simpl; try done.
  intros [= H]. by rewrite IH.
Qed.

Lemma map_snd_zip {A B} (l1 : list A) (l2 : list B) :
  length l1 = length l2 → map snd (zip l1 l2) = l2.
Proof.
  revert l2. induction l1 as [|a l1 IH]; intros [|b l2]; simpl; try done.
  intros [= H]. by rewrite IH.
Qed.

(** Indexing with the indices of [np.unique] keeps, for each distinct row
    in sorted order, the entry at its first occurrence. *)
Lemma take_unique_index {B} (keys : list Np.row) (l : list B) :
  length l = length keys →
  Np.take_indices l (Np.unique_index keys)
  = Some (map snd (Np.first_occurrences (zip keys l))).
Proof.
  intros Hlen. destruct l as [|d l0] eqn:El.
  { destruct keys; [done | discriminate]. }
  rewrite <- El in *. clear El l0.
  unfold Np.unique_index.
  rewrite (take_indices_nth _ _ d).
  - f_equal. rewrite (zip_as_indexed keys [] l d). simpl.
    rewrite (first_occurrences_natural (λ i, nth i l d)).
    rewrite Hlen, !map_map. done.
  - apply List.Forall_forall. intros i Hi.
    apply in_map_iff in Hi as [x [<- Hx]].
    apply first_occurrences_elem, zip_seq_bound in Hx. lia.
Qed.

(** Rows that are already strictly sorted are their own first occurrences. *)
Lemma unique_index_sorted (keys : list Np.row) :
  StronglySorted rlt keys → Np.unique_index keys = seq 0 (length keys).
Proof.
  intros Hs. unfold Np.unique_index.
  rewrite first_occurrences_of_sorted.
  - apply map_snd_zip. by rewrite length_seq.
  - unfold row_sorted. rewrite map_fst_zip; [done | by rewrite length_seq].
Qed.

Definition keyed (v : Q) (pts : list point) : list (Np.row * point) :=
  zip (map (voxel_index v) pts) pts.

Lemma keyed_consistent v pts x : In x (keyed v pts) → fst x = voxel_index v (snd x).
Proof.
  unfold keyed. induction pts as [|q pts IH]; simpl; [tauto|].
  intros [<-|H]; [done | auto].
Qed.

Lemma keyed_snd v pts x : In x (keyed v pts) → In (snd x) pts.
Proof.
  unfold keyed. induction pts as [|q pts IH]; simpl; [tauto|].
  intros [<-|H]; simpl; auto.
Qed.

Lemma keyed_fst v pts : map fst (keyed v pts) = map (voxel_index v) pts.
Proof. unfold keyed. apply map_fst_zip. by rewrite length_map. Qed.

(** The points kept by [downsample_point_cloud]. *)
Definition kept (v : Q) (pts : list point) : list point :=
  map snd (Np.first_occurrences (keyed v pts)).

Lemma kept_keys v pts :
  map (voxel_index v) (kept v pts) = map fst (Np.first_occurrences (keyed v pts)).
Proof.
  unfold kept. rewrite map_map. apply map_ext_in.
  intros x Hx. symmetry. apply (keyed_consistent v pts). by apply first_occurrences_elem.
Qed.

Lemma kept_sorted v pts : StronglySorted rlt (map (voxel_index v) (kept v pts)).
Proof. rewrite kept_keys. apply first_occurrences_sorted. Qed.

Definition cloud_wf (c : cloud) : Prop :=
  match colors c with
  | Some cs => length cs = length (points c)
  | None => True
  end.

(** The colours that go with the kept points. *)
Definition kept_colors (v : Q) (c : cloud) : option (list rgb) :=
  (λ cs, map snd (Np.first_occurrences (zip (map (voxel_index v) (points c)) cs)))
    <$> colors c.

Definition downsampled (v : Q) (c : cloud) : cloud :=
  {| points := kept v (points c); colors := kept_colors v c |}.

Lemma downsample_point_cloud_state v p c :
  point_cloud p = Some c → cloud_wf c →
  snd (downsample_point_cloud v p) = set_cloud p (downsampled v c).
Proof.
  intros Hc Hwf. unfold downsample_point_cloud. rewrite Hc.
  rewrite take_unique_index by (by rewrite length_map).
  unfold cloud_wf in Hwf. unfold downsampled, kept_colors.
  destruct (colors c) as [cs|] eqn:Hcs; simpl.
  - rewrite take_unique_index by (by rewrite length_map). simpl.
    unfold set_colors, set_points. simpl. done.
  - unfold set_points. rewrite Hcs. done.
Qed.

Lemma downsampled_wf v c : cloud_wf c → cloud_wf (downsampled v c).
Proof.
  unfold cloud_wf, downsampled, kept_colors, kept, keyed. simpl.
  destruct (colors c) as [cs|]; simpl; [|done].
  intros Hlen.
  pose proof (take_unique_index (map (voxel_index v) (points c)) cs) as H1.
  pose proof (take_unique_index (map (voxel_index v) (points c)) (points c)) as H2.
  rewrite length_map in H1, H2.
  apply take_indices_length in H1; [|done]. apply take_indices_length in H2; [|done].
  congruence.
Qed.

Lemma downsampled_fixpoint v c :
  cloud_wf c → downsampled v (downsampled v c) = downsampled v c.
Proof.
  intros Hwf.
  pose proof (kept_sorted v (points c)) as Hs.
  pose proof (downsampled_wf v c Hwf) as Hwf'.
  assert (Hfix : ∀ {B} (l : list B),
             length l = length (kept v (points c)) →
             map snd (Np.first_occurrences
                        (zip (map (voxel_index v) (kept v (points c))) l)) = l).
  { intros B l Hl.
    pose proof (take_unique_index (map (voxel_index v) (kept v (points c))) l) as H.
    rewrite length_map in H. specialize (H Hl).
    rewrite unique_index_sorted in H by done.
    rewrite length_map, <- Hl, take_indices_all in H. by injection H. }
  unfold downsampled at 1. unfold kept_colors, kept at 1. unfold keyed. simpl.
  rewrite Hfix by done.
  unfold cloud_wf in Hwf'. simpl in Hwf'.
  destruct (kept_colors v c) as [cs|] eqn:Hcs; simpl.
  - rewrite Hfix by done. unfold downsampled. by rewrite Hcs.
  - unfold downsampled. by rewrite Hcs.
Qed.

(** C5. For a loaded cloud [c] (colours, when present, one per point) and a
    voxel size [v > 0], [downsample_point_cloud] leaves a cloud with at most
    as many points; the points left are points of [c], no two of them have
    the same voxel index, every voxel index of [c] is still represented, and
    downsampling again with the same [v] changes nothing. *)
Theorem downsample_point_cloud_bound_idempotent (v : Q) (p : processor) (c : cloud) :
  (0 < v)%Q → point_cloud p = Some c → cloud_wf c →
  let p1 := snd (downsample_point_cloud v p) in
  ∃ c1, point_cloud p1 = Some c1 ∧
        length (points c1) ≤ length (points c) ∧
        (∀ q, In q (points c1) → In q (points c)) ∧
        NoDup (map (voxel_index v) (points c1)) ∧
        (∀ q, In q (points c) →
              In (voxel_index v q) (map (voxel_index v) (points c1))) ∧
        snd (downsample_point_cloud v p1) = p1.
Proof.
  intros _ Hc Hwf. cbv zeta.
  rewrite (downsample_point_cloud_state v p c Hc Hwf).
  exists (downsampled v c). split; [done|]. simpl.
  split; [|split; [|split; [|split]]].
  - unfold kept. rewrite length_map.
    etrans; [apply first_occurrences_length|].
    unfold keyed. rewrite length_zip, length_map. lia.
  - intros q Hq. unfold kept in Hq.
    apply in_map_iff in Hq as [x [<- Hx]].
    by apply (keyed_snd v), first_occurrences_elem.
  - apply sorted_NoDup, kept_sorted.
  - intros q Hq. rewrite kept_keys.
    apply first_occurrences_keys. rewrite keyed_fst. by apply in_map.
  - rewrite (downsample_point_cloud_state v _ (downsampled v c));
      [| done | by apply downsampled_wf].
    rewrite downsampled_fixpoint by done. done.
Qed.

End Downsample.

(** Five points, three voxels of size 1/50: the first point of each voxel
    is kept, in the order of the voxel indices. *)
Definition cloud5 : cloud :=
  {| points := [ (1 # 100, 0, 0); (3 # 100, 0, 0); (15 # 1000, 0, 0);
                 (-(1 # 100), 0, 0); (35 # 1000, 0, 0) ]%Q;
     colors := Some [ (1, 1, 1); (2, 2, 2); (3, 3, 3); (4, 4, 4); (5, 5, 5) ]%Z |}.

Example downsample_cloud5 :
  Processor.point_cloud
    (snd (Processor.downsample_point_cloud (1 # 50) (Processor.set_cloud (Processor.init "fused.ply") cloud5)))
  = Some {| points := [ (-(1 # 100), 0, 0); (1 # 100, 0, 0); (3 # 100, 0, 0) ]%Q;
            colors := Some [ (4, 4, 4); (1, 1, 1); (2, 2, 2) ]%Z |}.
Proof. vm_compute. reflexivity. Qed.

Lemma downsample_point_cloud_bound_idempotent_witness :
  let p := Processor.set_cloud (Processor.init "fused.ply") cloud5 in
  let p1 := snd (Processor.downsample_point_cloud (1 # 50) p) in
  ∃ c1, Processor.point_cloud p1 = Some c1 ∧
        length (points c1) ≤ 5 ∧
        snd (Processor.downsample_point_cloud (1 # 50) p1) = p1.
Proof.
  cbv zeta.
  destruct (downsample_point_cloud_bound_idempotent (1 # 50)
              (Processor.set_cloud (Processor.init "fused.ply") cloud5) cloud5)
    as (c1 & H1 & H2 & _ & _ & _ & H3).
  - reflexivity.
  - reflexivity.
  - reflexivity.
  - exists c1. split; [exact H1|]. split; [exact H2 | exact H3].
Defined.

(** ** Outlier removal *)

Section Outliers.
Import Processor.

Variable fsqrt : Q → Q.

(** A standard deviation is never negative and never [-inf]. *)
Definition nonneg (a : Np.float) : Prop :=
  match a with
  | Np.Fin x => (0 <= x)%Q
  | Np.PInf | Np.NaN => True
  | Np.NInf => False
  end.

Lemma sqrt_nonneg a : (∀ x, (0 <= x)%Q → (0 <= fsqrt x)%Q) → nonneg (Np.sqrt fsqrt a).
Proof.
  intros H. destruct a as [x| | |]; simpl; try done.
  unfold Np.sgn. destruct (0 ?= x)%Q eqn:Hc; simpl; [| |done].
  - apply H. apply Qeq_alt in Hc. rewrite <- Hc. apply Qle_refl.
  - apply H. apply Qlt_alt in Hc. by apply Qlt_le_weak.
Qed.

Lemma lt_Fin x y : Np.lt (Np.Fin x) (Np.Fin y) = true ↔ (x < y)%Q.
Proof.
  simpl. rewrite Qlt_alt. destruct (x ?= y)%Q; split; congruence.
Qed.

(** The discard threshold [mean + ratio * std] does not decrease when the
    ratio grows, so whatever is below it stays below it. *)
Lemma below_threshold_mono (a m s : Np.float) (r1 r2 : Q) :
  nonneg s → (r1 <= r2)%Q →
  Np.lt a (Np.add m (Np.mul (Np.Fin r1) s)) = true →
  Np.lt a (Np.add m (Np.mul (Np.Fin r2) s)) = true.
Proof.
  intros Hs Hr.
  destruct s as [x| | |]; simpl in Hs; try done.
  - assert (Hx : (r1 * x <= r2 * x)%Q) by (by apply Qmult_le_compat_r).
    destruct m as [y| | |], a as [z| | |]; simpl; try done.
    fold (Np.lt (Np.Fin z) (Np.Fin (Qred (y + Qred (r1 * x))))).
    fold (Np.lt (Np.Fin z) (Np.Fin (Qred (y + Qred (r2 * x))))).
    rewrite !lt_Fin, !Qred_correct. intros Hlt. eapply Qlt_le_trans; [exact Hlt|].
    apply Qplus_le_compat; [apply Qle_refl | exact Hx].
  - simpl. unfold Np.sgn.
    destruct (0 ?= r1)%Q eqn:H1.
    + destruct m, a; simpl; discriminate.
    + apply Qlt_alt in H1.
      assert (H2 : (0 ?= r2)%Q = Lt).
      { apply Qlt_alt. by eapply Qlt_le_trans. }
      by rewrite H2.
    + destruct m, a; simpl; discriminate.
Qed.

Lemma lookup_map {A B} (f : A → B) (l : list A) (i : nat) :
  map f l !! i = f <$> (l !! i).
Proof. exact (list_lookup_fmap f l i). Qed.

Hypothesis fsqrt_nonneg : ∀ x, (0 <= x)%Q → (0 <= fsqrt x)%Q.

Lemma statistical_mask_mono pts k r1 r2 i :
  (r1 <= r2)%Q →
  statistical_mask fsqrt pts k r1 !! i = Some true →
  statistical_mask fsqrt pts k r2 !! i = Some true.
Proof.
  intros Hr. unfold statistical_mask.
  set (avg := avg_distances fsqrt pts k).
  rewrite !lookup_map.
  destruct (avg !! i) as [a|]; simpl; [|done].
  intros [= H]. f_equal. unfold threshold in *.
  eapply below_threshold_mono; [| exact Hr | exact H].
  by apply sqrt_nonneg.
Qed.

(** What a boolean mask keeps. *)
Definition masked {A} (l : list A) (mask : list bool) : list A :=
  map fst (filter (λ xb, snd xb = true) (zip l mask)).

Lemma masked_cons {A} (x : A) l b mask :
  masked (x :: l) (b :: mask) = if b then x :: masked l mask else masked l mask.
Proof.
  unfold masked. simpl. rewrite filter_cons.
  by destruct b.
Qed.

Lemma take_mask_masked {A} (l : list A) mask :
  length mask = length l → Np.take_mask l mask = Some (masked l mask).
Proof. intros H. unfold Np.take_mask. by rewrite decide_True. Qed.

Lemma masked_sublist {A} (l : list A) m1 m2 :
  length m1 = length l → length m2 = length l →
  (∀ i, m1 !! i = Some true → m2 !! i = Some true) →
  sublist (masked l m1) (masked l m2).
Proof.
  revert m1 m2. induction l as [|x l IH]; intros [|b1 m1] [|b2 m2]; simpl; try done.
  intros [= H1] [= H2] Himp. rewrite !masked_cons.
  specialize (IH m1 m2 H1 H2 (λ i, Himp (S i))).
  destruct b1, b2.
  - by constructor.
  - specialize (Himp 0 eq_refl). discriminate.
  - by constructor.
  - done.
Qed.

Lemma masked_all_false {A} (l : list A) mask :
  Forall (λ b, b = false) mask → masked l mask = [].
Proof.
  intros H. revert l. induction H as [|b mask -> _ IH]; intros [|x l]; try done.
  rewrite masked_cons. apply IH.
Qed.

Definition with_ratio (kw : kwargs) (r : Q) : kwargs :=
  {| nb_neighbors := nb_neighbors kw; std_ratio := Some r;
     nb_points := nb_points kw; radius_ := radius_ kw |}.

(** The points left by the statistical strategy. *)
Lemma remove_outliers_statistical_points (kw : kwargs) (p : processor) (c : cloud) :
  point_cloud p = Some c →
  let k := default 20 (nb_neighbors kw) in
  let r := default 2%Q (std_ratio kw) in
  ∃ c1, point_cloud (snd (remove_outliers fsqrt Statistical kw p)) = Some c1 ∧
        points c1 = if k =? 0 then points c
                    else masked (points c) (statistical_mask fsqrt (points c) k r).
Proof.
  intros Hc. cbv zeta.
  assert (H : points <$> point_cloud (snd (remove_outliers fsqrt Statistical kw p))
              = Some (if default 20 (nb_neighbors kw) =? 0 then points c
                      else masked (points c)
                             (statistical_mask fsqrt (points c)
                                (default 20 (nb_neighbors kw))
                                (default 2%Q (std_ratio kw))))).
  { unfold remove_outliers. rewrite Hc. unfold outlier_mask.
    destruct (default 20 (nb_neighbors kw) =? 0) eqn:Hk.
    { simpl. by rewrite Hc. }
    rewrite take_mask_masked
      by (unfold statistical_mask, avg_distances; by rewrite !length_map).
    destruct (colors c) as [cs|]; simpl; [|done].
    by destruct (Np.take_mask cs _). }
  apply fmap_Some in H as (c1 & H1 & H2). by exists c1.
Qed.

(** C6. For every loaded cloud, every neighbour count and every pair of
    ratios [r1 <= r2]: a point that statistical outlier removal keeps with
    [std_ratio = r1] it also keeps with [std_ratio = r2], and the points left
    in the cloud with [r1] are a sub-list of those left with [r2]. *)
Theorem remove_outliers_std_ratio_monotone (kw : kwargs) (p : processor) (c : cloud)
    (r1 r2 : Q) :
  (r1 <= r2)%Q → point_cloud p = Some c →
  let k := default 20 (nb_neighbors kw) in
  (∀ i, statistical_mask fsqrt (points c) k r1 !! i = Some true →
        statistical_mask fsqrt (points c) k r2 !! i = Some true) ∧
  ∃ c1 c2,
    point_cloud (snd (remove_outliers fsqrt Statistical (with_ratio kw r1) p)) = Some c1 ∧
    point_cloud (snd (remove_outliers fsqrt Statistical (with_ratio kw r2) p)) = Some c2 ∧
    sublist (points c1) (points c2).
Proof.
  intros Hr Hc. cbv zeta.
  assert (Hmono := λ i, statistical_mask_mono (points c) (default 20 (nb_neighbors kw))
                          r1 r2 i Hr).
  split; [exact Hmono|].
  destruct (remove_outliers_statistical_points (with_ratio kw r1) p c Hc) as (c1 & H1 & P1).
  destruct (remove_outliers_statistical_points (with_ratio kw r2) p c Hc) as (c2 & H2 & P2).
  exists c1, c2. split; [exact H1|]. split; [exact H2|].
  rewrite P1, P2. simpl.
  destruct (default 20 (nb_neighbors kw) =? 0); [done|].
  apply masked_sublist; [| | exact Hmono];
    unfold statistical_mask, avg_distances; by rewrite !length_map.
Qed.

(** C7, the part that holds. A non-empty cloud with fewer points than
    [nb_points] loses every point to the radius strategy, which reports
    success. *)
Lemma remove_outliers_radius_small (kw : kwargs) (p : processor) (c : cloud) :
  point_cloud p = Some c → colors c = None →
  0 < length (points c) →
  (Z.of_nat (length (points c)) < default 16%Z (nb_points kw))%Z →
  ∃ c1, remove_outliers fsqrt Radius kw p = (true, set_cloud p c1) ∧ points c1 = [].
Proof.
  intros Hc Hcol Hpos Hsmall.
  unfold remove_outliers. rewrite Hc. simpl.
  assert (Hmask : Forall (λ b, b = false)
            (radius_mask fsqrt (points c) (default 16%Z (nb_points kw))
               (default (5 # 100)%Q (radius_ kw)))).
  { unfold radius_mask. apply List.Forall_forall. intros b Hb.
    apply in_map_iff in Hb as [q [<- _]].
    apply Z.leb_gt. unfold ball_count.
    pose proof (length_filter
                  (λ q0, Qle_bool (dist fsqrt q q0) (default (5 # 100)%Q (radius_ kw)) = true)
                  (points c)). lia. }
  rewrite take_mask_masked by (unfold radius_mask; by rewrite length_map).
  rewrite Hcol. rewrite masked_all_false by done.
  destruct (length (points c)) eqn:Hn; [lia|]. simpl.
  eexists. split; reflexivity.
Qed.

End Outliers.

(** C7 (the failing input). On a loaded cloud with no points both
    strategies report failure: the percentage in the log line divides by
    the original size, the [ZeroDivisionError] is caught, and [False] is
    returned. *)
Theorem remove_outliers_empty_cloud_reports_failure
    (fsqrt : Q → Q) (m : Processor.method) (kw : Processor.kwargs)
    (p : Processor.processor) (c : cloud) :
  Processor.point_cloud p = Some c → points c = [] →
  fst (Processor.remove_outliers fsqrt m kw p) = false.
Proof.
  intros Hc Hpts. unfold Processor.remove_outliers. rewrite Hc, Hpts.
  destruct (Processor.outlier_mask fsqrt m kw []) as [mask|]; [|done].
  destruct (Np.take_mask [] mask); [|done].
  destruct (colors c) as [cs|]; [|done].
  by destruct (Np.take_mask cs mask).
Qed.

Lemma remove_outliers_empty_cloud_reports_failure_witness :
  let p := Processor.set_cloud (Processor.init "fused.ply") Scenario.no_cloud in
  fst (Processor.remove_outliers (λ x, x) Processor.Statistical Processor.no_kwargs p) = false ∧
  fst (Processor.remove_outliers (λ x, x) Processor.Radius Processor.no_kwargs p) = false.
Proof.
  split;
    apply (remove_outliers_empty_cloud_reports_failure _ _ _ _ Scenario.no_cloud);
    reflexivity.
Defined.

(** The square root of the examples is never negative. *)
Lemma sqrt_approx_nonneg x : (0 <= x)%Q → (0 <= Scenario.sqrt_approx x)%Q.
Proof.
  intros _. unfold Scenario.sqrt_approx. rewrite Qred_correct. unfold Qle. simpl.
  rewrite Z.mul_1_r. apply Z.sqrt_nonneg.
Qed.

Example remove_outliers_few_points :
  let p := Processor.set_cloud (Processor.init "fused.ply")
             {| points := [(0, 0, 0); (1, 0, 0); (5, 0, 0)]%Q; colors := None |} in
  Processor.remove_outliers Scenario.sqrt_approx Processor.Statistical Processor.no_kwargs p
  = (true, Processor.set_cloud p Scenario.no_cloud).
Proof. vm_compute. reflexivity. Qed.

Lemma remove_outliers_std_ratio_monotone_witness :
  let p := Processor.set_cloud (Processor.init "fused.ply") Scenario.line25 in
  ∃ c1 c2,
    Processor.point_cloud
      (snd (Processor.remove_outliers Scenario.sqrt_approx Processor.Statistical
              (with_ratio Processor.no_kwargs 1) p)) = Some c1 ∧
    Processor.point_cloud
      (snd (Processor.remove_outliers Scenario.sqrt_approx Processor.Statistical
              (with_ratio Processor.no_kwargs 2) p)) = Some c2 ∧
    sublist (points c1) (points c2).
Proof.
  cbv zeta.
  destruct (remove_outliers_std_ratio_monotone Scenario.sqrt_approx sqrt_approx_nonneg
              Processor.no_kwargs
              (Processor.set_cloud (Processor.init "fused.ply") Scenario.line25)
              Scenario.line25 1 2) as [_ H].
  - vm_compute. discriminate.
  - reflexivity.
  - exact H.
Defined.

(** ** Sessions and jobs *)

Section RoutesProperties.
Import Routes.
Variable E : externals.

(** C8. When the session has fewer images than
    [min_images_for_reconstruction], whatever the requested quality,
    [start_reconstruction] answers with status 400 and the text
    "Need at least 10 images", and the state of the server is unchanged: no
    status record is added to [reconstruction_status] and no thread is
    started. *)
Theorem start_reconstruction_insufficient_images
    (req : recon_request) (clk : recon_clock) (w : world)
    (sid : string) (r : nat) (s : session) :
  rr_session_id req = Some sid → sid ≠ "" →
  lookup_session w sid = Some (r, s) →
  length (images s) < Config.min_images_for_reconstruction →
  start_reconstruction req clk w = (Error 400 "Need at least 10 images", w) ∧
  reconstruction_status (snd (start_reconstruction req clk w)) = reconstruction_status w ∧
  status_heap (snd (start_reconstruction req clk w)) = status_heap w ∧
  threads (snd (start_reconstruction req clk w)) = threads w.
Proof.
  intros Hsid Hne Hs Hlen.
  assert (H : start_reconstruction req clk w = (Error 400 "Need at least 10 images", w)).
  { unfold start_reconstruction. rewrite Hsid.
    destruct sid as [|c sid']; [done|].
    simpl. rewrite Hs. simpl.
    apply Nat.ltb_lt in Hlen. by rewrite Hlen. }
  rewrite H. done.
Qed.

Definition session_id_at (t : Q) : string :=
  "session_" +:+ Py.str_of_Z (Py.int_of_float t).

Lemma start_session_started req clk w sid w1 :
  start_session E req clk w = (SessionStarted sid, w1) →
  sid = session_id_at (t_session clk) ∧
  active_sessions w1 !! sid = Some (length (session_heap w)) ∧
  length (session_heap w1) = S (length (session_heap w)) ∧
  fs w1 !! path_join (SESSIONS_DIR E) sid = Some Dir.
Proof.
  unfold start_session. fold (session_id_at (t_session clk)).
  destruct (mkdir (fs w) _) as [fs1|] eqn:Hmk; [|discriminate].
  intros [= <- <-]. simpl.
  rewrite lookup_insert_eq, length_app. simpl.
  split; [done|]. split; [done|]. split; [lia|].
  unfold mkdir in Hmk.
  destruct (fs w !! _) as [[]|]; inversion Hmk; by rewrite lookup_insert_eq.
Qed.

(** C10. The session id is ["session_"] followed by the integer second of
    the clock. A second [start_session] in the same second as an earlier
    one, run in any later state in which the earlier session is still
    registered, returns the same id; the registry then maps the id to a new
    record with no images and no annotations, and the earlier record, though
    still in memory, is no longer registered. *)
Theorem start_session_same_second
    (req1 req2 : start_request) (clk1 clk2 : start_clock) (w0 w1 w : world) (sid : string) :
  Py.int_of_float (t_session clk1) = Py.int_of_float (t_session clk2) →
  start_session E req1 clk1 w0 = (SessionStarted sid, w1) →
  active_sessions w !! sid = active_sessions w1 !! sid →
  fs w !! path_join (SESSIONS_DIR E) sid = Some Dir →
  length (session_heap w1) ≤ length (session_heap w) →
  ∃ w2 r1 r2 s2,
    start_session E req2 clk2 w = (SessionStarted sid, w2) ∧
    active_sessions w !! sid = Some r1 ∧
    lookup_session w2 sid = Some (r2, s2) ∧
    r1 ≠ r2 ∧
    images s2 = [] ∧ annotations s2 = [] ∧
    session_heap w2 !! r1 = session_heap w !! r1.
Proof.
  intros Hsec H1 Hreg Hdir Hlen.
  apply start_session_started in H1 as (Hsid & Hr1 & Hl1 & _).
  assert (Hsid2 : session_id_at (t_session clk2) = sid).
  { unfold session_id_at in *. by rewrite <- Hsec. }
  unfold start_session. fold (session_id_at (t_session clk2)). rewrite Hsid2.
  unfold mkdir. rewrite Hdir.
  eexists _, (length (session_heap w0)), (length (session_heap w)), _.
  split; [reflexivity|].
  split; [by rewrite Hreg|].
  unfold lookup_session. simpl.
  rewrite lookup_insert_eq. simpl.
  rewrite lookup_app_r, Nat.sub_diag by lia. simpl.
  split; [reflexivity|].
  split; [lia|].
  split; [done|]. split; [done|].
  apply lookup_app_l. lia.
Qed.

End RoutesProperties.

Lemma start_reconstruction_insufficient_images_witness :
  let w := Scenario.world_with Scenario.site 5 in
  Routes.start_reconstruction (Scenario.reconstruct "session_1700000000" (Some "high"))
    (Scenario.recon_at 1700000100) w
  = (Routes.Error 400 "Need at least 10 images", w).
Proof.
  cbv zeta.
  edestruct (start_reconstruction_insufficient_images
               (Scenario.reconstruct "session_1700000000" (Some "high"))
               (Scenario.recon_at 1700000100)
               (Scenario.world_with Scenario.site 5) "session_1700000000") as [H _].
  - reflexivity.
  - discriminate.
  - vm_compute. reflexivity.
  - vm_compute. lia.
  - exact H.
Defined.

(** The second call comes after three uploads to the first session. *)
Lemma start_session_same_second_witness :
  let w1 := snd (Routes.start_session Scenario.site Scenario.new_session
                   (Scenario.at_second 1700000000) Routes.initial_world) in
  let w := Scenario.uploads Scenario.site 3 "session_1700000000" "Plain" (1700000000 + (1 # 2)) w1 in
  ∃ w2 r1 r2 s2,
    Routes.start_session Scenario.site Scenario.new_session
      (Scenario.at_second (1700000000 + (9 # 10))) w
    = (Routes.SessionStarted "session_1700000000", w2) ∧
    Routes.active_sessions w !! "session_1700000000" = Some r1 ∧
    Routes.lookup_session w2 "session_1700000000" = Some (r2, s2) ∧
    r1 ≠ r2 ∧
    Routes.images s2 = [] ∧ Routes.annotations s2 = [] ∧
    Routes.session_heap w2 !! r1 = Routes.session_heap w !! r1.
Proof.
  cbv zeta.
  eapply (start_session_same_second Scenario.site Scenario.new_session Scenario.new_session
            (Scenario.at_second 1700000000) (Scenario.at_second (1700000000 + (9 # 10)))
            Routes.initial_world).
  - vm_compute. reflexivity.
  - vm_compute. reflexivity.
  - vm_compute. reflexivity.
  - vm_compute. reflexivity.
  - vm_compute. lia.
Defined.

(** ** The job after the adapter and the post-processor *)

Section JobProperties.
Import Routes.
Variable E : externals.

Lemma string_app_inv_head (s a b : string) : s +:+ a = s +:+ b → a = b.
Proof. induction s as [|c s IH]; simpl; [done|]. intros [= H]. auto. Qed.

Lemma path_join_inj (d a b : string) : path_join d a = path_join d b → a = b.
Proof.
  unfold path_join. intros H%string_app_inv_head. simpl in H. by injection H.
Qed.

Lemma session_has_no_session_id (s : session) : session_str s "session_id" = None.
Proof. reflexivity. Qed.

Lemma save_mesh_other (out ft : string) (p : Processor.processor)
    (fs0 : gmap string node) (q : string) :
  q ≠ out → snd (Processor.save_mesh out ft p fs0) !! q = fs0 !! q.
Proof.
  intros Hne. unfold Processor.save_mesh.
  destruct (Processor.mesh_ p); simpl; [|done]. by rewrite lookup_insert_ne.
Qed.

(** C2 (what the code does). A job that has come past the adapter and the
    post-processor (it stands before the marker step) runs its last three
    steps and ends [failed]: building the metadata raises
    [KeyError('session_id')], because the session record has no such key.
    Progress stays at 95, no output files or completion time are recorded,
    and no [metadata.json] is written. *)
Theorem job_after_success_fails_on_metadata
    (now : Q) (j : job) (w : world) (s : session) (p : Processor.processor)
    (r : nat) (st : job_status) :
  at_phase j = AddMarkers →
  session_heap w !! session_ref j = Some s →
  processor_ j = Some p →
  status_ref j = Some r →
  status_heap w !! r = Some st →
  ∃ j' w' st',
    run_steps E 3 now j w = (j', w') ∧
    at_phase j' = Finished ∧
    status_heap w' !! r = Some st' ∧
    js_status st' = "failed" ∧
    progress st' = 95%Z ∧
    message st' = "Reconstruction failed: 'session_id'" ∧
    js_errors st' = js_errors st ++ ["'session_id'"] ∧
    output_files st' = output_files st ∧
    completed_at st' = completed_at st ∧
    fs w' !! path_join (output_folder E j) "metadata.json"
      = fs w !! path_join (output_folder E j) "metadata.json".
Proof.
  intros Hph Hs Hp Hr Hst.
  destruct j as [rid sref sr ph pr mi]. simpl in *. subst ph pr sr.
  assert (Hne : ∀ a, a ≠ "metadata.json" →
            path_join (path_join (OUTPUT_DIR E) rid) "metadata.json"
            ≠ path_join (path_join (OUTPUT_DIR E) rid) a).
  { intros a Ha H%path_join_inj. congruence. }
  unfold run_steps, job_step, output_folder. simpl. rewrite Hs.
  destruct (annotations s) as [|a anns];
    [| try destruct (Processor.add_crack_markers _ _ p) as [ok p'] ];
    unfold write_status, fail, write_status; simpl; rewrite Hs; simpl;
    unfold Processor.save_mesh;
    match goal with |- context [Processor.mesh_ ?q] => destruct (Processor.mesh_ q) end;
    simpl; rewrite Hs; simpl;
    eexists _, _, _; (split; [reflexivity|]); simpl;
    (split; [reflexivity|]);
    rewrite !list_lookup_alter, Hst; rewrite !decide_True by reflexivity; simpl;
    (split; [reflexivity|]);
    repeat (split; [reflexivity|]);
    rewrite ?lookup_insert_ne by (apply not_eq_sym, Hne; discriminate);
    reflexivity.
Qed.

Lemma process_missing_file (fs0 : gmap string node) (path : string) :
  fs0 !! path = None →
  Processor.process_full_pipeline (trimesh E) (fsqrt E) (Some Processor.MODEL_CONFIG) fs0
    (Processor.init path)
  = (Processor.failed_to_load, Processor.init path).
Proof.
  intros H. unfold Processor.process_full_pipeline, Processor.load_point_cloud,
    Processor.load_mesh. simpl. rewrite H. simpl. by rewrite H.
Qed.

(** C1 (what the code does). A job that has come past the adapter stands
    before the processing step. When the workspace has no
    [dense/fused.ply], whether or not the adapter has exported the sparse
    model, the processor is still given the path of the dense file: the
    load fails, and the job ends [failed] with the message of the
    post-processor. Nothing is written. *)
Theorem job_without_dense_model_fails
    (now : Q) (j : job) (w : world) (s : session) (r : nat) (st : job_status) :
  at_phase j = RunProcessing →
  session_heap w !! session_ref j = Some s →
  status_ref j = Some r →
  status_heap w !! r = Some st →
  fs w !! path_join (path_join (folder s) "dense") "fused.ply" = None →
  ∃ j' w' st',
    job_step E now j w = (j', w') ∧
    at_phase j' = Finished ∧
    status_heap w' !! r = Some st' ∧
    js_status st' = "failed" ∧
    message st' = "Reconstruction failed: Processing failed: ['Failed to load model']" ∧
    js_errors st' = js_errors st ++ ["Processing failed: ['Failed to load model']"] ∧
    output_files st' = output_files st ∧
    fs w' = fs w.
Proof.
  intros Hph Hs Hr Hst Hnone.
  destruct j as [rid sref sr ph pr mi]. simpl in *. subst ph sr.
  unfold job_step. simpl. rewrite Hs.
  rewrite process_missing_file by done. simpl.
  unfold fail, write_status. simpl.
  eexists _, _, _. split; [reflexivity|]. simpl.
  split; [reflexivity|].
  rewrite list_lookup_alter, Hst. rewrite decide_True by reflexivity. simpl.
  split; [reflexivity|]. repeat (split; [reflexivity|]). reflexivity.
Qed.

End JobProperties.

(** A session with ten images; the engine's stereo matching fails, its
    converter exports the sparse model. The job comes past the adapter,
    the exported [model.ply] is in the workspace, and the job fails. *)
Definition sparse_only : Routes.externals :=
  Scenario.deployment false true Scenario.no_cloud Scenario.line25.

Definition started (E : Routes.externals) (n : nat) : Routes.world :=
  snd (Routes.start_reconstruction (Scenario.reconstruct "session_1700000000" None)
         (Scenario.recon_at 1700000100) (Scenario.world_with E n)).

Definition job0 : Routes.job := Routes.new_job "recon_1700000100" 0.

Lemma job_without_dense_model_fails_witness :
  let jw := Routes.run_steps sparse_only 2 1700000200 job0 (started sparse_only 10) in
  Routes.threads (started sparse_only 10) = [job0] ∧
  Routes.at_phase (fst jw) = Routes.RunProcessing ∧
  Routes.fs (snd jw) !! "sessions/session_1700000000/model.ply"
    = Some (PlyFile (Some Scenario.line25)) ∧
  ∃ j' w' st',
    Routes.job_step sparse_only 1700000200 (fst jw) (snd jw) = (j', w') ∧
    Routes.status_heap w' !! 0 = Some st' ∧
    Routes.js_status st' = "failed" ∧
    Routes.js_errors st' = [] ++ ["Processing failed: ['Failed to load model']"].
Proof.
  cbv zeta.
  split; [vm_compute; reflexivity|].
  split; [vm_compute; reflexivity|].
  split; [vm_compute; reflexivity|].
  edestruct (job_without_dense_model_fails sparse_only 1700000200
               (fst (Routes.run_steps sparse_only 2 1700000200 job0 (started sparse_only 10)))
               (snd (Routes.run_steps sparse_only 2 1700000200 job0 (started sparse_only 10))))
    as (j' & w' & st' & H1 & _ & H3 & H4 & _ & H6 & _ & _).
  - vm_compute. reflexivity.
  - vm_compute. reflexivity.
  - vm_compute. reflexivity.
  - vm_compute. reflexivity.
  - vm_compute. reflexivity.
  - exists j', w', st'. split; [exact H1|]. split; [exact H3|].
    split; [exact H4 | exact H6].
Defined.

(** The same session with an engine whose every stage succeeds: the job
    comes past the adapter and the post-processor and then fails on the
    metadata. *)
Lemma job_after_success_fails_on_metadata_witness :
  let jw := Routes.run_steps Scenario.site 3 1700000200 job0 (started Scenario.site 10) in
  Routes.at_phase (fst jw) = Routes.AddMarkers ∧
  ∃ j' w' st',
    Routes.run_steps Scenario.site 3 1700000200 (fst jw) (snd jw) = (j', w') ∧
    Routes.status_heap w' !! 0 = Some st' ∧
    Routes.js_status st' = "failed" ∧
    Routes.progress st' = 95%Z ∧
    Routes.output_files st' = None.
Proof.
  cbv zeta.
  split; [vm_compute; reflexivity|].
  edestruct (job_after_success_fails_on_metadata Scenario.site 1700000200
               (fst (Routes.run_steps Scenario.site 3 1700000200 job0 (started Scenario.site 10)))
               (snd (Routes.run_steps Scenario.site 3 1700000200 job0 (started Scenario.site 10))))
    as (j' & w' & st' & H1 & _ & H3 & H4 & H5 & _ & _ & H8 & _).
  - vm_compute. reflexivity.
  - vm_compute. reflexivity.
  - vm_compute. reflexivity.
  - vm_compute. reflexivity.
  - vm_compute. reflexivity.
  - exists j', w', st'. split; [exact H1|]. split; [exact H3|].
    split; [exact H4|]. split; [exact H5|]. exact H8.
Defined.

(** ** The markers of a job *)


Section PipelineMarkers.
Variable T : Processor.trimesh_api.
Variable fsqrt : Q → Q.












End PipelineMarkers.

Section JobMarkers.
Import Routes.
Variable E : externals.


End JobMarkers.



(** ** Uploads to one session *)




Example overlapping_uploads_state :
  let w' := snd (Routes.run_schedule Scenario.site [true; false; true; false]
                   1700000001 1700000002
                   (Routes.Ready (Scenario.upload "session_1700000000" "Plain"))
                   (Routes.Ready (Scenario.upload "session_1700000000" "Stain"))
                   (Scenario.world_with Scenario.site 0)) in
  (map Routes.filename <$> (Routes.images <$> Routes.session_heap w' !! 0))
    = Some ["img_0000.jpg"; "img_0000.jpg"] ∧
  Routes.fs w' !! "sessions/session_1700000000/img_0000.jpg" = Some (Blob "/9j/4AAQSkZJRg==") ∧
  Routes.fs w' !! "sessions/session_1700000000/img_0001.jpg" = None.
Proof. cbv zeta. repeat split; vm_compute; reflexivity. Qed.

Section Uploads.
Import Routes.
Variable E : externals.



Definition with_file (w : world) (s : session) (bytes : string) : world :=
  set_fs w (<[path_join (folder s) (img_name (length (images s))) := Blob bytes]> (fs w)).






Lemma lookup_session_with_file w sid s0 bytes :
  lookup_session (with_file w s0 bytes) sid = lookup_session w sid.
Proof. reflexivity. Qed.




Section TwoHandlers.
Variables (now1 now2 : Q) (req1 req2 : upload_request).
Variables (w : world) (sid : string) (r : nat) (s : session).
Hypothesis H1 : ur_session_id req1 = Some sid.
Hypothesis H2 : ur_session_id req2 = Some sid.
Hypothesis Hs : lookup_session w sid = Some (r, s).




End TwoHandlers.


End Uploads.


(** * Further properties *)

(** ** Voxel downsampling: which point is kept, and in what order *)

Section DownsampleMore.
Import Processor.

Lemma row_eq_dec (a b : Np.row) : {a = b} + {a ≠ b}.
Proof. repeat decide equality. Qed.

Lemma ins_present {A} (k : Np.row) (a : A) (l : list (Np.row * A)) :
  row_sorted l → In k (map fst l) → Np.ins k a l = l.
Proof.
  unfold row_sorted.
  induction l as [|[k' a'] l IH]; simpl; intros Hs Hin; [tauto|].
  apply StronglySorted_inv in Hs as [Hs Hall].
  destruct (Np.row_compare k k') eqn:Hc; [done | | ].
  - exfalso. destruct Hin as [->|Hin].
    + by apply (rlt_irrefl k).
    + rewrite List.Forall_forall in Hall. specialize (Hall _ Hin).
      apply (rlt_irrefl k). by eapply rlt_trans.
  - f_equal. apply IH; [done|]. destruct Hin as [->|Hin]; [|done].
    exfalso. unfold rlt in *.
    assert (H : Np.row_compare k k = Eq).
    { destruct k as [[a1 a2] a3]. simpl. by rewrite !Z.compare_refl. }
    congruence.
Qed.

(** Every entry of the result stands in the input behind entries with other
    rows only. *)
Lemma fold_first {A} (l acc : list (Np.row * A)) (x : Np.row * A) :
  row_sorted acc →
  In x (fold_left step l acc) →
  In x acc ∨
  ∃ l1 l2, l = l1 ++ x :: l2 ∧ ¬ In (fst x) (map fst l1) ∧ ¬ In (fst x) (map fst acc).
Proof.
  revert acc. induction l as [|[k a] l IH]; simpl; intros acc Hs Hin; [by left|].
  destruct (IH _ (ins_sorted k a acc Hs) Hin) as [Hacc|(l1 & l2 & -> & Hn1 & Hn2)].
  - destruct (in_dec row_eq_dec k (map fst acc)) as [Hk|Hk].
    + left. by rewrite (ins_present k a acc Hs Hk) in Hacc.
    + apply ins_elem in Hacc as [->|Hacc]; [|by left].
      right. exists [], l. simpl. tauto.
  - right. exists ((k, a) :: l1), l2. split; [done|]. split.
    + simpl. intros [Hk|Hk]; [|tauto].
      apply Hn2. rewrite <- Hk. apply ins_has_key.
    + intros Hk. apply Hn2. apply in_map_iff in Hk as [y [Hy Hin']].
      apply in_map_iff. exists y. split; [done|]. by apply ins_keeps.
Qed.

Lemma first_occurrences_first {A} (l : list (Np.row * A)) (x : Np.row * A) :
  In x (Np.first_occurrences l) →
  ∃ l1 l2, l = l1 ++ x :: l2 ∧ ¬ In (fst x) (map fst l1).
Proof.
  intros H.
  destruct (fold_first l [] x) as [[]|(l1 & l2 & H1 & H2 & _)];
    [constructor | exact H | eauto].
Qed.

Lemma keyed_app v l1 l2 : keyed v (l1 ++ l2) = keyed v l1 ++ keyed v l2.
Proof.
  unfold keyed. induction l1 as [|q l1 IH]; simpl; [done|]. by rewrite IH.
Qed.

Lemma keyed_split v pts l1 x l2 :
  keyed v pts = l1 ++ x :: l2 →
  pts = map snd l1 ++ snd x :: map snd l2 ∧ keyed v (map snd l1) = l1.
Proof.
  revert l1. induction pts as [|q pts IH]; intros [|y l1] H; simpl in *;
    try discriminate.
  - injection H as <- H. split; [|done]. f_equal. simpl.
    unfold keyed in H. rewrite <- H.
    rewrite map_snd_zip; [done | by rewrite length_map].
  - unfold keyed in H. simpl in H. injection H as <- H.
    destruct (IH l1 H) as [-> Hk]. split; [done|].
    unfold keyed in *. simpl. by rewrite Hk.
Qed.

(** X1. [downsample_point_cloud] keeps, for each voxel, the point of the
    cloud that comes first with that voxel index, and it returns the kept
    points in the lexicographic order of their voxel indices, not in the
    order of the input. *)
Theorem downsample_keeps_first_in_voxel_order (v : Q) (p : processor) (c : cloud) :
  point_cloud p = Some c → cloud_wf c →
  ∃ c1, point_cloud (snd (downsample_point_cloud v p)) = Some c1 ∧
        StronglySorted rlt (map (voxel_index v) (points c1)) ∧
        ∀ q, In q (points c1) →
             ∃ before after,
               points c = before ++ q :: after ∧
               ∀ q', In q' before → voxel_index v q' ≠ voxel_index v q.
Proof.
  intros Hc Hwf. rewrite (downsample_point_cloud_state v p c Hc Hwf).
  exists (downsampled v c). split; [done|]. simpl. split; [apply kept_sorted|].
  intros q Hq. unfold kept in Hq. apply in_map_iff in Hq as [x [<- Hx]].
  pose proof (keyed_consistent v (points c) x (first_occurrences_elem _ _ Hx)) as Hkx.
  apply first_occurrences_first in Hx as (l1 & l2 & Hsplit & Hnot).
  apply keyed_split in Hsplit as [Hpts Hl1].
  exists (map snd l1), (map snd l2). split; [done|].
  intros q' Hq' Heq. apply Hnot. rewrite Hkx, <- Heq, <- Hl1, keyed_fst.
  by apply in_map.
Qed.

Lemma zip_natural_fst {A B C} (ks : list A) (l1 : list B) (l2 : list C) :
  length l1 = length l2 →
  zip ks l1 = map (λ x, (fst x, fst (snd x))) (zip ks (zip l1 l2)).
Proof.
  revert l1 l2. induction ks as [|k ks IH]; intros [|b l1] [|c2 l2]; simpl; try done.
  intros [= H]. by rewrite (IH l1 l2).
Qed.

Lemma zip_natural_snd {A B C} (ks : list A) (l1 : list B) (l2 : list C) :
  length l1 = length l2 →
  zip ks l2 = map (λ x, (fst x, snd (snd x))) (zip ks (zip l1 l2)).
Proof.
  revert l1 l2. induction ks as [|k ks IH]; intros [|b l1] [|c2 l2]; simpl; try done.
  intros [= H]. by rewrite (IH l1 l2).
Qed.

Lemma zip_of_projections {A B} (l : list (A * B)) : zip (map fst l) (map snd l) = l.
Proof. induction l as [|[a b] l IH]; simpl; [done|]. by rewrite IH. Qed.

Lemma in_zip_snd {A B} (ks : list A) (l : list B) x : In x (zip ks l) → In (snd x) l.
Proof.
  revert l. induction ks as [|k ks IH]; intros [|b l]; simpl; try tauto.
  intros [<-|H]; simpl; [tauto|]. right. by apply IH.
Qed.

(** X2. Downsampling keeps every colour with its point: each (point,
    colour) row of the result is a row of the input. *)
Theorem downsample_keeps_colours_attached (v : Q) (p : processor) (c : cloud)
    (cs : list rgb) :
  point_cloud p = Some c → colors c = Some cs → length cs = length (points c) →
  ∃ c1 cs1, point_cloud (snd (downsample_point_cloud v p)) = Some c1 ∧
            colors c1 = Some cs1 ∧
            length cs1 = length (points c1) ∧
            ∀ row, In row (zip (points c1) cs1) → In row (zip (points c) cs).
Proof.
  intros Hc Hcs Hlen.
  assert (Hwf : cloud_wf c) by (unfold cloud_wf; by rewrite Hcs).
  rewrite (downsample_point_cloud_state v p c Hc Hwf).
  set (keys := map (voxel_index v) (points c)).
  set (both := Np.first_occurrences (zip keys (zip (points c) cs))).
  assert (Hp : kept v (points c) = map fst (map snd both)).
  { unfold kept, keyed, both. fold keys.
    rewrite (zip_natural_fst keys (points c) cs) by done.
    rewrite (first_occurrences_natural fst), !map_map. done. }
  assert (Hq : map snd (Np.first_occurrences (zip keys cs)) = map snd (map snd both)).
  { unfold both.
    rewrite (zip_natural_snd keys (points c) cs) by done.
    rewrite (first_occurrences_natural snd), !map_map. done. }
  exists (downsampled v c), (map snd (map snd both)).
  split; [done|]. simpl. split.
  { unfold kept_colors. rewrite Hcs. simpl. fold keys. by rewrite Hq. }
  split; [by rewrite Hp, !length_map|].
  rewrite Hp, zip_of_projections. intros row Hrow.
  apply in_map_iff in Hrow as [x [<- Hx]].
  apply first_occurrences_elem in Hx. by apply in_zip_snd in Hx.
Qed.

Lemma downsample_flag (v : Q) (p : processor) (c : cloud) :
  point_cloud p = Some c → cloud_wf c →
  fst (downsample_point_cloud v p) = negb (length (points c) =? 0).
Proof.
  intros Hc Hwf. unfold downsample_point_cloud. rewrite Hc.
  rewrite take_unique_index by (by rewrite length_map).
  unfold cloud_wf in Hwf. destruct (colors c) as [cs|]; [|done].
  by rewrite take_unique_index by (by rewrite length_map).
Qed.

(** X3. The return value of [downsample_point_cloud] on a loaded cloud:
    [False] exactly when the cloud has no points (the percentage of the log
    line divides by the original size), [True] otherwise. *)
Theorem downsample_reports_failure_iff_empty (v : Q) (p : processor) (c : cloud) :
  point_cloud p = Some c → cloud_wf c →
  fst (downsample_point_cloud v p) = negb (length (points c) =? 0).
Proof.
  intros Hc Hwf. unfold downsample_point_cloud. rewrite Hc.
  rewrite take_unique_index by (by rewrite length_map).
  unfold cloud_wf in Hwf. destruct (colors c) as [cs|]; [|done].
  by rewrite take_unique_index by (by rewrite length_map).
Qed.

End DownsampleMore.

Lemma downsample_keeps_first_in_voxel_order_witness :
  ∃ c1, Processor.point_cloud
          (snd (Processor.downsample_point_cloud (1 # 50)
                  (Processor.set_cloud (Processor.init "fused.ply") cloud5))) = Some c1 ∧
        StronglySorted rlt (map (Processor.voxel_index (1 # 50)) (points c1)) ∧
        ∀ q, In q (points c1) →
             ∃ before after,
               points cloud5 = before ++ q :: after ∧
               ∀ q', In q' before →
                     Processor.voxel_index (1 # 50) q' ≠ Processor.voxel_index (1 # 50) q.
Proof.
  apply (downsample_keeps_first_in_voxel_order (1 # 50)
           (Processor.set_cloud (Processor.init "fused.ply") cloud5) cloud5);
    reflexivity.
Defined.

Lemma downsample_keeps_colours_attached_witness :
  ∃ c1 cs1,
    Processor.point_cloud
      (snd (Processor.downsample_point_cloud (1 # 50)
              (Processor.set_cloud (Processor.init "fused.ply") cloud5))) = Some c1 ∧
    colors c1 = Some cs1 ∧
    length cs1 = length (points c1) ∧
    ∀ row, In row (zip (points c1) cs1) →
           In row (zip (points cloud5) [(1, 1, 1); (2, 2, 2); (3, 3, 3); (4, 4, 4); (5, 5, 5)]%Z).
Proof.
  apply (downsample_keeps_colours_attached (1 # 50)
           (Processor.set_cloud (Processor.init "fused.ply") cloud5) cloud5);
    reflexivity.
Defined.

Lemma downsample_reports_failure_iff_empty_witness :
  fst (Processor.downsample_point_cloud (1 # 50)
         (Processor.set_cloud (Processor.init "fused.ply") Scenario.no_cloud)) = false ∧
  fst (Processor.downsample_point_cloud (1 # 50)
         (Processor.set_cloud (Processor.init "fused.ply") cloud5)) = true.
Proof.
  split.
  - apply (downsample_reports_failure_iff_empty (1 # 50) _ Scenario.no_cloud);
      [reflexivity | exact I].
  - apply (downsample_reports_failure_iff_empty (1 # 50) _ cloud5); reflexivity.
Defined.

(** ** Outlier removal: what is left, small clouds, the radius strategy *)

Section OutliersMore.
Import Processor.
Variable fsqrt : Q → Q.

(** The cloud left by a mask. *)
Definition filtered (c : cloud) (mask : list bool) : cloud :=
  {| points := masked (points c) mask;
     colors := (λ cs, masked cs mask) <$> colors c |}.

Lemma outlier_mask_length m kw pts mask :
  outlier_mask fsqrt m kw pts = Some mask → length mask = length pts.
Proof.
  unfold outlier_mask. destruct m.
  - destruct (_ =? 0); [done|]. intros [= <-].
    unfold statistical_mask, avg_distances. by rewrite !length_map.
  - intros [= <-]. unfold radius_mask. by rewrite length_map.
  - done.
Qed.

Lemma remove_outliers_masked m kw p c mask :
  point_cloud p = Some c → cloud_wf c →
  outlier_mask fsqrt m kw (points c) = Some mask →
  remove_outliers fsqrt m kw p
  = (negb (length (points c) =? 0), set_cloud p (filtered c mask)).
Proof.
  intros Hc Hwf Hm. pose proof (outlier_mask_length _ _ _ _ Hm) as Hlen.
  unfold remove_outliers. rewrite Hc, Hm.
  rewrite take_mask_masked by done.
  unfold cloud_wf in Hwf. unfold filtered, set_points, set_colors.
  destruct (colors c) as [cs|] eqn:Hcs; simpl; [|reflexivity].
  rewrite take_mask_masked by congruence. done.
Qed.

Lemma remove_outliers_no_mask m kw p c :
  point_cloud p = Some c →
  outlier_mask fsqrt m kw (points c) = None →
  remove_outliers fsqrt m kw p = (false, p).
Proof. intros Hc Hm. unfold remove_outliers. by rewrite Hc, Hm. Qed.

Lemma masked_is_sublist {A} (l : list A) mask : sublist (masked l mask) l.
Proof.
  revert mask. induction l as [|x l IH]; intros [|b mask]; try done.
  - apply sublist_nil_l.
  - rewrite masked_cons. destruct b; by constructor.
Qed.

Lemma masked_nil_r {A} (l : list A) : masked l [] = [].
Proof. unfold masked. by destruct l. Qed.

Lemma zip_nil_r {A B} (l : list A) : zip l (@nil B) = [].
Proof. by destruct l. Qed.

Lemma masked_zip {A B} (l1 : list A) (l2 : list B) mask :
  masked (zip l1 l2) mask = zip (masked l1 mask) (masked l2 mask).
Proof.
  revert l2 mask. induction l1 as [|x l1 IH]; intros l2 mask; [done|].
  destruct l2 as [|y l2].
  { transitivity (@nil (A * B)); [reflexivity|]. symmetry. apply zip_nil_r. }
  destruct mask as [|b mask]; [rewrite !masked_nil_r; reflexivity|].
  change (zip (x :: l1) (y :: l2)) with ((x, y) :: zip l1 l2).
  rewrite !masked_cons. destruct b; simpl; by rewrite IH.
Qed.

Lemma masked_length_eq {A B} (l1 : list A) (l2 : list B) mask :
  length l1 = length l2 → length (masked l1 mask) = length (masked l2 mask).
Proof.
  revert l2 mask. induction l1 as [|x l1 IH]; intros [|y l2] [|b mask]; try done.
  intros [= H]. rewrite !masked_cons. destruct b; simpl; auto.
Qed.

(** X4. [remove_outliers] only removes: whatever the method and its
    arguments, the points left are a sub-list of the points before (same
    order, nothing new), each colour stays with its point, and when the
    method raises before the cloud is touched (an unknown method name, or
    [nb_neighbors = 0]) the processor is unchanged and [False] is
    returned. *)
Theorem remove_outliers_only_removes (m : method) (kw : kwargs) (p : processor) (c : cloud) :
  point_cloud p = Some c → cloud_wf c →
  ∃ c1, point_cloud (snd (remove_outliers fsqrt m kw p)) = Some c1 ∧
        sublist (points c1) (points c) ∧
        cloud_wf c1 ∧
        (∀ cs, colors c = Some cs →
               ∃ cs1, colors c1 = Some cs1 ∧
                      sublist (zip (points c1) cs1) (zip (points c) cs)) ∧
        (outlier_mask fsqrt m kw (points c) = None →
           remove_outliers fsqrt m kw p = (false, p)).
Proof.
  intros Hc Hwf.
  destruct (outlier_mask fsqrt m kw (points c)) as [mask|] eqn:Hm.
  - rewrite (remove_outliers_masked m kw p c mask Hc Hwf Hm).
    exists (filtered c mask). split; [done|]. simpl.
    split; [apply masked_is_sublist|].
    unfold cloud_wf in *. simpl.
    destruct (colors c) as [cs|]; simpl.
    + split; [by apply masked_length_eq|]. split; [|done].
      intros cs' [= <-]. exists (masked cs mask). split; [done|].
      rewrite <- masked_zip. apply masked_is_sublist.
    + split; [done|]. split; [|done]. intros cs [=].
  - rewrite (remove_outliers_no_mask m kw p c Hc Hm).
    exists c. split; [done|]. split; [done|]. split; [done|].
    split; [|done]. intros cs Hcs. by exists cs.
Qed.

(** *** A cloud with no more points than neighbours asked for *)

Definition finite_or_inf (a : Np.float) : Prop :=
  match a with
  | Np.Fin _ | Np.PInf => True
  | _ => False
  end.

Lemma fold_add_inf (l : list Np.float) (acc : Np.float) :
  finite_or_inf acc → Forall finite_or_inf l →
  acc = Np.PInf ∨ In Np.PInf l →
  fold_left Np.add l acc = Np.PInf.
Proof.
  intros Hacc Hall. revert acc Hacc.
  induction Hall as [|a l Ha _ IH]; simpl; intros acc Hacc Hinf.
  - destruct Hinf as [->|[]]. done.
  - apply IH.
    + destruct acc, a; done.
    + destruct Hinf as [->|[->|Hin]].
      * left. destruct a; simpl in *; done.
      * left. destruct acc; simpl in *; done.
      * by right.
Qed.

Lemma mean_with_inf (l : list Np.float) :
  Forall finite_or_inf l → In Np.PInf l → Np.mean l = Np.PInf.
Proof.
  intros Hall Hin. unfold Np.mean, Np.sum.
  rewrite fold_add_inf; [| done | done | by right].
  destruct l; [destruct Hin | done].
Qed.

Lemma fold_add_nan (l : list Np.float) : fold_left Np.add l Np.NaN = Np.NaN.
Proof. induction l as [|a l IH]; simpl; [done|]. by destruct a. Qed.

Lemma mean_of_nans (n : nat) : Np.mean (replicate (S n) Np.NaN) = Np.NaN.
Proof. unfold Np.mean, Np.sum. simpl. by rewrite fold_add_nan. Qed.

Lemma insert_sorted_length x l : length (insert_sorted x l) = S (length l).
Proof.
  induction l as [|y l IH]; simpl; [done|]. destruct (Qle_bool x y); simpl; lia.
Qed.

Lemma sort_length l : length (sort l) = length l.
Proof.
  induction l as [|x l IH]; simpl; [done|]. by rewrite insert_sorted_length, IH.
Qed.

(** Asked for more neighbours than there are points, the query pads each
    row with [inf], and the mean over the row without its first column is
    [inf]. *)
Lemma avg_distance_small pts k q :
  0 < length pts → length pts ≤ k →
  Np.mean (tail (query_row fsqrt pts (k + 1) q)) = Np.PInf.
Proof.
  intros Hpos Hle. unfold query_row.
  set (ds := sort (map (dist fsqrt q) pts)).
  assert (Hlen : length ds = length pts).
  { unfold ds. by rewrite sort_length, length_map. }
  rewrite take_ge by lia.
  destruct ds as [|d ds'] eqn:Hds; [simpl in Hlen; lia|].
  simpl map. simpl tail.
  apply mean_with_inf.
  - apply Forall_app. split.
    + apply List.Forall_forall. intros a Ha. by apply in_map_iff in Ha as [x [<- _]].
    + apply List.Forall_forall.
      intros a Ha. apply list_elem_of_In, elem_of_replicate in Ha as [-> _]. done.
  - apply in_app_iff. right. apply list_elem_of_In, elem_of_replicate.
    split; [done|]. simpl in *. lia.
Qed.

Lemma map_const_replicate {A B} (f : A → B) (b : B) (l : list A) :
  (∀ x, In x l → f x = b) → map f l = replicate (length l) b.
Proof.
  induction l as [|x l IH]; simpl; intros H; [done|].
  rewrite H by tauto. f_equal. apply IH. intros y Hy. apply H. tauto.
Qed.

Lemma statistical_mask_small pts k ratio :
  0 < length pts → length pts ≤ k →
  statistical_mask fsqrt pts k ratio = replicate (length pts) false.
Proof.
  intros Hpos Hle. unfold statistical_mask.
  assert (Havg : avg_distances fsqrt pts k = replicate (length pts) Np.PInf).
  { unfold avg_distances. apply map_const_replicate.
    intros q _. by apply avg_distance_small. }
  rewrite Havg.
  destruct (length pts) as [|n] eqn:Hn; [lia|].
  assert (Hmean : Np.mean (replicate (S n) Np.PInf) = Np.PInf).
  { apply mean_with_inf; [|by left].
    apply List.Forall_forall. intros a Ha.
    apply list_elem_of_In, elem_of_replicate in Ha as [-> _]. done. }
  assert (Hthr : threshold fsqrt (replicate (S n) Np.PInf) ratio = Np.NaN).
  { unfold threshold, Np.std. rewrite Hmean.
    rewrite (map_const_replicate _ Np.NaN).
    - rewrite length_replicate, mean_of_nans. done.
    - intros x Hx. apply list_elem_of_In, elem_of_replicate in Hx as [-> _]. done. }
  rewrite Hthr. rewrite (map_const_replicate _ false).
  - by rewrite length_replicate.
  - intros x Hx. apply list_elem_of_In, elem_of_replicate in Hx as [-> _]. done.
Qed.

Lemma masked_replicate_false {A} (l : list A) n : masked l (replicate n false) = [].
Proof.
  apply masked_all_false. apply List.Forall_forall.
  intros b Hb. by apply list_elem_of_In, elem_of_replicate in Hb as [-> _].
Qed.

Lemma statistical_small_emptied (kw : kwargs) (p : processor) (c : cloud) :
  point_cloud p = Some c → cloud_wf c →
  0 < length (points c) →
  length (points c) ≤ default 20 (nb_neighbors kw) →
  ∃ c1, remove_outliers fsqrt Statistical kw p = (true, set_cloud p c1) ∧
        points c1 = [] ∧ (colors c1 = None ∨ colors c1 = Some []).
Proof.
  intros Hc Hwf Hpos Hle.
  assert (Hm : outlier_mask fsqrt Statistical kw (points c)
               = Some (replicate (length (points c)) false)).
  { unfold outlier_mask.
    destruct (default 20 (nb_neighbors kw) =? 0) eqn:Hk.
    { apply Nat.eqb_eq in Hk. lia. }
    by rewrite statistical_mask_small. }
  rewrite (remove_outliers_masked _ _ _ _ _ Hc Hwf Hm).
  destruct (length (points c) =? 0) eqn:Hz; [apply Nat.eqb_eq in Hz; lia|].
  eexists. split; [reflexivity|]. simpl. rewrite masked_replicate_false.
  split; [done|]. destruct (colors c); simpl; [right | by left].
  by rewrite masked_replicate_false.
Qed.

(** X5. A non-empty cloud that has no more points than [nb_neighbors]
    loses every point to statistical outlier removal, whatever the ratio:
    the missing neighbours have distance [inf], the threshold is [nan], and
    nothing is below it. The method returns [True]. *)
Theorem remove_outliers_statistical_small (kw : kwargs) (p : processor) (c : cloud) :
  point_cloud p = Some c → cloud_wf c →
  0 < length (points c) →
  length (points c) ≤ default 20 (nb_neighbors kw) →
  ∃ c1, remove_outliers fsqrt Statistical kw p = (true, set_cloud p c1) ∧
        points c1 = [] ∧ (colors c1 = None ∨ colors c1 = Some []).
Proof.
  intros Hc Hwf Hpos Hle.
  assert (Hm : outlier_mask fsqrt Statistical kw (points c)
               = Some (replicate (length (points c)) false)).
  { unfold outlier_mask.
    destruct (default 20 (nb_neighbors kw) =? 0) eqn:Hk.
    { apply Nat.eqb_eq in Hk. lia. }
    by rewrite statistical_mask_small. }
  rewrite (remove_outliers_masked _ _ _ _ _ Hc Hwf Hm).
  destruct (length (points c) =? 0) eqn:Hz; [apply Nat.eqb_eq in Hz; lia|].
  eexists. split; [reflexivity|]. simpl. rewrite masked_replicate_false.
  split; [done|]. destruct (colors c); simpl; [right | by left].
  by rewrite masked_replicate_false.
Qed.

(** *** The radius strategy *)

Lemma ball_count_le_length pts r q : (ball_count fsqrt pts r q <= Z.of_nat (length pts))%Z.
Proof.
  unfold ball_count.
  pose proof (length_filter (λ q0, Qle_bool (dist fsqrt q q0) r = true) pts). lia.
Qed.

Lemma ball_count_mono pts r1 r2 q :
  (r1 <= r2)%Q → (ball_count fsqrt pts r1 q <= ball_count fsqrt pts r2 q)%Z.
Proof.
  intros Hr. unfold ball_count. apply inj_le.
  induction pts as [|x pts IH]; simpl; [done|].
  rewrite !filter_cons.
  destruct (decide (Qle_bool (dist fsqrt q x) r1 = true)) as [H1|H1].
  - rewrite decide_True; [simpl; lia|].
    apply Qle_bool_iff in H1. apply Qle_bool_iff. by eapply Qle_trans.
  - destruct (decide (Qle_bool (dist fsqrt q x) r2 = true)); simpl; lia.
Qed.

Lemma remove_outliers_radius_state kw p c :
  point_cloud p = Some c → cloud_wf c →
  remove_outliers fsqrt Radius kw p
  = (negb (length (points c) =? 0),
     set_cloud p (filtered c (radius_mask fsqrt (points c) (default 16%Z (nb_points kw))
                                (default (5 # 100)%Q (radius_ kw))))).
Proof. intros Hc Hwf. by apply remove_outliers_masked. Qed.

(** X6. The radius strategy is monotone in both arguments: with a larger
    radius and a smaller [nb_points] it keeps every point it kept before. *)
Theorem remove_outliers_radius_monotone (p : processor) (c : cloud)
    (n1 n2 : Z) (r1 r2 : Q) :
  point_cloud p = Some c → cloud_wf c →
  (n2 <= n1)%Z → (r1 <= r2)%Q →
  let kw n r := {| nb_neighbors := None; std_ratio := None;
                   nb_points := Some n; radius_ := Some r |} in
  ∃ c1 c2,
    point_cloud (snd (remove_outliers fsqrt Radius (kw n1 r1) p)) = Some c1 ∧
    point_cloud (snd (remove_outliers fsqrt Radius (kw n2 r2) p)) = Some c2 ∧
    sublist (points c1) (points c2).
Proof.
  intros Hc Hwf Hn Hr. cbv zeta.
  rewrite !(remove_outliers_radius_state _ p c Hc Hwf).
  eexists _, _. split; [reflexivity|]. split; [reflexivity|]. simpl.
  apply masked_sublist; [unfold radius_mask; by rewrite length_map ..|].
  intros i. unfold radius_mask. rewrite !lookup_map.
  destruct (points c !! i) as [q|]; simpl; [|done].
  intros [= H]. f_equal. apply Z.leb_le in H. apply Z.leb_le.
  pose proof (ball_count_mono (points c) r1 r2 q Hr). lia.
Qed.

(** X7. A non-empty cloud with fewer points than [nb_points] loses every
    point to the radius strategy, whatever the radius; the method returns
    [True]. *)
Theorem remove_outliers_radius_few_points (kw : kwargs) (p : processor) (c : cloud) :
  point_cloud p = Some c → cloud_wf c →
  0 < length (points c) →
  (Z.of_nat (length (points c)) < default 16%Z (nb_points kw))%Z →
  ∃ c1, remove_outliers fsqrt Radius kw p = (true, set_cloud p c1) ∧
        points c1 = [] ∧ (colors c1 = None ∨ colors c1 = Some []).
Proof.
  intros Hc Hwf Hpos Hsmall.
  rewrite (remove_outliers_radius_state kw p c Hc Hwf).
  destruct (length (points c) =? 0) eqn:Hz; [apply Nat.eqb_eq in Hz; lia|].
  assert (Hmask : Forall (λ b, b = false)
            (radius_mask fsqrt (points c) (default 16%Z (nb_points kw))
               (default (5 # 100)%Q (radius_ kw)))).
  { unfold radius_mask. apply List.Forall_forall. intros b Hb.
    apply in_map_iff in Hb as [q [<- _]]. apply Z.leb_gt.
    pose proof (ball_count_le_length (points c) (default (5 # 100)%Q (radius_ kw)) q).
    lia. }
  eexists. split; [reflexivity|]. simpl.
  rewrite masked_all_false by done. split; [done|].
  destruct (colors c); simpl; [right | by left]. by rewrite masked_all_false.
Qed.

End OutliersMore.

Definition loaded5 : Processor.processor :=
  Processor.set_cloud (Processor.init "fused.ply") cloud5.

Lemma remove_outliers_only_removes_witness :
  ∃ c1, Processor.point_cloud
          (snd (Processor.remove_outliers Scenario.sqrt_approx Processor.Radius
                  {| Processor.nb_neighbors := None; Processor.std_ratio := None;
                     Processor.nb_points := Some 2%Z;
                     Processor.radius_ := Some (1 # 100)%Q |} loaded5)) = Some c1 ∧
        sublist (points c1) (points cloud5).
Proof.
  destruct (remove_outliers_only_removes Scenario.sqrt_approx Processor.Radius
              {| Processor.nb_neighbors := None; Processor.std_ratio := None;
                 Processor.nb_points := Some 2%Z;
                 Processor.radius_ := Some (1 # 100)%Q |} loaded5 cloud5)
    as (c1 & H1 & H2 & _).
  - reflexivity.
  - reflexivity.
  - exists c1. split; [exact H1 | exact H2].
Defined.

Lemma remove_outliers_statistical_small_witness :
  ∃ c1, Processor.remove_outliers Scenario.sqrt_approx Processor.Statistical
          Processor.no_kwargs loaded5
        = (true, Processor.set_cloud loaded5 c1) ∧
        points c1 = [] ∧ (colors c1 = None ∨ colors c1 = Some []).
Proof.
  apply (remove_outliers_statistical_small Scenario.sqrt_approx Processor.no_kwargs
           loaded5 cloud5).
  - reflexivity.
  - reflexivity.
  - simpl. lia.
  - simpl. lia.
Defined.

Lemma remove_outliers_radius_monotone_witness :
  let kw n r := {| Processor.nb_neighbors := None; Processor.std_ratio := None;
                   Processor.nb_points := Some n; Processor.radius_ := Some r |} in
  ∃ c1 c2,
    Processor.point_cloud
      (snd (Processor.remove_outliers Scenario.sqrt_approx Processor.Radius
              (kw 3%Z (1 # 100)%Q) loaded5)) = Some c1 ∧
    Processor.point_cloud
      (snd (Processor.remove_outliers Scenario.sqrt_approx Processor.Radius
              (kw 2%Z (1 # 50)%Q) loaded5)) = Some c2 ∧
    sublist (points c1) (points c2).
Proof.
  apply (remove_outliers_radius_monotone Scenario.sqrt_approx loaded5 cloud5
           3%Z 2%Z (1 # 100)%Q (1 # 50)%Q).
  - reflexivity.
  - reflexivity.
  - lia.
  - vm_compute. discriminate.
Defined.

Lemma remove_outliers_radius_few_points_witness :
  ∃ c1, Processor.remove_outliers Scenario.sqrt_approx Processor.Radius
          Processor.no_kwargs loaded5
        = (true, Processor.set_cloud loaded5 c1) ∧
        points c1 = [] ∧ (colors c1 = None ∨ colors c1 = Some []).
Proof.
  apply (remove_outliers_radius_few_points Scenario.sqrt_approx Processor.no_kwargs
           loaded5 cloud5).
  - reflexivity.
  - reflexivity.
  - simpl. lia.
  - simpl. lia.
Defined.

(** ** The post-processing pipeline with the shipped configuration *)

Section PipelineMore.
Import Processor.
Variable T : trimesh_api.
Variable fsqrt : Q → Q.

Lemma downsample_keeps_mesh v p :
  mesh_ (snd (downsample_point_cloud v p)) = mesh_ p.
Proof.
  unfold downsample_point_cloud.
  destruct (point_cloud p) as [c|]; [|done].
  destruct (Np.take_indices (points c) _); [|done].
  destruct (colors c) as [cs|]; [|done].
  by destruct (Np.take_indices cs _).
Qed.

Lemma remove_outliers_keeps_mesh m kw p :
  mesh_ (snd (remove_outliers fsqrt m kw p)) = mesh_ p.
Proof.
  unfold remove_outliers.
  destruct (point_cloud p) as [c|]; [|done].
  destruct (outlier_mask fsqrt m kw (points c)) as [mask|]; [|done].
  destruct (Np.take_mask (points c) mask); [|done].
  destruct (colors c) as [cs|]; [|done].
  by destruct (Np.take_mask cs mask).
Qed.

(** The point-cloud branch of the pipeline under [MODEL_CONFIG], step by
    step. *)
Lemma process_point_cloud_shipped steps p :
  let d := downsample_point_cloud (2 # 100) p in
  let o := remove_outliers fsqrt Statistical
             {| nb_neighbors := Some 20; std_ratio := Some 2%Q;
                nb_points := None; radius_ := None |} (snd d) in
  process_point_cloud T fsqrt (Some MODEL_CONFIG) steps p
  = ((if fst o then (if fst d then steps ++ ["downsample"] else steps) ++ ["outlier_removal"]
      else (if fst d then steps ++ ["downsample"] else steps)),
     snd o).
Proof.
  cbv zeta. unfold process_point_cloud, MODEL_CONFIG, record_step.
  cbn [mbind option_bind cfg_point_cloud cfg_mesh voxel_size truthy outlier_removal
       statistical_outlier reconstruction_method default fst snd].
  change (Qeq_bool (2 # 100) 0) with false. cbn iota.
  unfold point_cloud_to_mesh.
  destruct (point_cloud (snd (remove_outliers fsqrt Statistical _ _))); reflexivity.
Qed.

(** X8. With the shipped [MODEL_CONFIG] (whose [reconstruction_method] is
    ['poisson'], a name [point_cloud_to_mesh] does not know), an artifact
    that loads as a point cloud never gets a mesh: after
    [process_full_pipeline] the processor has no mesh, ['mesh_creation'] and
    ['simplification'] are not among the steps completed, and every
    [save_mesh] returns [False] and writes nothing. *)
Theorem shipped_pipeline_builds_no_mesh
    (fs0 : gmap string node) (path : string) (c : cloud) :
  fs0 !! path = Some (PlyFile (Some c)) → 0 < length (points c) →
  let rp := process_full_pipeline T fsqrt (Some MODEL_CONFIG) fs0 (init path) in
  mesh_ (snd rp) = None ∧
  ¬ In "mesh_creation" (steps_completed (fst rp)) ∧
  ¬ In "simplification" (steps_completed (fst rp)) ∧
  ∀ out ft fs1, save_mesh out ft (snd rp) fs1 = (false, fs1).
Proof.
  intros Hfile Hpos. cbv zeta.
  unfold process_full_pipeline, load_point_cloud. cbn [model_path init]. rewrite Hfile.
  rewrite bool_decide_true by done.
  rewrite process_point_cloud_shipped.
  set (d := downsample_point_cloud (2 # 100) (set_cloud (init path) c)).
  set (o := remove_outliers fsqrt Statistical _ (snd d)).
  assert (Hmesh : mesh_ (snd o) = None).
  { unfold o. rewrite remove_outliers_keeps_mesh. unfold d.
    by rewrite downsample_keeps_mesh. }
  unfold finish_pipeline, process_mesh. cbn [fst snd]. rewrite Hmesh.
  cbn [mbind option_bind cfg_mesh MODEL_CONFIG simplification_factor truthy smooth].
  change (Qeq_bool (95 # 100) 0) with false. cbn iota. rewrite Hmesh.
  assert (Hsteps : ∀ s, In s (if fst o
                              then (if fst d then ["load_point_cloud"] ++ ["downsample"]
                                    else ["load_point_cloud"]) ++ ["outlier_removal"]
                              else (if fst d then ["load_point_cloud"] ++ ["downsample"]
                                    else ["load_point_cloud"])) →
                        s = "load_point_cloud" ∨ s = "downsample" ∨ s = "outlier_removal").
  { intros s. destruct (fst o), (fst d); simpl; intuition. }
  destruct (get_model_info T (snd o)); cbn [fst snd steps_completed];
    (split; [exact Hmesh|]);
    (split; [intros H%Hsteps; destruct H as [H|[H|H]]; discriminate H|]);
    (split; [intros H%Hsteps; destruct H as [H|[H|H]]; discriminate H|]);
    intros out ft fs1; unfold save_mesh; by rewrite Hmesh.
Qed.

Lemma kept_nonempty v pts : 0 < length pts → 0 < length (kept v pts).
Proof.
  intros Hpos. destruct pts as [|q pts]; [simpl in Hpos; lia|].
  assert (Hin : In (voxel_index v q)
                  (map fst (Np.first_occurrences (keyed v (q :: pts))))).
  { apply first_occurrences_keys. rewrite keyed_fst. by left. }
  unfold kept. rewrite length_map.
  destruct (Np.first_occurrences (keyed v (q :: pts))); [destruct Hin | simpl; lia].
Qed.

(** X9. With the shipped [MODEL_CONFIG], an artifact that loads as a point
    cloud of at most 20 points makes [process_full_pipeline] fail: the
    statistical outlier removal (20 neighbours) empties the cloud, and
    [get_model_info] then raises on the empty array. The steps completed
    are the load, the downsampling and the outlier removal. *)
Theorem shipped_pipeline_fails_on_small_cloud
    (fs0 : gmap string node) (path : string) (c : cloud) :
  fs0 !! path = Some (PlyFile (Some c)) → cloud_wf c →
  0 < length (points c) → length (points c) ≤ 20 →
  let r := fst (process_full_pipeline T fsqrt (Some MODEL_CONFIG) fs0 (init path)) in
  success r = false ∧
  errors r = [zero_size_text] ∧
  steps_completed r = ["load_point_cloud"; "downsample"; "outlier_removal"].
Proof.
  intros Hfile Hwf Hpos Hle. cbv zeta.
  unfold process_full_pipeline, load_point_cloud. cbn [model_path init]. rewrite Hfile.
  rewrite bool_decide_true by done.
  rewrite process_point_cloud_shipped.
  assert (Hd1 : fst (downsample_point_cloud (2 # 100) (set_cloud (init path) c)) = true).
  { rewrite (downsample_flag _ _ c) by done.
    destruct (length (points c)); [lia | done]. }
  assert (Hd2 := downsample_point_cloud_state (2 # 100) (set_cloud (init path) c) c
                   eq_refl Hwf).
  rewrite Hd1, Hd2.
  destruct (statistical_small_emptied fsqrt
              {| nb_neighbors := Some 20; std_ratio := Some 2%Q;
                 nb_points := None; radius_ := None |}
              (set_cloud (set_cloud (init path) c) (downsampled (2 # 100) c))
              (downsampled (2 # 100) c))
    as (c1 & Ho & Hpts & _).
  - reflexivity.
  - by apply downsampled_wf.
  - simpl. by apply kept_nonempty.
  - simpl. unfold kept. rewrite length_map.
    etrans; [apply first_occurrences_length|].
    unfold keyed. rewrite length_zip, length_map. lia.
  - rewrite Ho. cbn [fst snd].
    unfold finish_pipeline, process_mesh. cbn [fst snd set_cloud mesh_ init].
    cbn [mbind option_bind cfg_mesh MODEL_CONFIG simplification_factor truthy smooth].
    change (Qeq_bool (95 # 100) 0) with false. cbn iota.
    unfold get_model_info. cbn [point_cloud set_cloud]. rewrite Hpts.
    cbn [bounding_box mbind option_bind]. done.
Qed.

(** *** Model information *)

Definition point_le (a b : point) : Prop :=
  let '(x1, y1, z1) := a in
  let '(x2, y2, z2) := b in
  (x1 <= x2)%Q ∧ (y1 <= y2)%Q ∧ (z1 <= z2)%Q.

Lemma qmin_le_l a b : (qmin a b <= a)%Q.
Proof.
  unfold qmin. destruct (Qle_bool a b) eqn:H; [apply Qle_refl|].
  destruct (Qlt_le_dec b a) as [Hlt|Hle]; [by apply Qlt_le_weak|].
  apply Qle_bool_iff in Hle. congruence.
Qed.

Lemma qmin_le_r a b : (qmin a b <= b)%Q.
Proof.
  unfold qmin. destruct (Qle_bool a b) eqn:H; [by apply Qle_bool_iff | apply Qle_refl].
Qed.

Lemma qmax_ge_l a b : (a <= qmax a b)%Q.
Proof.
  unfold qmax. destruct (Qle_bool a b) eqn:H; [by apply Qle_bool_iff | apply Qle_refl].
Qed.

Lemma qmax_ge_r a b : (b <= qmax a b)%Q.
Proof.
  unfold qmax. destruct (Qle_bool a b) eqn:H; [apply Qle_refl|].
  destruct (Qlt_le_dec b a) as [Hlt|Hle]; [by apply Qlt_le_weak|].
  apply Qle_bool_iff in Hle. congruence.
Qed.

Lemma point_le_trans a b c : point_le a b → point_le b c → point_le a c.
Proof.
  destruct a as [[x1 y1] z1], b as [[x2 y2] z2], c as [[x3 y3] z3]; simpl.
  intros (?&?&?) (?&?&?). repeat split; by eapply Qle_trans.
Qed.

Lemma fold_pmin_le rest p :
  point_le (fold_left pmin rest p) p ∧
  ∀ q, In q rest → point_le (fold_left pmin rest p) q.
Proof.
  revert p. induction rest as [|r rest IH]; intros p; simpl.
  - split; [|tauto]. destruct p as [[x y] z]. simpl. repeat split; apply Qle_refl.
  - destruct (IH (pmin p r)) as [H1 H2].
    assert (Hp : point_le (pmin p r) p).
    { destruct p as [[x y] z], r as [[x' y'] z']. simpl.
      repeat split; apply qmin_le_l. }
    assert (Hr : point_le (pmin p r) r).
    { destruct p as [[x y] z], r as [[x' y'] z']. simpl.
      repeat split; apply qmin_le_r. }
    split; [by eapply point_le_trans|].
    intros q [<-|Hq]; [by eapply point_le_trans | auto].
Qed.

Lemma fold_pmax_ge rest p :
  point_le p (fold_left pmax rest p) ∧
  ∀ q, In q rest → point_le q (fold_left pmax rest p).
Proof.
  revert p. induction rest as [|r rest IH]; intros p; simpl.
  - split; [|tauto]. destruct p as [[x y] z]. simpl. repeat split; apply Qle_refl.
  - destruct (IH (pmax p r)) as [H1 H2].
    assert (Hp : point_le p (pmax p r)).
    { destruct p as [[x y] z], r as [[x' y'] z']. simpl.
      repeat split; apply qmax_ge_l. }
    assert (Hr : point_le r (pmax p r)).
    { destruct p as [[x y] z], r as [[x' y'] z']. simpl.
      repeat split; apply qmax_ge_r. }
    split; [by eapply point_le_trans|].
    intros q [<-|Hq]; [by eapply point_le_trans | auto].
Qed.

(** X10. [get_model_info] raises exactly when a point cloud is loaded and
    has no points; otherwise the bounding box it reports encloses every
    point of the cloud, component by component, and [num_points] is the
    number of points. *)
Theorem get_model_info_bounding_box (p : processor) :
  (get_model_info T p = None ↔ ∃ c, point_cloud p = Some c ∧ points c = []) ∧
  ∀ c i ci,
    point_cloud p = Some c → get_model_info T p = Some i →
    info_point_cloud i = Some ci →
    num_points ci = length (points c) ∧
    ∀ q, In q (points c) → point_le (bbox_min ci) q ∧ point_le q (bbox_max ci).
Proof.
  unfold get_model_info. split.
  - destruct (point_cloud p) as [c|]; simpl.
    + destruct (points c) as [|q rest] eqn:Hpts; simpl.
      * split; [intros _; by exists c | done].
      * split; [done|]. intros (c' & [= <-] & H). congruence.
    + split; [done|]. intros (c & [=] & _).
  - intros c i ci Hc. rewrite Hc. simpl.
    destruct (points c) as [|q0 rest] eqn:Hpts; simpl; [done|].
    intros [= <-]. simpl. intros [= <-]. simpl. split; [done|].
    destruct (fold_pmin_le rest q0) as [Hm1 Hm2].
    destruct (fold_pmax_ge rest q0) as [HM1 HM2].
    intros q [<-|Hq]; auto.
Qed.

End PipelineMore.

(** *** Markers *)

(** A position the constructor of the sphere takes: three numbers, or one. *)
Definition placeable (a : Processor.annotation) : bool :=
  (length (Processor.position a) =? 3) || (length (Processor.position a) =? 1).

(** The marker built for an annotation: at its position, one number standing
    for all three coordinates, and in the colour of its classification. *)
Definition marker_at (a : Processor.annotation) : marker :=
  {| center :=
       match Processor.position a with
       | [x] => (x, x, x)
       | _ => (nth 0 (Processor.position a) 0%Q,
               nth 1 (Processor.position a) 0%Q,
               nth 2 (Processor.position a) 0%Q)
       end;
     radius := Config.marker_size;
     face_colors := Processor.marker_color (Processor.classification a) |}.

(** The annotations before the first one that cannot be placed. *)
Fixpoint placeable_prefix (anns : list Processor.annotation) : list Processor.annotation :=
  match anns with
  | [] => []
  | a :: rest => if placeable a then a :: placeable_prefix rest else []
  end.

Lemma build_markers_prefix anns acc :
  Processor.build_markers anns acc
  = (forallb placeable anns, acc ++ map marker_at (placeable_prefix anns)).
Proof.
  revert acc. induction anns as [|a anns IH]; intros acc; simpl.
  - by rewrite app_nil_r.
  - unfold placeable at 1 3.
    destruct (Processor.position a) as [|x [|y [|z [|? ?]]]] eqn:Hp; simpl;
      rewrite ?app_nil_r; try reflexivity.
    + rewrite IH, <- app_assoc. simpl. unfold marker_at at 2. by rewrite Hp.
    + rewrite IH, <- app_assoc. simpl. unfold marker_at at 2. by rewrite Hp.
Qed.

(** X11. In a package where the overlay settings can be imported,
    [add_crack_markers] replaces the markers of the processor (it does not
    add to those of an earlier call) and builds one marker per annotation,
    in order, at the annotation's position (a position of one number is
    broadcast to the three coordinates) and in the colour of its
    classification, up to the first annotation whose position has neither
    three numbers nor one; it stops there, keeping the markers built so
    far, and returns [True] exactly when every position could be placed. *)
Theorem add_crack_markers_builds_prefix
    (anns : list Processor.annotation) (p : Processor.processor) :
  Processor.add_crack_markers true anns p
  = (forallb placeable anns,
     Processor.set_markers p (map marker_at (placeable_prefix anns))) ∧
  length (Processor.markers (snd (Processor.add_crack_markers true anns p))) ≤ length anns ∧
  (forallb placeable anns = true →
   length (Processor.markers (snd (Processor.add_crack_markers true anns p))) = length anns).
Proof.
  assert (H : Processor.add_crack_markers true anns p
              = (forallb placeable anns,
                 Processor.set_markers p (map marker_at (placeable_prefix anns)))).
  { unfold Processor.add_crack_markers. cbn [negb]. by rewrite build_markers_prefix. }
  split; [exact H|].
  rewrite H. cbn [snd Processor.markers Processor.set_markers]. rewrite length_map.
  clear H. induction anns as [|a anns IH]; simpl; [split; [lia|done]|].
  destruct IH as [IH1 IH2].
  destruct (placeable a); simpl; split; try lia; try done.
  intros Hall. by rewrite IH2.
Qed.

(** Three annotations, the second with a position of one number: all three
    markers are built, the second at (7, 7, 7). *)
Lemma add_crack_markers_builds_prefix_witness :
  let ann pos := {| Processor.position := pos; Processor.classification := "Major Crack";
                    Processor.transcript := ""; Processor.image_index := 0 |} in
  let anns := [ann [1; 2; 3]%Q; ann [7]%Q; ann [4; 5; 6]%Q] in
  ∃ p', Processor.add_crack_markers true anns (Processor.init "fused.ply") = (true, p') ∧
        map center (Processor.markers p') = [(1, 2, 3); (7, 7, 7); (4, 5, 6)]%Q.
Proof.
  cbv zeta. eexists. split.
  - etrans; [apply add_crack_markers_builds_prefix|]. reflexivity.
  - reflexivity.
Defined.

Definition ply5 : gmap string node := {[ "dense/fused.ply" := PlyFile (Some cloud5) ]}.

Lemma shipped_pipeline_builds_no_mesh_witness :
  let rp := Processor.process_full_pipeline Scenario.no_trimesh Scenario.sqrt_approx
              (Some Processor.MODEL_CONFIG) ply5 (Processor.init "dense/fused.ply") in
  Processor.mesh_ (snd rp) = None ∧
  ¬ In "mesh_creation" (Processor.steps_completed (fst rp)) ∧
  ¬ In "simplification" (Processor.steps_completed (fst rp)) ∧
  ∀ out ft fs1, Processor.save_mesh out ft (snd rp) fs1 = (false, fs1).
Proof.
  apply (shipped_pipeline_builds_no_mesh Scenario.no_trimesh Scenario.sqrt_approx
           ply5 "dense/fused.ply" cloud5).
  - reflexivity.
  - simpl. lia.
Defined.

Lemma shipped_pipeline_fails_on_small_cloud_witness :
  let r := fst (Processor.process_full_pipeline Scenario.no_trimesh Scenario.sqrt_approx
                  (Some Processor.MODEL_CONFIG) ply5 (Processor.init "dense/fused.ply")) in
  Processor.success r = false ∧
  Processor.errors r = [Processor.zero_size_text] ∧
  Processor.steps_completed r = ["load_point_cloud"; "downsample"; "outlier_removal"].
Proof.
  apply (shipped_pipeline_fails_on_small_cloud Scenario.no_trimesh Scenario.sqrt_approx
           ply5 "dense/fused.ply" cloud5).
  - reflexivity.
  - reflexivity.
  - simpl. lia.
  - simpl. lia.
Defined.

(** ** The adapter: what a result says about the run *)

Section ColmapMore.
Variable float_str : Q → string.
Variable run_command : list string → gmap string node → bool * gmap string node.

Let stage1 := Colmap.feature_extraction float_str run_command.
Let stage2 := Colmap.feature_matching float_str run_command.
Let stage3 := Colmap.sparse_reconstruction float_str run_command.
Let stage4 := Colmap.image_undistortion run_command.
Let stage5 := Colmap.dense_reconstruction float_str run_command.
Let export := Colmap.export_model run_command.
Let run := Colmap.full_reconstruction float_str run_command.

Definition sparse_steps : list string :=
  ["feature_extraction"; "feature_matching"; "sparse_reconstruction"; "image_undistortion"].

(** X12. A result with [success = True] tells that the four sparse stages
    all succeeded, in order; its error list is empty or holds the dense
    failure alone; and it records exactly one output file, the model, which
    is the fused cloud of the dense directory (present in the workspace) or
    the [model.ply] the converter was asked to write. *)
Theorem successful_result_shape w config fs :
  let r := fst (run w config fs) in
  let fs' := snd (run w config fs) in
  Colmap.success r = true →
  (Colmap.steps_completed r = sparse_steps ++ ["dense_reconstruction"] ∧ Colmap.errors r = []
   ∨ Colmap.steps_completed r = sparse_steps ∧
     Colmap.errors r = ["Dense reconstruction failed"]) ∧
  ∃ path, Colmap.output_files r = [("model", path)] ∧
          (path = path_join (Colmap.dense_path w) "fused.ply" ∧ exists_ fs' path = true
           ∨ path = path_join (Colmap.workspace w) "model.ply").
Proof.
  cbv zeta. unfold run, Colmap.full_reconstruction.
  fold stage1 stage2 stage3 stage4 stage5 export.
  destruct (stage1 w config fs) as [[] fs1]; cbn [negb]; [|discriminate].
  destruct (stage2 w config fs1) as [[] fs2]; cbn [negb]; [|discriminate].
  destruct (stage3 w config fs2) as [[] fs3]; cbn [negb]; [|discriminate].
  destruct (stage4 w fs3) as [[] fs4]; cbn [negb]; [|discriminate].
  destruct (stage5 w config fs4) as [ok5 fs5].
  unfold export, Colmap.export_model.
  destruct (exists_ fs5 (path_join (Colmap.dense_path w) "fused.ply")) eqn:Hdense.
  - intros _. destruct ok5; simpl; (split; [tauto|]); eexists; split; try reflexivity;
      left; done.
  - destruct (exists_ fs5 (path_join (Colmap.sparse_path w) "0")); cbn [negb].
    + destruct (run_command _ fs5) as [[] fs6]; [|by destruct ok5].
      intros _. destruct ok5; simpl; (split; [tauto|]); eexists; split; try reflexivity;
        right; done.
    + by destruct ok5.
Qed.

(** X13. A failed result need not carry an error message: [success] is
    false with an empty error list exactly when all five stages succeeded
    and the export gave no path (no fused cloud in the workspace, and the
    sparse model missing or its conversion failed). *)
Theorem failure_without_error_message w config fs :
  let s1 := stage1 w config fs in
  let s2 := stage2 w config (snd s1) in
  let s3 := stage3 w config (snd s2) in
  let s4 := stage4 w (snd s3) in
  let s5 := stage5 w config (snd s4) in
  let r := fst (run w config fs) in
  (Colmap.success r = false ∧ Colmap.errors r = []) ↔
  (fst s1 = true ∧ fst s2 = true ∧ fst s3 = true ∧ fst s4 = true ∧ fst s5 = true ∧
   fst (export w (snd s5)) = None).
Proof.
  cbv zeta. unfold run, Colmap.full_reconstruction.
  fold stage1 stage2 stage3 stage4 stage5 export.
  destruct (stage1 w config fs) as [[] fs1]; cbn [negb fst snd];
    [| split; [intros [_ [=]] | intros ([=] & _)]].
  destruct (stage2 w config fs1) as [[] fs2]; cbn [negb fst snd];
    [| split; [intros [_ [=]] | intros (_ & [=] & _)]].
  destruct (stage3 w config fs2) as [[] fs3]; cbn [negb fst snd];
    [| split; [intros [_ [=]] | intros (_ & _ & [=] & _)]].
  destruct (stage4 w fs3) as [[] fs4]; cbn [negb fst snd];
    [| split; [intros [_ [=]] | intros (_ & _ & _ & [=] & _)]].
  destruct (stage5 w config fs4) as [[] fs5]; cbn [negb fst snd];
    destruct (export w fs5) as [[path|] fs6]; cbn [fst snd]; simpl;
    intuition congruence.
Qed.

End ColmapMore.

Lemma successful_result_shape_witness :
  let run := Colmap.full_reconstruction Scenario.render_float
               (Scenario.engine false true Scenario.no_cloud Scenario.line25)
               Scenario.wrapper0 (Some Config.COLMAP_CONFIG) Scenario.workspace0 in
  Colmap.steps_completed (fst run) = sparse_steps ∧
  Colmap.errors (fst run) = ["Dense reconstruction failed"] ∧
  Colmap.output_files (fst run) = [("model", "sessions/session_1700000000/model.ply")].
Proof.
  cbv zeta.
  destruct (successful_result_shape Scenario.render_float
              (Scenario.engine false true Scenario.no_cloud Scenario.line25)
              Scenario.wrapper0 (Some Config.COLMAP_CONFIG) Scenario.workspace0)
    as [_ _].
  - vm_compute. reflexivity.
  - repeat split; vm_compute; reflexivity.
Defined.

(** ** Jobs: what a thread writes *)

Section JobFrame.
Import Routes Handlers.
Variable E : externals.

(** Two states that differ in the file system and in the contents of the
    status records at most. *)
Definition same_sessions (w w' : world) : Prop :=
  session_heap w' = session_heap w ∧
  active_sessions w' = active_sessions w ∧
  reconstruction_status w' = reconstruction_status w ∧
  colmap_groups w' = colmap_groups w ∧
  threads w' = threads w ∧
  length (status_heap w') = length (status_heap w).

Lemma same_sessions_refl w : same_sessions w w.
Proof. by repeat split. Qed.

Lemma same_sessions_write j f w0 w :
  same_sessions w0 w → same_sessions w0 (write_status j f w).
Proof.
  intros (?&?&?&?&?&?). unfold write_status.
  destruct (status_ref j); [|by repeat split].
  repeat split; simpl; try done. by rewrite length_alter.
Qed.

Lemma same_sessions_fs w0 w f : same_sessions w0 w → same_sessions w0 (set_fs w f).
Proof. intros (?&?&?&?&?&?). by repeat split. Qed.

Lemma same_sessions_fail j e w0 w :
  same_sessions w0 w → same_sessions w0 (snd (fail j e w)).
Proof. intros H. unfold fail. simpl. by apply same_sessions_write. Qed.

Lemma job_step_leaves_sessions_aux (now : Q) (j : job) (w : world) :
  same_sessions w (snd (job_step E now j w)).
Proof.
  unfold job_step.
  destruct (session_heap w !! session_ref j) as [s|]; [|apply same_sessions_refl].
  destruct (at_phase j).
  - destruct (mkdir _ _).
    + apply same_sessions_write, same_sessions_fs, same_sessions_refl.
    + apply same_sessions_fail, same_sessions_refl.
  - destruct (Colmap.init _ _ _) as [[c fs1]|].
    + destruct (Colmap.full_reconstruction _ _ _ _ _) as [r fs2].
      destruct (negb _).
      * apply same_sessions_fail, same_sessions_fs, same_sessions_refl.
      * apply same_sessions_write, same_sessions_fs, same_sessions_refl.
    + apply same_sessions_fail, same_sessions_refl.
  - destruct (Processor.process_full_pipeline _ _ _ _ _) as [r p].
    destruct (negb _).
    + apply same_sessions_fail, same_sessions_refl.
    + apply same_sessions_write, same_sessions_refl.
  - destruct (processor_ j); [|apply same_sessions_refl].
    destruct (annotations s).
    + apply same_sessions_write, same_sessions_refl.
    + destruct (Processor.add_crack_markers _ _ _).
      apply same_sessions_write, same_sessions_refl.
  - destruct (processor_ j) as [p|]; [|apply same_sessions_refl].
    destruct (Processor.save_mesh _ _ p (fs w)) as [b1 fs1].
    destruct (Processor.save_mesh _ _ p fs1) as [b2 fs2].
    destruct (Processor.save_mesh _ _ p fs2) as [b3 fs3].
    apply same_sessions_write, same_sessions_fs, same_sessions_refl.
  - rewrite session_has_no_session_id.
    apply same_sessions_fail, same_sessions_refl.
  - apply same_sessions_refl.
Qed.

(** X14. A job thread never touches session data: a step of
    [run_reconstruction], in whatever phase, leaves the session records,
    both registries, the engine settings and the set of threads as they
    are. It writes to the file system and into status records only. *)
Theorem job_step_leaves_sessions (now : Q) (j : job) (w : world) :
  let w' := snd (job_step E now j w) in
  session_heap w' = session_heap w ∧
  active_sessions w' = active_sessions w ∧
  reconstruction_status w' = reconstruction_status w ∧
  colmap_groups w' = colmap_groups w ∧
  threads w' = threads w ∧
  length (status_heap w') = length (status_heap w).
Proof.
  change (same_sessions w (snd (job_step E now j w))).
  unfold job_step.
  destruct (session_heap w !! session_ref j) as [s|]; [|apply same_sessions_refl].
  destruct (at_phase j).
  - destruct (mkdir _ _).
    + apply same_sessions_write, same_sessions_fs, same_sessions_refl.
    + apply same_sessions_fail, same_sessions_refl.
  - destruct (Colmap.init _ _ _) as [[c fs1]|].
    + destruct (Colmap.full_reconstruction _ _ _ _ _) as [r fs2].
      destruct (negb _).
      * apply same_sessions_fail, same_sessions_fs, same_sessions_refl.
      * apply same_sessions_write, same_sessions_fs, same_sessions_refl.
    + apply same_sessions_fail, same_sessions_refl.
  - destruct (Processor.process_full_pipeline _ _ _ _ _) as [r p].
    destruct (negb _).
    + apply same_sessions_fail, same_sessions_refl.
    + apply same_sessions_write, same_sessions_refl.
  - destruct (processor_ j); [|apply same_sessions_refl].
    destruct (annotations s).
    + apply same_sessions_write, same_sessions_refl.
    + destruct (Processor.add_crack_markers _ _ _).
      apply same_sessions_write, same_sessions_refl.
  - destruct (processor_ j) as [p|]; [|apply same_sessions_refl].
    destruct (Processor.save_mesh _ _ p (fs w)) as [b1 fs1].
    destruct (Processor.save_mesh _ _ p fs1) as [b2 fs2].
    destruct (Processor.save_mesh _ _ p fs2) as [b3 fs3].
    apply same_sessions_write, same_sessions_fs, same_sessions_refl.
  - rewrite session_has_no_session_id.
    apply same_sessions_fail, same_sessions_refl.
  - apply same_sessions_refl.
Qed.

End JobFrame.

(** ** The status records of the jobs *)

Section StatusInvariant.
Import Routes Handlers.
Variable E : externals.

(** What holds of every status record a server ever has. *)
Definition status_ok (st : job_status) : Prop :=
  js_status st ∈ ["queued"; "running"; "failed"] ∧
  (0 ≤ progress st ≤ 95)%Z ∧
  output_files st = None ∧
  completed_at st = None.

Definition statuses_ok (w : world) : Prop := Forall status_ok (status_heap w).

Ltac one_of :=
  repeat first [apply list_elem_of_here | apply list_elem_of_further].

Lemma statuses_ok_write j f w :
  (∀ st, status_ok st → status_ok (f st)) →
  statuses_ok w → statuses_ok (write_status j f w).
Proof.
  intros Hf H. unfold write_status. destruct (status_ref j); [|done].
  unfold statuses_ok. simpl. apply Forall_alter; [done|]. intros st _. apply Hf.
Qed.

Lemma statuses_ok_fail j e w : statuses_ok w → statuses_ok (snd (fail j e w)).
Proof.
  intros H. unfold fail. simpl. apply statuses_ok_write; [|done].
  intros st (H1 & H2 & H3 & H4). unfold status_ok. simpl.
  repeat split; try done; try lia. one_of.
Qed.

Ltac solve_status :=
  apply statuses_ok_write; [|done];
  let st := fresh "st" in
  intros st (? & ? & ? & ?); unfold status_ok; simpl;
  repeat split; try done; try lia; try one_of.

Lemma status_write_ok f st : status_write f → status_ok st → status_ok (f st).
Proof.
  intros Hf (H1 & H2 & H3 & H4).
  destruct Hf as [| |step|m|n Hn|e]; unfold status_ok; simpl;
    repeat split; try done; try lia; try one_of.
  all: apply list_elem_of_In in Hn; simpl in Hn;
    destruct Hn as [<-|[<-|[<-|[<-|[<-|[<-|[]]]]]]]; lia.
Qed.

Lemma job_step_statuses_ok now j w :
  statuses_ok w → statuses_ok (snd (job_step E now j w)).
Proof.
  intros H. unfold job_step.
  destruct (session_heap w !! session_ref j) as [s|]; [|done].
  destruct (at_phase j).
  - destruct (mkdir _ _).
    + solve_status.
    + by apply statuses_ok_fail.
  - destruct (Colmap.init _ _ _) as [[c fs1]|].
    + destruct (Colmap.full_reconstruction _ _ _ _ _) as [r fs2].
      destruct (negb _).
      * by apply statuses_ok_fail.
      * solve_status.
    + by apply statuses_ok_fail.
  - destruct (Processor.process_full_pipeline _ _ _ _ _) as [r p].
    destruct (negb _).
    + by apply statuses_ok_fail.
    + solve_status.
  - destruct (processor_ j); [|done].
    destruct (annotations s).
    + solve_status.
    + destruct (Processor.add_crack_markers _ _ _). solve_status.
  - destruct (processor_ j) as [p|]; [|done].
    destruct (Processor.save_mesh _ _ p (fs w)) as [b1 fs1].
    destruct (Processor.save_mesh _ _ p fs1) as [b2 fs2].
    destruct (Processor.save_mesh _ _ p fs2) as [b3 fs3].
    solve_status.
  - rewrite session_has_no_session_id. by apply statuses_ok_fail.
  - done.
Qed.

Lemma start_session_status_heap req clk w :
  status_heap (snd (start_session E req clk w)) = status_heap w ∧
  reconstruction_status (snd (start_session E req clk w)) = reconstruction_status w ∧
  colmap_groups (snd (start_session E req clk w)) = colmap_groups w.
Proof. unfold start_session. by destruct (mkdir _ _). Qed.

Lemma upload_begin_status_heap req w :
  status_heap (snd (upload_begin E req w)) = status_heap w ∧
  reconstruction_status (snd (upload_begin E req w)) = reconstruction_status w ∧
  colmap_groups (snd (upload_begin E req w)) = colmap_groups w.
Proof.
  unfold upload_begin.
  destruct (_ ≫= _) as [[sid [r s]]|]; [|done].
  destruct (_ <=? _); [done|].
  destruct (nonempty (ur_image req)); [|done].
  by destruct (b64decode E _).
Qed.

Lemma upload_finish_status_heap u now w :
  status_heap (snd (upload_finish u now w)) = status_heap w ∧
  reconstruction_status (snd (upload_finish u now w)) = reconstruction_status w ∧
  colmap_groups (snd (upload_finish u now w)) = colmap_groups w.
Proof. unfold upload_finish. by destruct (_ !! _). Qed.

Lemma delete_session_status_heap sid w :
  status_heap (snd (delete_session sid w)) = status_heap w ∧
  reconstruction_status (snd (delete_session sid w)) = reconstruction_status w ∧
  colmap_groups (snd (delete_session sid w)) = colmap_groups w.
Proof. unfold delete_session. by destruct (lookup_session w sid) as [[r s]|]. Qed.

Lemma start_reconstruction_statuses_ok req clk w :
  statuses_ok w → statuses_ok (snd (start_reconstruction req clk w)).
Proof.
  intros H. unfold start_reconstruction.
  destruct (_ ≫= _) as [[sid [r s]]|]; [|done].
  destruct (_ <? _); [done|].
  unfold statuses_ok. simpl. apply Forall_app. split; [done|].
  apply Forall_singleton. unfold status_ok. simpl.
  repeat split; try done; try lia. one_of.
Qed.

Lemma reachable_statuses_ok w0 w :
  statuses_ok w0 → reachable_from E w0 w → statuses_ok w.
Proof.
  intros H0. induction 1 as [|req clk w _ IH|req w _ IH|u now w _ IH|req clk w _ IH
                             |sid w _ IH|now j w _ IH|j f w Hf _ IH]; [done|..].
  - unfold statuses_ok. by rewrite (proj1 (start_session_status_heap req clk w)).
  - unfold statuses_ok. by rewrite (proj1 (upload_begin_status_heap req w)).
  - unfold statuses_ok. by rewrite (proj1 (upload_finish_status_heap u now w)).
  - by apply start_reconstruction_statuses_ok.
  - unfold statuses_ok. by rewrite (proj1 (delete_session_status_heap sid w)).
  - by apply job_step_statuses_ok.
  - apply statuses_ok_write; [|done]. intros st. by apply status_write_ok.
Qed.

Lemma reachable_status_ok (w : world) (recon_id : string) (st : job_status) :
  reachable E w → get_status recon_id w = Some st → status_ok st.
Proof.
  intros Hw Hst.
  assert (H : statuses_ok w).
  { eapply reachable_statuses_ok; [|exact Hw]. constructor. }
  unfold get_status, lookup_status in Hst.
  destruct (reconstruction_status w !! recon_id) as [r|]; [|done]. simpl in Hst.
  exact (proj1 (Forall_lookup _ _) H r st Hst).
Qed.

(** X15. No job ever completes. Whatever requests are served and whatever
    the threads do, in whatever order, every status that [get_status] can
    show, between two writes of a thread too, is ['queued'], ['running'] or
    ['failed']; progress stays between 0 and 95; and the keys
    ['output_files'] and ['completed_at'] are never set. *)
Theorem no_job_ever_completes (w : world) (recon_id : string) (st : job_status) :
  reachable E w →
  get_status recon_id w = Some st →
  js_status st ∈ ["queued"; "running"; "failed"] ∧
  (0 ≤ progress st ≤ 95)%Z ∧
  output_files st = None ∧
  completed_at st = None.
Proof.
  intros Hw Hst. exact (reachable_status_ok w recon_id st Hw Hst).
Qed.

(** X16. [download_model] never serves a file: on every state the server
    can come to it answers 404 for an unknown id and 400
    ['Reconstruction not completed'] for a known one, for each of the
    three file types and any other. *)
Theorem download_model_never_serves (w : world) (recon_id file_type : string) :
  reachable E w →
  download_model recon_id file_type w
  = match get_status recon_id w with
    | None => Refused 404 "Invalid reconstruction ID"
    | Some _ => Refused 400 "Reconstruction not completed"
    end.
Proof.
  intros Hw. unfold download_model, get_status.
  destruct (lookup_status w recon_id) as [st|] eqn:Hst; [|done].
  destruct (reachable_status_ok w recon_id st Hw Hst) as (H & _).
  destruct (String.eqb_spec (js_status st) "completed") as [Heq|]; [|done].
  rewrite Heq in H. apply list_elem_of_In in H. simpl in H.
  by destruct H as [?|[?|[?|[]]]].
Qed.

End StatusInvariant.

(** ** Uploads *)

Section UploadProperties.
Import Routes Handlers.
Variable E : externals.

Lemma upload_image_reachable w0 req now w :
  reachable_from E w0 w → reachable_from E w0 (snd (upload_image E req now w)).
Proof.
  intros H. unfold upload_image.
  destruct (upload_begin E req w) as [[resp|u] w1] eqn:Hb.
  - change w1 with (snd (inl (B := pending_upload) resp, w1)). rewrite <- Hb.
    by apply reach_upload_begin.
  - apply reach_upload_finish.
    change w1 with (snd (inr (A := response) u, w1)). rewrite <- Hb.
    by apply reach_upload_begin.
Qed.

Lemma served_reachable w : served E w → reachable E w.
Proof.
  induction 1.
  - apply reach_here.
  - by apply reach_start_session.
  - by apply upload_image_reachable.
  - by apply reach_start_reconstruction.
  - by apply reach_delete_session.
  - by apply reach_job_step.
Qed.

Lemma served_uploads n sid cls now w :
  served E w → served E (Scenario.uploads E n sid cls now w).
Proof.
  intros H. unfold Scenario.uploads. induction n as [|n IH]; [done|].
  simpl. by apply served_upload_image.
Qed.

Lemma served_world_with n : served E (Scenario.world_with E n).
Proof. apply served_uploads, served_start_session, served_initial. Qed.

(** The record that [upload_begin] hands to the second half of the handler. *)
Lemma upload_begin_pending req w u w1 :
  upload_begin E req w = (inr u, w1) →
  ∃ sid s bytes,
    ur_session_id req = Some sid ∧
    lookup_session w sid = Some (up_session u, s) ∧
    length (images s) < Config.max_images_per_session ∧
    up_img_num u = length (images s) ∧
    up_filename u = img_name (length (images s)) ∧
    up_path u = path_join (folder s) (img_name (length (images s))) ∧
    up_request u = req ∧
    w1 = set_fs w (<[up_path u := Blob bytes]> (fs w)).
Proof.
  unfold upload_begin.
  destruct (ur_session_id req) as [sid|] eqn:Hsid; [|intros H; discriminate H].
  destruct (nonempty (Some sid)) as [sid'|] eqn:Hne; [|intros H; discriminate H].
  assert (sid' = sid) as ->.
  { destruct sid as [|c sid0]; simpl in Hne; congruence. }
  cbn [mbind option_bind].
  destruct (lookup_session w sid) as [[r s]|] eqn:Hl; [|intros H; discriminate H].
  cbn [fmap option_fmap option_map].
  destruct (Config.max_images_per_session <=? length (images s)) eqn:Hmax; [intros H; discriminate H|].
  apply Nat.leb_gt in Hmax.
  destruct (nonempty (ur_image req)) as [img|]; [|intros H; discriminate H].
  destruct (b64decode E img) as [bytes|]; [|intros H; discriminate H].
  intros [= <- <-]. simpl. by exists sid, s, bytes.
Qed.

Lemma upload_begin_refused req w resp w1 :
  upload_begin E req w = (inl resp, w1) →
  w1 = w ∧ ∃ code e, resp = Error code e ∧ (code = 400 ∨ code = 500).
Proof.
  unfold upload_begin.
  destruct (_ ≫= _) as [[sid [r s]]|]; [|intros [= <- <-]; eauto 6].
  destruct (_ <=? _); [intros [= <- <-]; eauto 6|].
  destruct (nonempty (ur_image req)) as [img|]; [|intros [= <- <-]; eauto 6].
  destruct (b64decode E img) as [bytes|]; [intros H; discriminate H|intros [= <- <-]; eauto 6].
Qed.

Lemma lookup_session_refs w sid r s :
  lookup_session w sid = Some (r, s) →
  active_sessions w !! sid = Some r ∧ session_heap w !! r = Some s.
Proof.
  unfold lookup_session. destruct (active_sessions w !! sid) as [r'|]; [|done]. simpl.
  destruct (session_heap w !! r') as [s'|] eqn:H; [|done]. simpl. by intros [= <- <-].
Qed.

(** An exception of lines 154-162 is an [AttributeError]. *)
Lemma flag_upload_raise u now e :
  flag_upload u now = Raise e → ∃ type_name attr, e = attribute_error_text type_name attr.
Proof.
  unfold flag_upload.
  destruct (img_classification (image_info_of u now)) as [cls|[] ty];
    [|intros [= <-]; by eexists _, _|done].
  destruct (negb _ && negb _); [|done].
  destruct (default (Has no_pose) (ur_camera_pose (up_request u))) as [cp|t ty]; [done|].
  intros [= <-]. by eexists _, _.
Qed.

(** X17. The error answers of [upload_image]. An answer with code 400, and
    the 500 for an image that does not decode, leave the file system, the
    sessions and everything else as they were. The other 500 does not:
    when the classification is a true value that is not a string, or is a
    defect while [camera_pose] is not a dict, the [AttributeError] is
    raised after the file is written and the record appended. The request
    is answered as failed, and the session has one more image, stored
    under the name of the old count, and no new annotation. *)
Theorem upload_image_error_answers
    (req : upload_request) (now : Q) (w w' : world) (code : nat) (e : string) :
  upload_image E req now w = (Error code e, w') →
  (w' = w ∧ (code = 400 ∨ code = 500)) ∨
  (code = 500 ∧
   ∃ sid r s s' bytes type_name attr,
     ur_session_id req = Some sid ∧
     lookup_session w sid = Some (r, s) ∧
     lookup_session w' sid = Some (r, s') ∧
     e = attribute_error_text type_name attr ∧
     length (images s') = S (length (images s)) ∧
     filename <$> last (images s') = Some (img_name (length (images s))) ∧
     annotations s' = annotations s ∧
     fs w' = <[path_join (folder s) (img_name (length (images s))) := Blob bytes]> (fs w)).
Proof.
  unfold upload_image.
  destruct (upload_begin E req w) as [[resp|u] w1] eqn:Hb.
  - intros [= -> ->]. left.
    destruct (upload_begin_refused _ _ _ _ Hb) as (-> & c & e' & [= -> ->] & Hc).
    done.
  - destruct (upload_begin_pending _ _ _ _ Hb)
      as (sid & s & bytes & Hsid & Hl & _ & Hnum & Hname & Hpath & _ & ->).
    destruct (lookup_session_refs _ _ _ _ Hl) as [Hr Hs].
    unfold upload_finish. cbn [session_heap set_fs].
    rewrite list_lookup_alter, Hs. rewrite decide_True by done.
    cbn [fmap option_fmap option_map].
    destruct (flag_upload u now) as [a| |e0] eqn:Hf;
      [intros H; discriminate H|intros H; discriminate H|].
    intros [= <- <- <-]. right. split; [done|].
    destruct (flag_upload_raise _ _ _ Hf) as (ty & attr & ->).
    exists sid, (up_session u), s, (record_upload u now s), bytes, ty, attr.
    split; [done|]. split; [done|].
    split.
    { unfold lookup_session. cbn [active_sessions session_heap set_session_heap set_fs].
      rewrite Hr. cbn [mbind option_bind].
      rewrite list_lookup_alter, Hs. by rewrite decide_True. }
    split; [done|].
    unfold record_upload. rewrite Hf.
    cbn [images annotations add_image]. rewrite length_app, last_snoc.
    cbn [length fmap option_fmap option_map filename image_info_of fs set_session_heap set_fs].
    rewrite Hname, Hpath.
    split; [lia|]. done.
Qed.

(** Whether the handler records a defect for this request. *)
Definition flagged (req : upload_request) : bool :=
  match ur_classification req with
  | Some (Has cls) => negb (String.eqb cls "") && negb (benign cls)
  | _ => false
  end.

Lemma flag_upload_flagged u now :
  match flag_upload u now with
  | Annotate _ => flagged (up_request u) = true
  | Skip => flagged (up_request u) = false
  | Raise _ => True
  end.
Proof.
  unfold flag_upload, flagged, image_info_of. cbn [img_classification].
  destruct (ur_classification (up_request u)) as [[cls|[] ty]|];
    cbn [default from_option id]; try done.
  destruct (negb (String.eqb cls "") && negb (benign cls)); [|done].
  by destruct (default (Has no_pose) (ur_camera_pose (up_request u))).
Qed.

(** X18. An accepted upload. When [upload_image] answers with the counts
    [n] and [a], the request named a known session that had [n - 1] images,
    fewer than the limit; the session now has [n] images and [a]
    annotations, one more annotation than before exactly when the request
    carries a classification that is not empty and not, read without case,
    plain, normal or unknown; the new record is the last one and is named
    after the old count; the one file written is that image in the session
    folder; and no other session, no registry and no status is touched. *)
Theorem upload_image_accepted
    (req : upload_request) (now : Q) (w w' : world) (n a : nat) (msg : string) :
  upload_image E req now w = (ImageUploaded n a msg, w') →
  ∃ sid r s s' bytes,
    ur_session_id req = Some sid ∧
    lookup_session w sid = Some (r, s) ∧
    lookup_session w' sid = Some (r, s') ∧
    length (images s) < Config.max_images_per_session ∧
    n = S (length (images s)) ∧
    length (images s') = n ∧
    length (annotations s') = a ∧
    a = length (annotations s) + (if flagged req then 1 else 0) ∧
    filename <$> last (images s') = Some (img_name (length (images s))) ∧
    msg = "Image " +:+ Py.str_of_nat (length (images s)) +:+ " uploaded successfully" ∧
    fs w' = <[path_join (folder s) (img_name (length (images s))) := Blob bytes]> (fs w) ∧
    (∀ r', r' ≠ r → session_heap w' !! r' = session_heap w !! r') ∧
    active_sessions w' = active_sessions w ∧
    status_heap w' = status_heap w ∧
    reconstruction_status w' = reconstruction_status w ∧
    threads w' = threads w.
Proof.
  unfold upload_image.
  destruct (upload_begin E req w) as [[resp|u] w1] eqn:Hb.
  { intros [= -> ->].
    by destruct (upload_begin_refused _ _ _ _ Hb) as (_ & c & e' & ? & _). }
  destruct (upload_begin_pending _ _ _ _ Hb)
    as (sid & s & bytes & Hsid & Hl & Hlt & Hnum & Hname & Hpath & Hreq & ->).
  destruct (lookup_session_refs _ _ _ _ Hl) as [Hr Hs].
  unfold upload_finish. cbn [session_heap set_fs].
  rewrite list_lookup_alter, Hs. rewrite decide_True by done.
  cbn [fmap option_fmap option_map].
  pose proof (flag_upload_flagged u now) as Hflag. rewrite Hreq in Hflag.
  assert (Hgoal :
    n = length (images (record_upload u now s)) →
    a = length (annotations (record_upload u now s)) →
    msg = "Image " +:+ Py.str_of_nat (up_img_num u) +:+ " uploaded successfully" →
    w' = set_session_heap
           (set_fs w (<[up_path u := Blob bytes]> (fs w)))
           (alter (record_upload u now) (up_session u) (session_heap w)) →
    (∀ e0, flag_upload u now ≠ Raise e0) →
    ∃ sid r s s' bytes,
      ur_session_id req = Some sid ∧
      lookup_session w sid = Some (r, s) ∧
      lookup_session w' sid = Some (r, s') ∧
      length (images s) < Config.max_images_per_session ∧
      n = S (length (images s)) ∧
      length (images s') = n ∧
      length (annotations s') = a ∧
      a = length (annotations s) + (if flagged req then 1 else 0) ∧
      filename <$> last (images s') = Some (img_name (length (images s))) ∧
      msg = "Image " +:+ Py.str_of_nat (length (images s)) +:+ " uploaded successfully" ∧
      fs w' = <[path_join (folder s) (img_name (length (images s))) := Blob bytes]> (fs w) ∧
      (∀ r', r' ≠ r → session_heap w' !! r' = session_heap w !! r') ∧
      active_sessions w' = active_sessions w ∧
      status_heap w' = status_heap w ∧
      reconstruction_status w' = reconstruction_status w ∧
      threads w' = threads w).
  { intros -> -> -> -> Hno.
    exists sid, (up_session u), s, (record_upload u now s), bytes.
    split; [done|]. split; [done|].
    split.
    { unfold lookup_session. cbn [active_sessions session_heap set_session_heap set_fs].
      rewrite Hr. cbn [mbind option_bind].
      rewrite list_lookup_alter, Hs. by rewrite decide_True. }
    split; [done|].
    unfold record_upload.
    destruct (flag_upload u now) as [a0| |e0] eqn:Hf; [| |by destruct (Hno e0)];
      cbn [images annotations add_image add_annotation];
      rewrite ?length_app, last_snoc;
      cbn [length fmap option_fmap option_map filename image_info_of fs
           set_session_heap set_fs session_heap active_sessions status_heap
           reconstruction_status threads];
      rewrite Hflag, Hnum, Hname, Hpath;
      repeat (split; [first [done | lia]|]);
      (split; [|done]);
      intros r' Hne; by rewrite list_lookup_alter_ne. }
  destruct (flag_upload u now) as [a0| |e0] eqn:Hf.
  - intros [= <- <- <- <-]. apply Hgoal; try done.
  - intros [= <- <- <- <-]. apply Hgoal; try done.
  - intros H; discriminate H.
Qed.

End UploadProperties.

(** ** Sessions *)

Section SessionInvariant.
Import Routes Handlers.
Variable E : externals.

(** What holds of every session when uploads are served one at a time. *)
Definition session_ok (s : session) : Prop :=
  length (images s) ≤ Config.max_images_per_session ∧
  filename <$> images s = img_name <$> seq 0 (length (images s)) ∧
  Forall (λ i, path i = path_join (folder s) (filename i)) (images s) ∧
  length (annotations s) ≤ length (images s) ∧
  Forall (λ a, ∃ i, images s !! Processor.image_index a = Some i ∧
                    img_classification i = Has (Processor.classification a) ∧
                    benign (Processor.classification a) = false)
         (annotations s).

Definition sessions_ok (w : world) : Prop := Forall session_ok (session_heap w).

Lemma flag_upload_annotate u now a :
  flag_upload u now = Annotate a →
  Processor.image_index a = up_img_num u ∧
  img_classification (image_info_of u now) = Has (Processor.classification a) ∧
  benign (Processor.classification a) = false.
Proof.
  unfold flag_upload.
  destruct (img_classification (image_info_of u now)) as [cls|[] ty]; [|done|done].
  destruct (negb (String.eqb cls "") && negb (benign cls)) eqn:Hflag; [|done].
  destruct (default (Has no_pose) (ur_camera_pose (up_request u))) as [cp|t ty]; [|done].
  intros [= <-]. cbn. split; [done|]. split; [done|].
  apply andb_true_iff in Hflag as [_ Hb]. by apply negb_true_iff in Hb.
Qed.

Lemma record_upload_ok (u : pending_upload) (now : Q) (s : session) :
  length (images s) < Config.max_images_per_session →
  up_img_num u = length (images s) →
  up_filename u = img_name (length (images s)) →
  up_path u = path_join (folder s) (img_name (length (images s))) →
  session_ok s → session_ok (record_upload u now s).
Proof.
  intros Hlt Hnum Hname Hpath (H1 & H2 & H3 & H4 & H5).
  assert (Hold : Forall (λ a, ∃ i,
             (images s ++ [image_info_of u now]) !! Processor.image_index a = Some i ∧
             img_classification i = Has (Processor.classification a) ∧
             benign (Processor.classification a) = false) (annotations s)).
  { eapply Forall_impl; [exact H5|]. intros a (i & Hi & Hc & Hb).
    exists i. split; [|done]. by apply lookup_app_l_Some. }
  assert (Himg : session_ok (add_image s (image_info_of u now))).
  { unfold session_ok. cbn [images annotations folder add_image].
    rewrite length_app. cbn [length]. rewrite Nat.add_1_r.
    split; [lia|].
    split; [rewrite seq_S, !fmap_app, H2; cbn; by rewrite Hname|].
    split.
    { apply Forall_app. split; [done|]. apply Forall_singleton. cbn.
      by rewrite Hpath, Hname. }
    split; [lia|done]. }
  unfold record_upload.
  destruct (flag_upload u now) as [a| |e] eqn:Hf; [|done|done].
  destruct (flag_upload_annotate _ _ _ Hf) as (Hi & Hc & Hb).
  destruct Himg as (G1 & G2 & G3 & G4 & G5).
  unfold session_ok. cbn [images annotations folder add_image add_annotation] in *.
  split; [done|]. split; [done|]. split; [done|].
  rewrite !length_app in *. cbn [length] in *.
  split; [lia|].
  apply Forall_app. split; [done|]. apply Forall_singleton.
  exists (image_info_of u now). rewrite Hi, Hnum.
  split; [by apply list_lookup_middle|]. by split.
Qed.

Lemma upload_image_sessions_ok req now w :
  sessions_ok w → sessions_ok (snd (upload_image E req now w)).
Proof.
  intros H. unfold upload_image.
  destruct (upload_begin E req w) as [[resp|u] w1] eqn:Hb.
  - by destruct (upload_begin_refused E _ _ _ _ Hb) as (-> & _).
  - destruct (upload_begin_pending E _ _ _ _ Hb)
      as (sid & s & bytes & _ & Hl & Hlt & Hnum & Hname & Hpath & _ & ->).
    unfold lookup_session in Hl.
    destruct (active_sessions w !! sid) as [r|]; [|done]. simpl in Hl.
    destruct (session_heap w !! r) as [s0|] eqn:Hs; [|done].
    unfold upload_finish. simpl.
    injection Hl as <- <-. rewrite list_lookup_alter, Hs.
    rewrite decide_True by done. simpl.
    unfold sessions_ok. simpl. apply Forall_alter; [done|].
    intros x Hx Hok. rewrite Hs in Hx. injection Hx as <-.
    by apply record_upload_ok.
Qed.

Lemma served_sessions_ok w : served E w → sessions_ok w.
Proof.
  induction 1 as [|req clk w _ IH|req now w _ IH|req clk w _ IH|sid w _ IH|now j w _ IH].
  - constructor.
  - unfold start_session. destruct (mkdir _ _); [|done].
    unfold sessions_ok. simpl. apply Forall_app. split; [done|].
    apply Forall_singleton. unfold session_ok. simpl.
    repeat split; try done; try lia; constructor.
  - by apply upload_image_sessions_ok.
  - unfold start_reconstruction.
    destruct (_ ≫= _) as [[sid [r s]]|]; [|done].
    by destruct (_ <? _).
  - unfold delete_session. by destruct (lookup_session w sid) as [[r s]|].
  - unfold sessions_ok.
    by rewrite (proj1 (job_step_leaves_sessions_aux E now j w)).
Qed.

Lemma img_names_distinct :
  NoDup (img_name <$> seq 0 Config.max_images_per_session).
Proof. apply (bool_decide_unpack _). vm_compute. reflexivity. Qed.

(** X19. With uploads served one at a time, every session the server has
    ever made, deleted or not, keeps to the limit of 200 images; its image
    records are named [img_0000.jpg], [img_0001.jpg], ... in order, so no
    two share a file name, and each path is that name in the session
    folder; it has no more annotations than images; and every annotation
    points at an image record of its own classification, which is not a
    benign one. *)
Theorem served_sessions_are_well_formed (w : world) (r : nat) (s : session) :
  served E w →
  session_heap w !! r = Some s →
  length (images s) ≤ 200 ∧
  filename <$> images s = img_name <$> seq 0 (length (images s)) ∧
  NoDup (filename <$> images s) ∧
  Forall (λ i, path i = path_join (folder s) (filename i)) (images s) ∧
  length (annotations s) ≤ length (images s) ∧
  Forall (λ a, ∃ i, images s !! Processor.image_index a = Some i ∧
                    img_classification i = Has (Processor.classification a) ∧
                    benign (Processor.classification a) = false)
         (annotations s).
Proof.
  intros Hw Hs.
  destruct (proj1 (Forall_lookup _ _) (served_sessions_ok w Hw) r s Hs)
    as (H1 & H2 & H3 & H4 & H5).
  repeat split; try done.
  rewrite H2.
  pose proof img_names_distinct as Hnd.
  replace Config.max_images_per_session
    with (length (images s) + (Config.max_images_per_session - length (images s)))
    in Hnd by lia.
  rewrite seq_app, fmap_app in Hnd. by apply NoDup_app in Hnd as (Hnd & _).
Qed.

End SessionInvariant.

(** ** Deleting a session *)

Section DeleteProperties.
Import Routes Handlers.
Variable E : externals.

(** X20. A deleted session is forgotten by the handlers and keeps running
    in its jobs. After [delete_session] has answered with success, the id
    is unknown to [upload_image] and [start_reconstruction], which refuse
    it with 400 and change nothing; nothing is left in the file system at
    or below the session folder, and every other path is as before; every
    other session id resolves as before. The session object itself, the
    threads and the statuses stay: a job started before the deletion goes
    on with the session it was given. *)
Theorem delete_session_forgets_session (sid : string) (w w' : world) :
  delete_session sid w = (Deleted, w') →
  ∃ r s,
    lookup_session w sid = Some (r, s) ∧
    lookup_session w' sid = None ∧
    (∀ req now, ur_session_id req = Some sid →
       upload_image E req now w' = (Error 400 "Invalid session ID", w')) ∧
    (∀ req clk, rr_session_id req = Some sid →
       start_reconstruction req clk w' = (Error 400 "Invalid session ID", w')) ∧
    (∀ p, under (folder s) p = true → fs w' !! p = None) ∧
    (∀ p, under (folder s) p = false → fs w' !! p = fs w !! p) ∧
    (∀ sid', sid' ≠ sid → lookup_session w' sid' = lookup_session w sid') ∧
    session_heap w' = session_heap w ∧
    threads w' = threads w ∧
    status_heap w' = status_heap w ∧
    reconstruction_status w' = reconstruction_status w.
Proof.
  unfold delete_session.
  destruct (lookup_session w sid) as [[r s]|] eqn:Hl; [|intros H; discriminate H].
  intros [= <-]. exists r, s. split; [done|].
  assert (Hgone : lookup_session
            (set_active_sessions (set_fs w (rmtree (fs w) (folder s)))
               (delete sid (active_sessions w))) sid = None).
  { unfold lookup_session. simpl. by rewrite lookup_delete_eq. }
  split; [exact Hgone|].
  split.
  { intros req now Hreq. unfold upload_image, upload_begin. rewrite Hreq.
    destruct sid as [|c sid0]; [reflexivity|].
    cbn [nonempty mbind option_bind]. rewrite Hgone. reflexivity. }
  split.
  { intros req clk Hreq. unfold start_reconstruction. rewrite Hreq.
    destruct sid as [|c sid0]; [reflexivity|].
    cbn [nonempty mbind option_bind]. rewrite Hgone. reflexivity. }
  split.
  { intros p Hp. simpl. unfold rmtree. apply map_lookup_filter_None. right.
    intros x _. simpl. by rewrite Hp. }
  split.
  { intros p Hp. simpl. unfold rmtree.
    destruct (fs w !! p) as [x|] eqn:Hx.
    - apply map_lookup_filter_Some. by split.
    - apply map_lookup_filter_None. by left. }
  split; [|done].
  intros sid' Hne. unfold lookup_session. simpl. by rewrite lookup_delete_ne.
Qed.

End DeleteProperties.

(** ** The quality settings *)

Section QualityProperties.
Import Routes Handlers.
Variable E : externals.

(** [config[section][key]] *)
Definition option_of (section key : string) (c : Config.colmap_config)
  : option Config.cfgval :=
  Config.assoc section c ≫= Config.assoc key.

(** The two options that [start_reconstruction] writes, as a job that runs
    now would read them. *)
Definition settings (w : world) : option Config.cfgval * option Config.cfgval :=
  (option_of "feature_extractor" "SiftExtraction.max_num_features" (colmap_groups w),
   option_of "dense" "max_image_size" (colmap_groups w)).

Definition high_settings : option Config.cfgval * option Config.cfgval :=
  (Some (Config.VInt 16384), Some (Config.VInt 3200)).
Definition low_settings : option Config.cfgval * option Config.cfgval :=
  (Some (Config.VInt 4096), Some (Config.VInt 1600)).

Lemma assoc_set_eq {A} (k : string) (v : A) (l : list (string * A)) :
  Config.assoc k (Config.assoc_set k v l) = Some v.
Proof.
  induction l as [|[k' v'] l IH]; simpl.
  - by rewrite String.eqb_refl.
  - destruct (String.eqb k k') eqn:Hk; simpl.
    + by rewrite String.eqb_refl.
    + by rewrite Hk.
Qed.

Lemma assoc_set_ne {A} (k k' : string) (v : A) (l : list (string * A)) :
  k ≠ k' → Config.assoc k' (Config.assoc_set k v l) = Config.assoc k' l.
Proof.
  intros Hne. induction l as [|[k0 v0] l IH]; simpl.
  - by rewrite (proj2 (String.eqb_neq k' k)).
  - destruct (String.eqb k k0) eqn:Hk; simpl.
    + apply String.eqb_eq in Hk as <-. by rewrite (proj2 (String.eqb_neq k' k)).
    + by rewrite IH.
Qed.

Lemma option_of_set_eq section key n c :
  is_Some (Config.assoc section c) →
  option_of section key (set_option section key n c) = Some (Config.VInt n).
Proof.
  intros [g Hg]. unfold option_of, set_option. rewrite Hg, assoc_set_eq. simpl.
  apply assoc_set_eq.
Qed.

Lemma option_of_set_ne section section' key key' n c :
  section ≠ section' →
  option_of section' key' (set_option section key n c) = option_of section' key' c.
Proof.
  intros Hne. unfold option_of, set_option.
  destruct (Config.assoc section c); [|done]. by rewrite assoc_set_ne.
Qed.

Lemma set_option_keeps_groups section section' key n c :
  is_Some (Config.assoc section' c) →
  is_Some (Config.assoc section' (set_option section key n c)).
Proof.
  intros H. unfold set_option. destruct (Config.assoc section c) eqn:Hg; [|done].
  destruct (String.eqb_spec section section') as [<-|Hne].
  - by rewrite assoc_set_eq.
  - by rewrite assoc_set_ne.
Qed.

(** Both option groups are there. *)
Definition has_groups (c : Config.colmap_config) : Prop :=
  is_Some (Config.assoc "feature_extractor" c) ∧ is_Some (Config.assoc "dense" c).

Definition settings_of (c : Config.colmap_config) :=
  (option_of "feature_extractor" "SiftExtraction.max_num_features" c,
   option_of "dense" "max_image_size" c).

Lemma adjust_quality_settings quality c :
  has_groups c →
  has_groups (adjust_quality quality c) ∧
  settings_of (adjust_quality quality c)
  = if String.eqb quality "high" then high_settings
    else if String.eqb quality "low" then low_settings
    else settings_of c.
Proof.
  intros [Hf Hd]. unfold adjust_quality, settings_of, has_groups.
  destruct (String.eqb quality "high"); [|destruct (String.eqb quality "low")].
  - split; [split; by repeat apply set_option_keeps_groups|].
    rewrite option_of_set_eq by by apply set_option_keeps_groups.
    rewrite option_of_set_ne by done. by rewrite option_of_set_eq.
  - split; [split; by repeat apply set_option_keeps_groups|].
    rewrite option_of_set_eq by by apply set_option_keeps_groups.
    rewrite option_of_set_ne by done. by rewrite option_of_set_eq.
  - done.
Qed.

Lemma start_reconstruction_groups req clk w :
  colmap_groups (snd (start_reconstruction req clk w)) = colmap_groups w ∨
  colmap_groups (snd (start_reconstruction req clk w))
  = adjust_quality (default "medium" (rr_quality req)) (colmap_groups w).
Proof.
  unfold start_reconstruction.
  destruct (_ ≫= _) as [[sid [r s]]|]; [|by left].
  destruct (_ <? _); [by left|]. by right.
Qed.

(** Along any run only [start_reconstruction] writes the options, and it
    writes them through [adjust_quality]. *)
Lemma reachable_groups (P : Config.colmap_config → Prop) w0 w :
  (∀ q c, P c → P (adjust_quality q c)) →
  P (colmap_groups w0) → reachable_from E w0 w → P (colmap_groups w).
Proof.
  intros Hadj H0. induction 1 as [|req clk w _ IH|req w _ IH|u now w _ IH|req clk w _ IH
                                  |sid w _ IH|now j w _ IH|j f w _ _ IH]; [done|..].
  - by rewrite (proj2 (proj2 (start_session_status_heap E req clk w))).
  - by rewrite (proj2 (proj2 (upload_begin_status_heap E req w))).
  - by rewrite (proj2 (proj2 (upload_finish_status_heap u now w))).
  - destruct (start_reconstruction_groups req clk w) as [-> | ->]; [done|by apply Hadj].
  - by rewrite (proj2 (proj2 (delete_session_status_heap sid w))).
  - destruct (job_step_leaves_sessions_aux E now j w) as (_ & _ & _ & -> & _). done.
  - unfold write_status. by destruct (status_ref j).
Qed.

Lemma initial_has_groups : has_groups Config.COLMAP_CONFIG.
Proof. split; by eexists. Qed.

Lemma reachable_has_groups w : reachable E w → has_groups (colmap_groups w).
Proof.
  apply (reachable_groups has_groups).
  - intros q c Hc. by apply adjust_quality_settings.
  - apply initial_has_groups.
Qed.

(** X21. What a quality request leaves behind. An accepted
    [start_reconstruction] with quality ['high'] sets the feature limit to
    16384 and the dense image size to 3200, one with ['low'] sets 4096 and
    1600, and one with ['medium'], with no quality or with any other word
    writes nothing: the options stay as the last ['high'] or ['low']
    request left them. *)
Theorem start_reconstruction_quality_settings
    (req : recon_request) (clk : recon_clock) (w w' : world) (rid : string) (t : Z) :
  reachable E w →
  start_reconstruction req clk w = (ReconstructionStarted rid t, w') →
  settings w'
  = if String.eqb (default "medium" (rr_quality req)) "high" then high_settings
    else if String.eqb (default "medium" (rr_quality req)) "low" then low_settings
    else settings w.
Proof.
  intros Hw%reachable_has_groups.
  unfold start_reconstruction.
  destruct (_ ≫= _) as [[sid [r s]]|]; [|intros H; discriminate H].
  destruct (_ <? _); [intros H; discriminate H|].
  intros [= _ _ <-]. unfold settings. simpl.
  destruct (adjust_quality_settings (default "medium" (rr_quality req)) _ Hw) as [_ Heq].
  exact Heq.
Qed.


End QualityProperties.

(** ** Reconstruction ids *)

Section ReconstructionIds.
Import Routes Handlers.
Variable E : externals.

(** X23. Two reconstructions accepted within the same second get the same
    id, for the same session or for two. The registry then holds the
    status of the second request under that id, which is what [get_status]
    shows; both threads carry the id, and a thread of that id that takes
    its first step from then on binds the status of the second request as
    its own. The registry no longer leads to the status of the first
    request. *)
Theorem start_reconstruction_same_second
    (req1 req2 : recon_request) (clk1 clk2 : recon_clock) (w w1 w2 : world)
    (id1 id2 : string) (t1 t2 : Z) :
  start_reconstruction req1 clk1 w = (ReconstructionStarted id1 t1, w1) →
  Py.int_of_float (t_recon clk2) = Py.int_of_float (t_recon clk1) →
  start_reconstruction req2 clk2 w1 = (ReconstructionStarted id2 t2, w2) →
  id2 = id1 ∧
  reconstruction_status w1 !! id1 = Some (length (status_heap w)) ∧
  reconstruction_status w2 !! id1 = Some (S (length (status_heap w))) ∧
  (∃ st, get_status id1 w2 = Some st ∧
         Some (js_session_id st) = rr_session_id req2 ∧
         js_status st = "queued" ∧ started_at st = t_started clk2) ∧
  (∃ r1 r2, threads w2 = threads w ++ [new_job id1 r1; new_job id1 r2]) ∧
  (∀ now r, is_Some (session_heap w2 !! r) →
     status_ref (fst (job_step E now (new_job id1 r) w2))
     = Some (S (length (status_heap w)))).
Proof.
  unfold start_reconstruction at 1.
  destruct (nonempty (rr_session_id req1) ≫= _) as [[sid1 [r1 s1]]|];
    [|intros H; discriminate H].
  destruct (_ <? _); [intros H; discriminate H|].
  intros [= <- _ <-] Hsec. unfold start_reconstruction.
  destruct (rr_session_id req2) as [sid2|] eqn:Hreq2; [|intros H; discriminate H].
  destruct (nonempty (Some sid2)) as [sid2'|] eqn:Hne; [|intros H; discriminate H].
  assert (sid2' = sid2) as ->.
  { destruct sid2; simpl in Hne; congruence. }
  cbn [mbind option_bind].
  destruct (lookup_session _ sid2) as [[r2 s2]|]; [|intros H; discriminate H].
  cbn [fmap option_fmap option_map].
  destruct (_ <? _); [intros H; discriminate H|].
  intros [= <- _ <-]. rewrite Hsec.
  assert (Hlen : length (status_heap w ++
            [{| js_session_id := sid1; js_status := "queued"; progress := 0;
                message := "Initializing reconstruction..."; started_at := t_started clk1;
                current_step := None; js_errors := []; output_files := None;
                completed_at := None |}]) = S (length (status_heap w))).
  { rewrite length_app. simpl. lia. }
  split; [done|]. cbn [reconstruction_status status_heap threads session_heap
                       set_threads set_reconstruction_status set_status_heap
                       set_colmap_config].
  rewrite Hlen.
  split; [by rewrite lookup_insert_eq|].
  split; [by rewrite lookup_insert_eq|].
  split.
  { eexists. unfold get_status, lookup_status.
    cbn [reconstruction_status status_heap threads session_heap
         set_threads set_reconstruction_status set_status_heap set_colmap_config].
    rewrite lookup_insert_eq. cbn [mbind option_bind].
    split; [rewrite <- Hlen; by apply list_lookup_middle|done]. }
  split.
  { exists r1, r2. by rewrite <- app_assoc. }
  intros now r [s Hs]. unfold job_step.
  cbn [reconstruction_status status_heap threads session_heap
       set_threads set_reconstruction_status set_status_heap set_colmap_config
       new_job session_ref at_phase recon_id bind_status].
  rewrite Hs. rewrite lookup_insert_eq.
  by destruct (mkdir _ _).
Qed.

End ReconstructionIds.

(** ** How every job ends *)

Section JobOutcome.
Import Routes Handlers.
Variable E : externals.
Variable st0 : job_status.
Variable sr : nat.

(** The steps a job has before it. *)
Definition rank (ph : phase) : nat :=
  match ph with
  | Starting => 6 | RunColmap => 5 | RunProcessing => 4
  | AddMarkers => 3 | SaveModel => 2 | SaveMetadata => 1 | Finished => 0
  end.

(** The progress written by the time a phase begins. *)
Definition progress_at (ph : phase) : Z :=
  match ph with
  | Starting => progress st0 | RunColmap => 10 | RunProcessing => 70
  | AddMarkers => 85 | SaveModel => 90 | _ => 95
  end.

Definition progress_values : list Z := [progress st0; 10; 70; 85; 90; 95]%Z.

Definition untouched (st : job_status) : Prop :=
  js_errors st = js_errors st0 ∧ output_files st = output_files st0 ∧
  completed_at st = completed_at st0.

Definition failed_with (j : job) (w : world) : Prop :=
  at_phase j = Finished ∧
  ∃ st e, status_heap w !! sr = Some st ∧
          js_status st = "failed" ∧
          message st = "Reconstruction failed: " +:+ e ∧
          js_errors st = js_errors st0 ++ [e] ∧
          output_files st = output_files st0 ∧
          completed_at st = completed_at st0 ∧
          progress st ∈ progress_values.

Definition under_way (j : job) (w : world) : Prop :=
  at_phase j ≠ Finished ∧
  is_Some (session_heap w !! session_ref j) ∧
  match at_phase j with
  | Starting => reconstruction_status w !! recon_id j = Some sr
  | _ => status_ref j = Some sr
  end ∧
  match at_phase j with
  | AddMarkers | SaveModel => is_Some (processor_ j)
  | _ => True
  end ∧
  ∃ st, status_heap w !! sr = Some st ∧ untouched st ∧ progress st = progress_at (at_phase j).

Lemma progress_at_value ph : progress_at ph ∈ progress_values.
Proof.
  unfold progress_values.
  destruct ph; simpl;
    repeat first [apply list_elem_of_here | apply list_elem_of_further].
Qed.

Lemma fail_failed_with j e w st ph :
  status_ref j = Some sr → status_heap w !! sr = Some st →
  untouched st → progress st = progress_at ph →
  failed_with (fst (fail j e w)) (snd (fail j e w)).
Proof.
  intros Hr Hst (H1 & H2 & H3) Hp. unfold fail, failed_with, write_status.
  cbn [fst snd at_ at_phase]. rewrite Hr. split; [done|].
  exists (upd_error (upd_message (upd_status st "failed") ("Reconstruction failed: " +:+ e)) e), e.
  cbn [status_heap set_status_heap]. rewrite list_lookup_alter, Hst.
  rewrite decide_True by done. simpl.
  repeat split; try done.
  - by rewrite H1.
  - rewrite Hp. apply progress_at_value.
Qed.

Lemma write_under_way j f w st ph :
  status_ref j = Some sr → status_heap w !! sr = Some st →
  untouched st → untouched (f st) → progress (f st) = progress_at ph →
  ph ≠ Finished → ph ≠ Starting →
  is_Some (session_heap w !! session_ref j) →
  match ph with AddMarkers | SaveModel => is_Some (processor_ j) | _ => True end →
  under_way (at_ j ph) (write_status j f w).
Proof.
  intros Hr Hst _ Hf Hp Hph Hph' Hs Hproc. unfold under_way, write_status.
  cbn [at_ at_phase session_ref status_ref processor_ recon_id]. rewrite Hr.
  cbn [session_heap status_heap set_status_heap].
  split; [done|]. split; [done|].
  split; [by destruct ph|]. split; [done|].
  exists (f st). rewrite list_lookup_alter, Hst. by rewrite decide_True.
Qed.

Lemma job_step_progress now j w :
  under_way j w →
  (failed_with (fst (job_step E now j w)) (snd (job_step E now j w)) ∨
   under_way (fst (job_step E now j w)) (snd (job_step E now j w))) ∧
  rank (at_phase (fst (job_step E now j w))) < rank (at_phase j).
Proof.
  intros (Hph & [s Hs] & Href & Hproc & st & Hst & Hun & Hp).
  unfold job_step. rewrite Hs.
  destruct (at_phase j) eqn:Hat; [| | | | | |done].
  - (* Starting *)
    rewrite Href.
    destruct (mkdir _ _) as [fs1|].
    + split; [|simpl; lia]. right. cbn [fst snd].
      eapply (write_under_way _ _ _ st RunColmap); try done;
        try (cbn [set_fs session_heap bind_status session_ref]; by rewrite Hs).
    + split; [|simpl; lia]. left.
      by eapply (fail_failed_with _ _ _ st Starting).
  - (* RunColmap *)
    destruct (Colmap.init _ _ _) as [[c fs1]|].
    + destruct (Colmap.full_reconstruction _ _ _ _ _) as [r fs2].
      destruct (negb _).
      * split; [|simpl; lia]. left.
        by eapply (fail_failed_with _ _ _ st RunColmap).
      * split; [|simpl; lia]. right. cbn [fst snd].
        eapply (write_under_way _ _ _ st RunProcessing); try done;
          try (cbn [set_fs session_heap]; by rewrite Hs).
    + split; [|simpl; lia]. left.
      by eapply (fail_failed_with _ _ _ st RunColmap).
  - (* RunProcessing *)
    destruct (Processor.process_full_pipeline _ _ _ _ _) as [r p].
    destruct (negb _).
    + split; [|simpl; lia]. left.
      by eapply (fail_failed_with _ _ _ st RunProcessing).
    + split; [|simpl; lia]. right. cbn [fst snd].
      pose proof (write_under_way (with_info (with_processor j p) (Processor.info r))
                    (λ st, upd_progress st 85) w st AddMarkers) as H.
      apply H; try done; try (by rewrite Hs).
  - (* AddMarkers *)
    destruct Hproc as [p Hproc]. rewrite Hproc.
    destruct (annotations s).
    + split; [|simpl; lia]. right. cbn [fst snd].
      eapply (write_under_way _ _ _ st SaveModel); try done;
        try (by rewrite Hs); try (by rewrite Hproc).
    + destruct (Processor.add_crack_markers _ _ _) as [ok p'].
      split; [|simpl; lia]. right. cbn [fst snd].
      pose proof (write_under_way (with_processor j p')
                    (λ st, upd_progress (upd_message st "Adding crack markers...") 90)
                    w st SaveModel) as H.
      apply H; try done; try (by rewrite Hs).
  - (* SaveModel *)
    destruct Hproc as [p Hproc]. rewrite Hproc.
    destruct (Processor.save_mesh _ _ p (fs w)) as [b1 fs1].
    destruct (Processor.save_mesh _ _ p fs1) as [b2 fs2].
    destruct (Processor.save_mesh _ _ p fs2) as [b3 fs3].
    split; [|simpl; lia]. right. cbn [fst snd].
    eapply (write_under_way _ _ _ st SaveMetadata); try done;
      try (cbn [set_fs session_heap]; by rewrite Hs).
  - (* SaveMetadata *)
    rewrite session_has_no_session_id.
    split; [|simpl; lia]. left.
    by eapply (fail_failed_with _ _ _ st SaveMetadata).
Qed.

Lemma job_step_finished now j w :
  at_phase j = Finished →
  at_phase (fst (job_step E now j w)) = Finished ∧ snd (job_step E now j w) = w.
Proof.
  intros H. unfold job_step.
  destruct (session_heap w !! session_ref j); [|done]. by rewrite H.
Qed.

Lemma run_steps_fail n now : ∀ j w,
  failed_with j w ∨ under_way j w →
  rank (at_phase j) ≤ n →
  failed_with (fst (run_steps E n now j w)) (snd (run_steps E n now j w)).
Proof.
  induction n as [|n IH]; intros j w H Hrank.
  - destruct H as [H|H]; [done|].
    destruct H as (Hph & _). destruct (at_phase j); simpl in Hrank; try lia. done.
  - simpl. destruct (job_step E now j w) as [j' w'] eqn:Hstep.
    apply IH.
    + destruct H as [[Hph Hf]|H].
      * destruct (job_step_finished now j w Hph) as [Hph' Hw].
        rewrite Hstep in Hph', Hw. simpl in Hph', Hw. subst w'. left. by split.
      * destruct (job_step_progress now j w H) as [Hor _].
        by rewrite Hstep in Hor.
    + destruct H as [[Hph Hf]|H].
      * destruct (job_step_finished now j w Hph) as [Hph' _].
        rewrite Hstep in Hph'. simpl in Hph'. rewrite Hph'. simpl. lia.
      * destruct (job_step_progress now j w H) as [_ Hlt].
        rewrite Hstep in Hlt. simpl in Hlt. lia.
Qed.

End JobOutcome.

Section JobOutcomeTheorem.
Import Routes Handlers.
Variable E : externals.

(** X24. Every job ends as failed. Take a thread as [start_reconstruction]
    starts it, for a reconstruction id that the registry knows and a
    session object that exists: whatever the engine, the mesh library and
    the file system do, [run_reconstruction] run to its end leaves the
    status ['failed'], with one more error than before and the message
    built from it, with progress at the value of the phase that failed and
    never above 95, and with no output files and no completion time
    recorded. *)
Theorem run_reconstruction_always_fails
    (now : Q) (rid : string) (r sr : nat) (w : world) (s : session) (st0 : job_status) :
  session_heap w !! r = Some s →
  reconstruction_status w !! rid = Some sr →
  status_heap w !! sr = Some st0 →
  let jw := run_reconstruction E now (new_job rid r) w in
  at_phase (fst jw) = Finished ∧
  ∃ st e,
    status_heap (snd jw) !! sr = Some st ∧
    js_status st = "failed" ∧
    message st = "Reconstruction failed: " +:+ e ∧
    js_errors st = js_errors st0 ++ [e] ∧
    output_files st = output_files st0 ∧
    completed_at st = completed_at st0 ∧
    progress st ∈ [progress st0; 10; 70; 85; 90; 95]%Z.
Proof.
  intros Hs Hr Hst. cbv zeta. unfold run_reconstruction.
  apply (run_steps_fail E st0 sr 6 now (new_job rid r) w); [|simpl; lia].
  right. unfold under_way. simpl. rewrite Hs.
  split; [done|]. split; [done|]. split; [done|]. split; [done|].
  by exists st0.
Qed.

End JobOutcomeTheorem.

(** ** Examples on the deployment [Scenario.site] *)

Lemma run_steps_reachable (E : Routes.externals) (n : nat) (now : Q) :
  ∀ (j : Routes.job) (w0 w : Routes.world),
    Handlers.reachable_from E w0 w →
    Handlers.reachable_from E w0 (snd (Routes.run_steps E n now j w)).
Proof.
  induction n as [|n IH]; intros j w0 w H; [done|].
  simpl. destruct (Routes.job_step E now j w) as [j' w'] eqn:Hstep.
  apply IH. change w' with (snd (j', w')). rewrite <- Hstep.
  by apply Handlers.reach_job_step.
Qed.

(** The session of ten plain images, its reconstruction requested and the
    job run to its end. *)
Definition finished : Routes.world :=
  snd (Routes.run_reconstruction Scenario.site 1700000200 job0 (started Scenario.site 10)).

Lemma started_reachable (n : nat) : Handlers.reachable Scenario.site (started Scenario.site n).
Proof.
  apply Handlers.reach_start_reconstruction, served_reachable, served_world_with.
Qed.

Lemma finished_reachable : Handlers.reachable Scenario.site finished.
Proof. apply run_steps_reachable, started_reachable. Qed.

Lemma no_job_ever_completes_witness :
  ∃ st, Handlers.get_status "recon_1700000100" finished = Some st ∧
        Routes.js_status st ∈ ["queued"; "running"; "failed"] ∧
        (0 ≤ Routes.progress st ≤ 95)%Z ∧
        Routes.output_files st = None ∧
        Routes.completed_at st = None.
Proof.
  destruct (Handlers.get_status "recon_1700000100" finished) as [st|] eqn:Hst;
    [|vm_compute in Hst; discriminate Hst].
  exists st. split; [reflexivity|].
  exact (no_job_ever_completes Scenario.site finished "recon_1700000100" st
           finished_reachable Hst).
Defined.

Lemma download_model_never_serves_witness :
  Handlers.download_model "recon_1700000100" "ply" finished
  = Handlers.Refused 400 "Reconstruction not completed".
Proof.
  rewrite (download_model_never_serves Scenario.site finished "recon_1700000100" "ply"
             finished_reachable).
  vm_compute. reflexivity.
Defined.

(** An upload of a crack whose [camera_pose] is [null]. *)
Definition null_pose : Routes.upload_request :=
  {| Routes.ur_session_id := Some "session_1700000000";
     Routes.ur_image := Some "/9j/4AAQSkZJRg==";
     Routes.ur_camera_pose := Some (Routes.Mistyped false "NoneType");
     Routes.ur_transcript := None;
     Routes.ur_classification := Some (Routes.Has "Major Crack");
     Routes.ur_confidence := None |}.

(** It is answered with 500, and the session of three images has four. *)
Example null_pose_upload_is_stored :
  let rw := Routes.upload_image Scenario.site null_pose 1700000002
              (Scenario.world_with Scenario.site 3) in
  fst rw = Routes.Error 500 "'NoneType' object has no attribute 'get'" ∧
  (length <$> (Routes.images <$> Routes.session_heap (snd rw) !! 0)) = Some 4 ∧
  (length <$> (Routes.annotations <$> Routes.session_heap (snd rw) !! 0)) = Some 0 ∧
  Routes.fs (snd rw) !! "sessions/session_1700000000/img_0003.jpg"
    = Some (Blob "/9j/4AAQSkZJRg==").
Proof. cbv zeta. repeat split; vm_compute; reflexivity. Qed.

Lemma upload_image_error_answers_witness :
  let w := Scenario.world_with Scenario.site 3 in
  let w' := snd (Routes.upload_image Scenario.site null_pose 1700000002 w) in
  let e := "'NoneType' object has no attribute 'get'" in
  (w' = w ∧ (500 = 400 ∨ 500 = 500)) ∨
  (500 = 500 ∧
   ∃ sid r s s' bytes type_name attr,
     Routes.ur_session_id null_pose = Some sid ∧
     Routes.lookup_session w sid = Some (r, s) ∧
     Routes.lookup_session w' sid = Some (r, s') ∧
     e = Routes.attribute_error_text type_name attr ∧
     length (Routes.images s') = S (length (Routes.images s)) ∧
     Routes.filename <$> last (Routes.images s')
       = Some (Routes.img_name (length (Routes.images s))) ∧
     Routes.annotations s' = Routes.annotations s ∧
     Routes.fs w'
       = <[path_join (Routes.folder s) (Routes.img_name (length (Routes.images s)))
           := Blob bytes]> (Routes.fs w)).
Proof.
  cbv zeta.
  apply (upload_image_error_answers Scenario.site null_pose 1700000002
           (Scenario.world_with Scenario.site 3)
           (snd (Routes.upload_image Scenario.site null_pose 1700000002
                   (Scenario.world_with Scenario.site 3)))
           500 "'NoneType' object has no attribute 'get'").
  vm_compute. reflexivity.
Defined.

Lemma upload_image_accepted_witness :
  let w' := snd (Routes.upload_image Scenario.site
                   (Scenario.upload "session_1700000000" "Major Crack") 1700000002
                   (Scenario.world_with Scenario.site 3)) in
  ∃ sid r s', Routes.lookup_session w' sid = Some (r, s') ∧
              length (Routes.images s') = 4 ∧
              length (Routes.annotations s') = 1.
Proof.
  cbv zeta.
  edestruct (upload_image_accepted Scenario.site
               (Scenario.upload "session_1700000000" "Major Crack") 1700000002
               (Scenario.world_with Scenario.site 3)
               (snd (Routes.upload_image Scenario.site
                       (Scenario.upload "session_1700000000" "Major Crack") 1700000002
                       (Scenario.world_with Scenario.site 3)))
               4 1 "Image 3 uploaded successfully")
    as (sid & r & s & s' & bytes & _ & _ & H3 & _ & _ & H6 & H7 & _).
  - vm_compute. reflexivity.
  - exists sid, r, s'. split; [exact H3|]. split; [exact H6|exact H7].
Defined.

Lemma served_sessions_are_well_formed_witness :
  let w := snd (Routes.upload_image Scenario.site
                  (Scenario.upload "session_1700000000" "Major Crack") 1700000002
                  (Scenario.world_with Scenario.site 3)) in
  ∃ s, Routes.session_heap w !! 0 = Some s ∧
       length (Routes.images s) ≤ 200 ∧
       NoDup (Routes.filename <$> Routes.images s) ∧
       length (Routes.annotations s) ≤ length (Routes.images s).
Proof.
  cbv zeta.
  destruct (Routes.session_heap _ !! 0) as [s|] eqn:Hs;
    [|vm_compute in Hs; discriminate Hs].
  exists s. split; [reflexivity|].
  destruct (served_sessions_are_well_formed Scenario.site _ 0 s
              (Handlers.served_upload_image Scenario.site _ _ _
                 (served_world_with Scenario.site 3)) Hs)
    as (H1 & _ & H3 & _ & H5 & _).
  split; [exact H1|]. split; [exact H3|exact H5].
Defined.

Lemma delete_session_forgets_session_witness :
  let w' := snd (Handlers.delete_session "session_1700000000" (started Scenario.site 10)) in
  Routes.lookup_session w' "session_1700000000" = None ∧
  Routes.threads w' = Routes.threads (started Scenario.site 10).
Proof.
  cbv zeta.
  edestruct (delete_session_forgets_session Scenario.site "session_1700000000"
               (started Scenario.site 10)
               (snd (Handlers.delete_session "session_1700000000" (started Scenario.site 10))))
    as (r & s & _ & H2 & _ & _ & _ & _ & _ & _ & H9 & _).
  - vm_compute. reflexivity.
  - split; [exact H2|exact H9].
Defined.

Lemma start_reconstruction_quality_settings_witness :
  settings (snd (Routes.start_reconstruction
                   (Scenario.reconstruct "session_1700000000" (Some "high"))
                   (Scenario.recon_at 1700000100) (Scenario.world_with Scenario.site 10)))
  = high_settings.
Proof.
  apply (start_reconstruction_quality_settings Scenario.site
           (Scenario.reconstruct "session_1700000000" (Some "high"))
           (Scenario.recon_at 1700000100) (Scenario.world_with Scenario.site 10)
           (snd (Routes.start_reconstruction
                   (Scenario.reconstruct "session_1700000000" (Some "high"))
                   (Scenario.recon_at 1700000100) (Scenario.world_with Scenario.site 10)))
           "recon_1700000100" 0).
  - apply served_reachable, served_world_with.
  - vm_compute. reflexivity.
Defined.




(** Two requests in second 1700000100. *)
Definition same_second : Routes.world :=
  snd (Routes.start_reconstruction
         (Scenario.reconstruct "session_1700000000" None)
         (Scenario.recon_at (1700000100 + (9 # 10))) (started Scenario.site 10)).

Lemma start_reconstruction_same_second_witness :
  Routes.reconstruction_status same_second !! "recon_1700000100"
  = Some (S (length (Routes.status_heap (Scenario.world_with Scenario.site 10)))) ∧
  ∃ r1 r2, Routes.threads same_second
           = Routes.threads (Scenario.world_with Scenario.site 10)
             ++ [Routes.new_job "recon_1700000100" r1; Routes.new_job "recon_1700000100" r2].
Proof.
  edestruct (start_reconstruction_same_second Scenario.site
               (Scenario.reconstruct "session_1700000000" None)
               (Scenario.reconstruct "session_1700000000" None)
               (Scenario.recon_at 1700000100)
               (Scenario.recon_at (1700000100 + (9 # 10)))
               (Scenario.world_with Scenario.site 10)
               (started Scenario.site 10) same_second
               "recon_1700000100" "recon_1700000100" 0 0)
    as (_ & _ & H3 & _ & H5 & _).
  - vm_compute. reflexivity.
  - vm_compute. reflexivity.
  - vm_compute. reflexivity.
  - split; [exact H3|exact H5].
Defined.

Lemma run_reconstruction_always_fails_witness :
  let jw := Routes.run_reconstruction Scenario.site 1700000200 job0
              (started Scenario.site 10) in
  Routes.at_phase (fst jw) = Routes.Finished ∧
  ∃ st, Routes.status_heap (snd jw) !! 0 = Some st ∧ Routes.js_status st = "failed".
Proof.
  cbv zeta.
  edestruct (run_reconstruction_always_fails Scenario.site 1700000200
               "recon_1700000100" 0 0 (started Scenario.site 10))
    as (H1 & st & e & H2 & H3 & _).
  - vm_compute. reflexivity.
  - vm_compute. reflexivity.
  - vm_compute. reflexivity.
  - split; [exact H1|]. exists st. split; [exact H2|exact H3].
Defined.
